(** * psd_tools.user_api.psd_image: layer tree and compositor

    A shallow embedding of [src/psd_tools/user_api/psd_image.py] and the
    properties of the layer tree, the bounding boxes, the per-class metadata
    queries and [merge_layers] that the specification states about it.

    Conventions of the embedding.
    - Python integers are [Z]; list positions and layer indices are [nat].
    - A Python exception is a value: a computation that may raise returns
      [result A]; one that also writes to the module logger returns [M A],
      the records written so far paired with the outcome.
    - A [dict] is a [gmap]; [dict(pairs)] keeps the last value of a key.
    - The decoded document is immutable after loading, so a property that
      the source re-reads through [self._psd._layer_info(self._index)] is a
      function of the document and of the object. *)

From stdpp Require Import base option list gmap strings fin_maps.
From Stdlib Require Import ZArith QArith Lia DecimalString SpecFloat.
Close Scope Q_scope.
Open Scope Z_scope.

Set Warnings "-register-all".

(* ===================================================================== *)
(** ** Exceptions, results and the logger *)
(* ===================================================================== *)

Inductive exn : Type :=
| UnboundLocalError
| AttributeError
| IndexError
| KeyError
| TypeError
| ValueError
| OverflowError.

Inductive result (A : Type) : Type :=
| Ok (a : A)
| Raise (e : exn).
Arguments Ok {A} a.
Arguments Raise {A} e.

Global Instance result_ret : MRet result := fun A a => Ok a.
Global Instance result_bind : MBind result := fun A B f m =>
  match m with
  | Ok a => f a
  | Raise e => Raise e
  end.

(** The records the module hands to [logger]; the arguments are the values
    interpolated into the message. *)
Inductive LogRecord : Type :=
| critical_unknown_layer_type (kind : string)
    (* logger.critical("Unknown layer type (%s)" % (kind)) *)
| debug_cropping_overflow (x_overflow y_overflow : Z)
    (* logger.debug("cropping.. (%s, %s)", x_overflow, y_overflow) *)
| debug_cropping
    (* logger.debug("cropping..") *)
| warning_mode_unsupported (mode : string)
    (* logger.warning("layer image mode is unsupported for merging: %s", ..) *)
| warning_blend_mode_not_implemented (name : string)
    (* logger.warning("Blend mode is not implemented: %s",
                      BlendMode.name_of(layer.blend_mode)) *)
| warning_fill_not_supported.
    (* logger.warning("Gradient or pattern fill not supported") *)

(** Logging computations: the log written, then the value or the exception
    that ended the computation. *)
Definition M (A : Type) : Type := (list LogRecord * result A)%type.

Global Instance M_ret : MRet M := fun A a => ([], Ok a).
Global Instance M_bind : MBind M := fun A B f m =>
  match m.2 with
  | Ok a => let r := f a in (m.1 ++ r.1, r.2)
  | Raise e => (m.1, Raise e)
  end.

Definition lift {A} (r : result A) : M A := ([], r).
Definition logger (r : LogRecord) : M unit := ([r], Ok tt).
Definition raise {A} (e : exn) : M A := ([], Raise e).

(** [[f(x) for x in xs]] where [f] may raise: left to right, the first
    exception ends the evaluation. *)
Definition mapR {A B} (f : A -> result B) : list A -> result (list B) :=
  fix go (xs : list A) : result (list B) :=
    match xs with
    | [] => Ok []
    | x :: xs' => y ← f x; ys ← go xs'; Ok (y :: ys)
    end.

Definition mapM_log {A B} (f : A -> M B) : list A -> M (list B) :=
  fix go (xs : list A) : M (list B) :=
    match xs with
    | [] => mret []
    | x :: xs' => y ← f x; ys ← go xs'; mret (y :: ys)
    end.

(** [d.get(k, default)] where the default may itself be [None]. *)
Definition dict_get {V} (d : gmap string V) (k : string) (default : option V)
  : option V :=
  match d !! k with
  | Some v => Some v
  | None => default
  end.

(** [dict(pairs)]: a later pair overrides an earlier one with the same key. *)
Definition dict_of_pairs {V} (pairs : list (string * V)) : gmap string V :=
  list_to_map (reverse pairs).

(** Truth value of a dict: false exactly when it is empty. *)
Definition dict_truthy {V} (d : gmap string V) : bool :=
  negb (bool_decide (map_to_list d = [])).

(** [xs[i]] on a list with a Python integer: a negative position counts from
    the end, anything out of range raises IndexError. *)
Definition list_getitem {A} (xs : list A) (i : Z) : result A :=
  let n := Z.of_nat (length xs) in
  let j := if i <? 0 then i + n else i in
  if (j <? 0) || (n <=? j) then Raise IndexError
  else match xs !! Z.to_nat j with
       | Some x => Ok x
       | None => Raise IndexError
       end.

(* ===================================================================== *)
(** ** Geometry *)
(* ===================================================================== *)

(** [Size = namedtuple('Size', 'width, height')] *)
Record Size (A : Type) : Type := mkSize { size_width : A; size_height : A }.
Arguments mkSize {A} _ _.
Arguments size_width {A} _.
Arguments size_height {A} _.

(** [class BBox(namedtuple('BBox', 'x1, y1, x2, y2'))]; the fields hold
    integers for layers and descriptor numbers for a transform box. *)
Record BBox (A : Type) : Type := mkBBox { x1 : A; y1 : A; x2 : A; y2 : A }.
Arguments mkBBox {A} _ _ _ _.
Arguments x1 {A} _.
Arguments y1 {A} _.
Arguments x2 {A} _.
Arguments y2 {A} _.

Definition width (b : BBox Z) : Z := x2 b - x1 b.
Definition height (b : BBox Z) : Z := y2 b - y1 b.

(* ===================================================================== *)
(** ** The decoded document *)
(* ===================================================================== *)

(** Modelled from the spec: [psd_tools.constants] is not part of the sources.
    The identifiers of tagged blocks that the module uses are kept as
    pairwise distinct keys; no property below depends on their spelling. *)
Module TaggedBlock.
Definition VECTOR_MASK_SETTING1 : string := "vmsk".
Definition VECTOR_MASK_SETTING2 : string := "vsms".
Definition SMART_OBJECT_PLACED_LAYER_DATA : string := "SoLd".
Definition PLACED_LAYER_DATA : string := "SoLE".
Definition PLACED_LAYER_OBSOLETE1 : string := "plLd".
Definition PLACED_LAYER_OBSOLETE2 : string := "PlLd".
Definition TYPE_TOOL_OBJECT_SETTING : string := "TySh".
Definition SOLID_COLOR_SHEET_SETTING : string := "SoCo".
End TaggedBlock.

(** Modelled from the spec: the keys of a placed layer descriptor, of
    [psd_tools.constants]. *)
Module PlacedLayerProperty.
Definition TRANSFORM : string := "Trnf".
Definition SIZE : string := "Sz  ".
Definition ID : string := "Idnt".
End PlacedLayerProperty.

(** Modelled from the spec: the keys of the size record of a placed layer,
    of [psd_tools.constants]. *)
Module SzProperty.
Definition WIDTH : string := "Wdth".
Definition HEIGHT : string := "Hght".
End SzProperty.

(** Modelled from the spec: the key of the text of a type tool block, of
    [psd_tools.constants]. *)
Module TextProperty.
Definition TXT : string := "Txt ".
End TextProperty.

(** Modelled from the spec: the identifier of the normal blend mode, of
    [psd_tools.constants]. *)
Module BlendMode.
Definition NORMAL : string := "norm".
End BlendMode.

(** A leaf of a descriptor: what the [.value] attribute holds. The module
    hands these values on without arithmetic; a float among them is kept as
    the rational it denotes. *)
Inductive Atom : Type :=
| AStr (s : string)
| ANum (q : Q).

(** Descriptor values: an object with [.value], a list object whose [.items]
    is a list of values, or a descriptor whose [.items] is a list of pairs. *)
Inductive DValue : Type :=
| DVal (value : Atom)
| DList (items : list DValue)
| DObj (items : list (string * DValue)).

(** Values of the engine data of a type layer, as decoded: numbers, strings,
    lists and dicts. *)
Inductive PyVal : Type :=
| PInt (n : Z)
| PNum (q : Q)
| PStr (s : string)
| PList (l : list PyVal)
| PDict (d : gmap string PyVal).

(** One record of a vector mask path, a dict: [p.get('selector')] and
    [p['anchor']], the latter a pair (vertical, horizontal) of fractions of
    the document size. The fractions are floats, that is IEEE 754 binary64
    numbers, and the module multiplies them: they are kept as such. *)
Record PathRecord : Type := mkPathRecord {
  selector : option Z;
  anchor : option (spec_float * spec_float)
}.

(** The values held in [text_data.items] of a type tool block: descriptor
    leaves (the text) and the decoded engine data. *)
Inductive TextDatum : Type :=
| TDVal (value : Atom)
| TDEngine (data : PyVal).

(** A descriptor of which [_get_color] reads the class and the items: the
    colour of a solid colour sheet, whose components are floats. *)
Record ColorData : Type := mkColorData {
  classID : string;
  color_items : list (string * spec_float)
}.

(** The data of a tagged block, by the shape the module relies on; of a
    solid colour sheet, [data.items]. *)
Inductive BlockData : Type :=
| VectorMask (path : list PathRecord)
| PlacedLayer (items : list (string * DValue))
| TypeToolObjectSetting (text_data_items : list (string * TextDatum))
| SolidColorSheet (data_items : list (string * ColorData))
| OtherBlock.

Record MaskData : Type := mkMaskData {
  mask_left : Z; mask_top : Z; mask_right : Z; mask_bottom : Z;
  mask_background_color : Z
}.

(** A layer record of [decoded_data.layer_and_mask_data.layers.layer_records]. *)
Record LayerRecord : Type := mkLayerRecord {
  info_name : string;
  info_visible : bool;              (* flags.visible *)
  info_opacity : Z;
  info_blend_mode : string;
  info_left : Z; info_top : Z; info_right : Z; info_bottom : Z;
  info_mask_data : option MaskData;
  info_tagged_blocks : list (string * BlockData);
  info_pixel_data_irrelevant : bool (* flags.pixel_data_irrelevant *)
}.

(** An entry of a linked layer collection block. *)
Record LinkedLayer : Type := mkLinkedLayer {
  linked_unique_id : string;
  linked_filename : string
}.

(** [Embedded(linked)] wraps the linked layer. *)
Record Embedded : Type := mkEmbedded { embedded_linked : LinkedLayer }.

(** What [PSDImage] reads of the decoded data: the header size, the layer
    records and the linked layers in the order [_linked_layer_iter] yields
    them. *)
Record PSDImage : Type := mkPSDImage {
  header_width : Z;
  header_height : Z;
  layer_records : list LayerRecord;
  linked_layers : list LinkedLayer
}.

(** [self.embedded = {linked.unique_id: Embedded(linked) for linked in ...}] *)
Definition embedded (psd : PSDImage) : gmap string Embedded :=
  dict_of_pairs
    (map (fun linked => (linked_unique_id linked, mkEmbedded linked))
         (linked_layers psd)).

(* ===================================================================== *)
(** ** Layer objects *)
(* ===================================================================== *)

Inductive Class : Type :=
| GroupC
| RootGroupC
| AdjustmentLayerC
| PixelLayerC
| ShapeLayerC
| SmartObjectLayerC
| TypeLayerC.

Global Instance Class_eq_dec : EqDecision Class.
Proof. solve_decision. Defined.

(** [_kind], as each constructor passes it to [_RawLayer.__init__]. *)
Definition kind_of (c : Class) : string :=
  match c with
  | GroupC | RootGroupC => "group"
  | AdjustmentLayerC => "adjustment"
  | PixelLayerC => "pixel"
  | ShapeLayerC => "shape"
  | SmartObjectLayerC => "smartobject"
  | TypeLayerC => "type"
  end.

(** [isinstance(layer, Group)]: [_RootGroup] derives from [Group]. *)
Definition is_group (c : Class) : bool :=
  match c with
  | GroupC | RootGroupC => true
  | _ => false
  end.

(** An object seen along its [_parent] references: the fields that
    [_RawLayer.__init__] stores, without the child lists. The chain ends at
    the [PSDImage], which is the parent given to the root group. *)
Inductive Obj : Type :=
| PSDImageObj
| LayerObj (cls : Class) (_index : option nat) (_parent : Obj).

(** A layer with the lists it owns: [layers] (of a group) and
    [_clip_layers]. *)
Inductive Layer : Type :=
| mk_layer (cls : Class) (_parent : Obj) (_index : option nat)
           (layers : list Layer) (clip_layers : list Layer).

Definition layer_cls (l : Layer) : Class :=
  match l with mk_layer c _ _ _ _ => c end.
Definition layer_layers (l : Layer) : list Layer :=
  match l with mk_layer _ _ _ ls _ => ls end.
Definition layer_clip_layers (l : Layer) : list Layer :=
  match l with mk_layer _ _ _ _ cs => cs end.

(** The object itself, as its children and its properties refer to it. *)
Definition obj_of (l : Layer) : Obj :=
  match l with mk_layer c p i _ _ => LayerObj c i p end.

(** [_RawLayer.kind] *)
Definition kind (l : Layer) : string := kind_of (layer_cls l).

(** [_RawLayer.parent] *)
Definition parent (o : Obj) : result Obj :=
  match o with
  | PSDImageObj => Raise AttributeError
  | LayerObj _ _ p => Ok p
  end.

(** [PSDImage._layer_info(index)]: [layers[index]]. *)
Definition _layer_info (psd : PSDImage) (index : option nat)
  : result LayerRecord :=
  match index with
  | None => Raise TypeError
  | Some i =>
      match layer_records psd !! i with
      | Some r => Ok r
      | None => Raise IndexError
      end
  end.

(** [_RawLayer._info] *)
Definition _info (psd : PSDImage) (o : Obj) : result LayerRecord :=
  match o with
  | PSDImageObj => Raise AttributeError
  | LayerObj _ i _ => _layer_info psd i
  end.

(** [_RawLayer._tagged_blocks]: [dict(self._info.tagged_blocks)]. *)
Definition _tagged_blocks (psd : PSDImage) (o : Obj)
  : result (gmap string BlockData) :=
  info ← _info psd o; Ok (dict_of_pairs (info_tagged_blocks info)).

(** [_RawLayer.visible], overridden by [_RootGroup.visible]. *)
Definition visible (psd : PSDImage) (o : Obj) : result bool :=
  match o with
  | LayerObj RootGroupC _ _ => Ok true
  | _ => info ← _info psd o; Ok (info_visible info)
  end.

(** [_RawLayer.visible_global]:
    [return self.visible and self.parent.visible_global], overridden by
    [_RootGroup.visible_global]. [and] evaluates its right operand only when
    the left one is true. *)
Fixpoint visible_global (psd : PSDImage) (o : Obj) : result bool :=
  match o with
  | PSDImageObj => Raise AttributeError
  | LayerObj RootGroupC _ _ => Ok true
  | LayerObj _ _ p =>
      v ← visible psd o;
      if v : bool then visible_global psd p else Ok false
  end.

(** [_RawLayer.opacity] and [_RawLayer.blend_mode] *)
Definition opacity (psd : PSDImage) (o : Obj) : result Z :=
  info ← _info psd o; Ok (info_opacity info).
Definition blend_mode (psd : PSDImage) (o : Obj) : result string :=
  info ← _info psd o; Ok (info_blend_mode info).

(** [_RawLayer.has_mask]:
    [return True if self._index and self._info.mask_data else False].
    [self._index] is false for [None] and for [0]; [self._info] is read only
    when it is true. *)
Definition has_mask (psd : PSDImage) (o : Obj) : result bool :=
  match o with
  | PSDImageObj => Raise AttributeError
  | LayerObj _ None _ => Ok false
  | LayerObj _ (Some O) _ => Ok false
  | LayerObj _ (Some (S _)) _ =>
      info ← _info psd o;
      Ok (match info_mask_data info with Some _ => true | None => false end)
  end.

(** [Mask(layer)]: the mask record and the index of its layer. *)
Record Mask : Type := mkMask {
  mask_data : option MaskData;
  mask_layer_index : option nat
}.

Definition Mask_init (psd : PSDImage) (o : Obj) : result Mask :=
  match o with
  | PSDImageObj => Raise AttributeError
  | LayerObj _ i _ =>
      info ← _info psd o; Ok (mkMask (info_mask_data info) i)
  end.

(** [_RawLayer.mask]: [Mask(self) if self.has_mask() else None]. *)
Definition mask (psd : PSDImage) (o : Obj) : result (option Mask) :=
  h ← has_mask psd o;
  if h : bool then m ← Mask_init psd o; Ok (Some m) else Ok None.

(* ===================================================================== *)
(** ** Visible layers and shape layers *)
(* ===================================================================== *)

(** [_VisibleLayer.bbox]: the literal rectangle of the record. *)
Definition literal_bbox (info : LayerRecord) : BBox Z :=
  mkBBox (info_left info) (info_top info) (info_right info) (info_bottom info).

Definition VisibleLayer_bbox (psd : PSDImage) (o : Obj) : result (BBox Z) :=
  info ← _info psd o; Ok (literal_bbox info).

(** Truncation of a rational towards zero. *)
Definition py_int (q : Q) : Z := Z.quot (Qnum q) (Z.pos (Qden q)).

(** [float(n)], the conversion that [x * n] applies to an integer operand
    of a float: the nearest binary64 number, ties to even, and
    OverflowError when [n] is too large for a float. *)
Definition py_float_of_int (n : Z) : result spec_float :=
  match binary_normalize 53 1024 n 0 false with
  | S754_infinity _ => Raise OverflowError
  | f => Ok f
  end.

(** [x * y] on floats: the binary64 product; it does not raise. *)
Definition py_float_mul (x y : spec_float) : spec_float := SFmul 53 1024 x y.

(** [int(x)] on a float: truncation towards zero; NaN raises ValueError and
    an infinity OverflowError. *)
Definition py_int_of_float (x : spec_float) : result Z :=
  match x with
  | S754_zero _ => Ok 0
  | S754_nan => Raise ValueError
  | S754_infinity _ => Raise OverflowError
  | S754_finite s m e =>
      let magnitude := Z.shiftl (Z.pos m) e in
      Ok (if s then - magnitude else magnitude)
  end.

(** [int(a * n)] for a float [a] and an integer [n]. *)
Definition scale_fraction (a : spec_float) (n : Z) : result Z :=
  f ← py_float_of_int n;
  py_int_of_float (py_float_mul a f).

(** [min(xs)] and [max(xs)] on a list of integers; the empty list raises
    ValueError. *)
Definition py_min (xs : list Z) : result Z :=
  match xs with
  | [] => Raise ValueError
  | x :: xs' => Ok (foldl Z.min x xs')
  end.
Definition py_max (xs : list Z) : result Z :=
  match xs with
  | [] => Raise ValueError
  | x :: xs' => Ok (foldl Z.max x xs')
  end.

(** Truth value of a tagged block: the list of pairs of a placed layer block
    is false when empty, the other blocks are objects and are true. *)
Definition block_truthy (b : BlockData) : bool :=
  match b with
  | PlacedLayer [] => false
  | _ => true
  end.

(** [p.get('selector') in (1, 2, 4, 5)] *)
Definition on_curve (p : PathRecord) : bool :=
  match selector p with
  | Some s => (s =? 1) || (s =? 2) || (s =? 4) || (s =? 5)
  | None => false
  end.

(** [(int(p['anchor'][1] * width), int(p['anchor'][0] * height))] *)
Definition anchor_point (psd : PSDImage) (p : PathRecord) : result (Z * Z) :=
  match anchor p with
  | None => Raise KeyError
  | Some (a0, a1) =>
      x ← scale_fraction a1 (header_width psd);
      y ← scale_fraction a0 (header_height psd);
      Ok (x, y)
  end.

(** [ShapeLayer.anchors] *)
Definition anchors (psd : PSDImage) (o : Obj)
  : result (option (list (Z * Z))) :=
  blocks ← _tagged_blocks psd o;
  match dict_get blocks TaggedBlock.VECTOR_MASK_SETTING1
                 (blocks !! TaggedBlock.VECTOR_MASK_SETTING2) with
  | None => Ok None
  | Some vmsk =>
      if block_truthy vmsk then
        match vmsk with
        | VectorMask path =>
            pts ← mapR (anchor_point psd) (filter (fun p => on_curve p = true) path);
            Ok (Some pts)
        | _ => Raise AttributeError
        end
      else Ok None
  end.

(** [ShapeLayer._is_sizeless] *)
Definition _is_sizeless (psd : PSDImage) (o : Obj) : result bool :=
  info ← _info psd o;
  let bbox := literal_bbox info in
  Ok ((width bbox =? 0) || (height bbox =? 0)).

(** The envelope of at least two anchors. *)
Definition anchors_envelope (pts : list (Z * Z)) : result (BBox Z) :=
  a ← py_min (map fst pts);
  b ← py_min (map snd pts);
  c ← py_max (map fst pts);
  d ← py_max (map snd pts);
  Ok (mkBBox a b c d).

(** [ShapeLayer.bbox] *)
Definition ShapeLayer_bbox (psd : PSDImage) (o : Obj) : result (BBox Z) :=
  sizeless ← _is_sizeless psd o;
  if sizeless : bool then
    a ← anchors psd o;
    match a with
    | None => Ok (mkBBox 0 0 0 0)
    | Some pts =>
        if (bool_decide (pts = [])) || (length pts <? 2)%nat
        then Ok (mkBBox 0 0 0 0)
        else anchors_envelope pts
    end
  else VisibleLayer_bbox psd o.

(** What [_get_color] returns: the name of a colour, or the four integers
    of red, green, blue and opacity. *)
Inductive Color : Type :=
| ColorName (name : string)
| ColorRGBA (r g b a : Z).

(** [int(colors[key].value)] *)
Definition color_component (colors : gmap string spec_float) (key : string)
  : result Z :=
  match colors !! key with
  | None => Raise KeyError
  | Some v => py_int_of_float v
  end.

(** [ShapeLayer._get_color], with the default ['black']. *)
Definition _get_color (psd : PSDImage) (o : Obj) : M Color :=
  let default := ColorName "black" in
  blocks ← lift (_tagged_blocks psd o);
  match blocks !! TaggedBlock.SOLID_COLOR_SHEET_SETTING with
  | None => _ ← logger warning_fill_not_supported; mret default
  | Some soco =>
      if block_truthy soco then
        match soco with
        | SolidColorSheet data_items =>
            match dict_of_pairs data_items !! "Clr " with
            | None => raise AttributeError
            | Some color_data =>
                if String.eqb (classID color_data) "RGBC" then
                  let colors := dict_of_pairs (color_items color_data) in
                  r ← lift (color_component colors "Rd  ");
                  g ← lift (color_component colors "Grn ");
                  b ← lift (color_component colors "Bl  ");
                  a ← lift (opacity psd o);
                  mret (ColorRGBA r g b a)
                else mret default
            end
        | _ => raise AttributeError
        end
      else
        _ ← logger warning_fill_not_supported; mret default
  end.

(* ===================================================================== *)
(** ** Smart object layers *)
(* ===================================================================== *)

(** [SmartObjectLayer._placed_layer_block] *)
Definition _placed_layer_block (psd : PSDImage) (o : Obj)
  : result (option BlockData) :=
  blocks ← _tagged_blocks psd o;
  Ok (dict_get blocks TaggedBlock.SMART_OBJECT_PLACED_LAYER_DATA
       (dict_get blocks TaggedBlock.PLACED_LAYER_DATA
         (dict_get blocks TaggedBlock.PLACED_LAYER_OBSOLETE1
           (blocks !! TaggedBlock.PLACED_LAYER_OBSOLETE2)))).

(** [dict(placed_block)]: only a list of pairs converts. *)
Definition dict_of_block (b : BlockData) : result (gmap string DValue) :=
  match b with
  | PlacedLayer items => Ok (dict_of_pairs items)
  | _ => Raise TypeError
  end.

(** The field [_placed] set by [SmartObjectLayer.__init__]. *)
Definition _placed (psd : PSDImage) (o : Obj)
  : result (option (gmap string DValue)) :=
  placed_block ← _placed_layer_block psd o;
  match placed_block with
  | None => Ok None
  | Some b =>
      if block_truthy b then d ← dict_of_block b; Ok (Some d) else Ok None
  end.

(** The attributes [.value] and [.items] of a descriptor value. *)
Definition attr_value (v : DValue) : result Atom :=
  match v with
  | DVal a => Ok a
  | _ => Raise AttributeError
  end.

(** [x.value] where [x] comes from [dict.get] or a subscript and may be
    [None]. *)
Definition opt_attr_value (v : option DValue) : result Atom :=
  match v with
  | Some x => attr_value x
  | None => Raise AttributeError
  end.

(** [SmartObjectLayer.unique_id] *)
Definition unique_id (psd : PSDImage) (o : Obj) : result (option Atom) :=
  placed ← _placed psd o;
  match placed with
  | Some d =>
      if dict_truthy d then
        a ← opt_attr_value (d !! PlacedLayerProperty.ID); Ok (Some a)
      else Ok None
  | None => Ok None
  end.

(** Truth value of a string or a number. *)
Definition atom_truthy (a : Atom) : bool :=
  match a with
  | AStr s => negb (bool_decide (s = ""))
  | ANum q => negb (Qeq_bool q (inject_Z 0))
  end.

(** [SmartObjectLayer.linked_data]; the registry is keyed by strings. *)
Definition linked_data (psd : PSDImage) (o : Obj) : result (option Embedded) :=
  uid ← unique_id psd o;
  match uid with
  | Some a =>
      if atom_truthy a then
        match a with
        | AStr s => Ok (embedded psd !! s)
        | ANum _ => Ok None
        end
      else Ok None
  | None => Ok None
  end.

(** [PlacedLayerData.transform]: [self._info[TRANSFORM].items]. The caller
    reads each element through [.value]; [None] marks an element that has no
    such attribute (a pair of a descriptor's item list). *)
Definition PlacedLayerData_transform (info : gmap string DValue)
  : result (list (option DValue)) :=
  match info !! PlacedLayerProperty.TRANSFORM with
  | None => Raise KeyError
  | Some (DVal _) => Raise AttributeError
  | Some (DList items) => Ok (map Some items)
  | Some (DObj items) => Ok (map (fun _ => None) items)
      (* elements are pairs, which have no [.value] *)
  end.

(** [PlacedLayerData.size]: [dict(self._info[SIZE].items)]. *)
Definition PlacedLayerData_size (info : gmap string DValue)
  : result (gmap string DValue) :=
  match info !! PlacedLayerProperty.SIZE with
  | None => Raise KeyError
  | Some (DVal _) => Raise AttributeError
  | Some (DList []) => Ok ∅
  | Some (DList (_ :: _)) => Raise ValueError
      (* the elements are records of one field or of three, not pairs *)
  | Some (DObj items) => Ok (dict_of_pairs items)
  end.

(** [transform[i].value] *)
Definition transform_value (transform : list (option DValue)) (i : Z)
  : result Atom :=
  x ← list_getitem transform i; opt_attr_value x.

(** [SmartObjectLayer.transform_bbox] *)
Definition transform_bbox (psd : PSDImage) (o : Obj)
  : result (option (BBox Atom)) :=
  placed_layer_block ← _placed_layer_block psd o;
  match placed_layer_block with
  | None => Ok None
  | Some b =>
      if block_truthy b then
        info ← dict_of_block b;
        transform ← PlacedLayerData_transform info;
        match transform with
        | [] => Ok None
        | _ :: _ =>
            a ← transform_value transform 0;
            b ← transform_value transform 1;
            c ← transform_value transform 4;
            d ← transform_value transform 5;
            Ok (Some (mkBBox a b c d))
        end
      else Ok None
  end.

(** [size[key].value] *)
Definition size_value (size : gmap string DValue) (key : string)
  : result Atom :=
  match size !! key with
  | None => Raise KeyError
  | Some x => attr_value x
  end.

(** [SmartObjectLayer.placed_layer_size] *)
Definition placed_layer_size (psd : PSDImage) (o : Obj)
  : result (option (Size Atom)) :=
  placed_layer_block ← _placed_layer_block psd o;
  match placed_layer_block with
  | None => Ok None
  | Some b =>
      if block_truthy b then
        info ← dict_of_block b;
        size ← PlacedLayerData_size info;
        if dict_truthy size then
          w ← size_value size SzProperty.WIDTH;
          h ← size_value size SzProperty.HEIGHT;
          Ok (Some (mkSize w h))
        else Ok None
      else Ok None
  end.

(** [SmartObjectLayer.__init__] after the base constructor: it evaluates
    [_placed] and raises what that raises. *)
Definition SmartObjectLayer_init (psd : PSDImage) (o : Obj) : result unit :=
  _ ← _placed psd o; Ok tt.

(* ===================================================================== *)
(** ** Type layers *)
(* ===================================================================== *)

(** [v[key]] with a string key on an engine data value. *)
Definition py_getitem (v : PyVal) (key : string) : result PyVal :=
  match v with
  | PDict d =>
      match d !! key with
      | Some x => Ok x
      | None => Raise KeyError
      end
  | _ => Raise TypeError
  end.

(** [container[key]] for an arbitrary key value. *)
Definition py_subscript (container key : PyVal) : result PyVal :=
  match container, key with
  | PList l, PInt i => list_getitem l i
  | PList _, _ => Raise TypeError
  | PStr s, PInt i =>
      c ← list_getitem (String.list_ascii_of_string s) i;
      Ok (PStr (String c EmptyString))
  | PStr _, _ => Raise TypeError
  | PDict d, PStr k => py_getitem container k
  | PDict _, (PInt _ | PNum _) => Raise KeyError
  | PDict _, _ => Raise TypeError
  | (PInt _ | PNum _), _ => Raise TypeError
  end.

(** A bound of a slice over a sequence of length [len]: a negative bound
    counts from the end, and the result is clamped to [0 .. len]. *)
Definition slice_bound (len i : Z) : Z :=
  if i <? 0 then Z.max (i + len) 0 else Z.min i len.

(** [s[start:stop]] on a string. *)
Definition str_slice (s : string) (start stop : Z) : string :=
  let len := Z.of_nat (String.length s) in
  let a := slice_bound len start in
  let b := slice_bound len stop in
  String.substring (Z.to_nat a) (Z.to_nat (b - a)) s.

(** [xs[start:stop]] on a list. *)
Definition list_slice {A} (xs : list A) (start stop : Z) : list A :=
  let len := Z.of_nat (length xs) in
  let a := slice_bound len start in
  let b := slice_bound len stop in
  take (Z.to_nat (b - a)) (drop (Z.to_nat a) xs).

(** [text[start:stop]] with integer bounds. *)
Definition py_slice (text : PyVal) (start stop : Z) : result PyVal :=
  match text with
  | PStr s => Ok (PStr (str_slice s start stop))
  | PList l => Ok (PList (list_slice l start stop))
  | _ => Raise TypeError
  end.

(** [start + size] used as a slice bound: only an integer [size] gives a
    bound the slice accepts. *)
Definition py_add_int (start : Z) (size : PyVal) : result Z :=
  match size with
  | PInt n => Ok (start + n)
  | _ => Raise TypeError
  end.

(** The elements an iteration over a value yields. *)
Definition py_iter (v : PyVal) : result (list PyVal) :=
  match v with
  | PList l => Ok l
  | PStr s =>
      Ok (map (fun c => PStr (String c EmptyString))
              (String.list_ascii_of_string s))
  | PDict d => Ok (map (fun kv => PStr kv.1) (map_to_list d))
  | _ => Raise TypeError
  end.

(** [zip(a, b)]: pairs up to the shorter of the two. *)
Fixpoint zip_pairs {A B} (a : list A) (b : list B) : list (A * B) :=
  match a, b with
  | x :: a', y :: b' => (x, y) :: zip_pairs a' b'
  | _, _ => []
  end.

Definition py_zip (a b : PyVal) : result (list (PyVal * PyVal)) :=
  xs ← py_iter a; ys ← py_iter b; Ok (zip_pairs xs ys).

(** [d.copy()] of a dict value, for the item assignment that follows it: a
    list is copied as well, and then refuses the string key of the
    assignment with TypeError; the other values have no [copy]. *)
Definition dict_copy (v : PyVal) : result (gmap string PyVal) :=
  match v with
  | PDict d => Ok d
  | PList _ => Raise TypeError
  | _ => Raise AttributeError
  end.

(** [self._type_info] as [TypeLayer.__init__] reads it. *)
Definition _type_info (psd : PSDImage) (o : Obj) : result (option BlockData) :=
  blocks ← _tagged_blocks psd o;
  Ok (blocks !! TaggedBlock.TYPE_TOOL_OBJECT_SETTING).

(** [self.text_data = dict(self._type_info.text_data.items)] *)
Definition text_data (psd : PSDImage) (o : Obj)
  : result (gmap string TextDatum) :=
  type_info ← _type_info psd o;
  match type_info with
  | Some (TypeToolObjectSetting items) => Ok (dict_of_pairs items)
  | _ => Raise AttributeError
  end.

(** [TypeLayer.__init__] after the base constructor. *)
Definition TypeLayer_init (psd : PSDImage) (o : Obj) : result unit :=
  _ ← text_data psd o; Ok tt.

(** [TypeLayer.text] *)
Definition text (psd : PSDImage) (o : Obj) : result Atom :=
  td ← text_data psd o;
  match td !! TextProperty.TXT with
  | None => Raise KeyError
  | Some (TDVal a) => Ok a
  | Some (TDEngine _) => Raise AttributeError
  end.

(** [TypeLayer.engine_data]: [self.text_data.get(b'EngineData')] *)
Definition engine_data (psd : PSDImage) (o : Obj)
  : result (option TextDatum) :=
  td ← text_data psd o; Ok (td !! "EngineData").

(** [engine_data[key]]: [None] and descriptor leaves are not subscriptable. *)
Definition engine_getitem (e : option TextDatum) (key : string)
  : result PyVal :=
  match e with
  | Some (TDEngine v) => py_getitem v key
  | _ => Raise TypeError
  end.

(** [TypeLayer.fontset] *)
Definition fontset (psd : PSDImage) (o : Obj) : result PyVal :=
  e ← engine_data psd o;
  r ← engine_getitem e "DocumentResources";
  py_getitem r "FontSet".

(** [TypeLayer.full_text] *)
Definition full_text (psd : PSDImage) (o : Obj) : result PyVal :=
  e ← engine_data psd o;
  d ← engine_getitem e "EngineDict";
  ed ← py_getitem d "Editor";
  py_getitem ed "Text".

(** One pass of the loop of [style_spans] for the pair [(run, size)], from
    the state [(start, spans)] to the next state. *)
Definition style_spans_body (text fontset run size : PyVal)
    (start : Z) (spans : list (gmap string PyVal))
  : result (Z * list (gmap string PyVal)) :=
  stop ← py_add_int start size;
  runtext ← py_slice text start stop;
  ss ← py_getitem run "StyleSheet";
  sd ← py_getitem ss "StyleSheetData";
  stylesheet ← dict_copy sd;
  let stylesheet1 := <["Text" := runtext]> stylesheet in
  font ← py_subscript fontset (default (PInt 0) (stylesheet1 !! "Font"));
  let stylesheet2 := <["Font" := font]> stylesheet1 in
  Ok (stop, spans ++ [stylesheet2]).

(** [for run, size in zip(runarray, runlength): ...] *)
Fixpoint style_spans_loop (text fontset : PyVal)
    (pairs : list (PyVal * PyVal))
    (start : Z) (spans : list (gmap string PyVal))
  : result (list (gmap string PyVal)) :=
  match pairs with
  | [] => Ok spans
  | (run, size) :: rest =>
      st ← style_spans_body text fontset run size start spans;
      style_spans_loop text fontset rest st.1 st.2
  end.

(** The walk of [style_spans] once the four values are read. *)
Definition style_spans_of (text fontset runlength runarray : PyVal)
  : result (list (gmap string PyVal)) :=
  pairs ← py_zip runarray runlength;
  style_spans_loop text fontset pairs 0 [].

(** [TypeLayer.style_spans] *)
Definition style_spans (psd : PSDImage) (o : Obj)
  : result (list (gmap string PyVal)) :=
  text ← full_text psd o;
  fontset ← fontset psd o;
  engine_data ← engine_data psd o;
  d ← engine_getitem engine_data "EngineDict";
  sr ← py_getitem d "StyleRun";
  runlength ← py_getitem sr "RunLengthArray";
  d' ← engine_getitem engine_data "EngineDict";
  sr' ← py_getitem d' "StyleRun";
  runarray ← py_getitem sr' "RunArray";
  style_spans_of text fontset runlength runarray.

(* ===================================================================== *)
(** ** Groups and bounding boxes *)
(* ===================================================================== *)

(** [bbox.width > 0 and bbox.height > 0] *)
Definition bbox_positive (b : BBox Z) : bool :=
  (0 <? width b) && (0 <? height b).

(** The boxes [combined_bbox] keeps: not [None], positive width and height. *)
Definition kept_bboxes (bs : list (option (BBox Z))) : list (BBox Z) :=
  filter (fun b => bbox_positive b = true) (omap id bs).

(** [combined_bbox] on the values of [layer.bbox], in the order of the
    layers. *)
Definition combined_bbox_of (bs : list (option (BBox Z)))
  : result (option (BBox Z)) :=
  let bboxes := kept_bboxes bs in
  match bboxes with
  | [] => Ok None
  | _ :: _ =>
      let lefts := map x1 bboxes in
      let tops := map y1 bboxes in
      let rights := map x2 bboxes in
      let bottoms := map y2 bboxes in
      a ← py_min lefts;
      b ← py_min tops;
      c ← py_max rights;
      d ← py_max bottoms;
      Ok (Some (mkBBox a b c d))
  end.

(** [combined_bbox(layers)] for a given meaning of [layer.bbox]. *)
Definition combined_bbox_with (bbox : Layer -> result (option (BBox Z)))
    (layers : list Layer) : result (option (BBox Z)) :=
  bs ← mapR bbox layers; combined_bbox_of bs.

(** [layer.bbox], by class: [Group.bbox] is [combined_bbox(self.layers)],
    [ShapeLayer.bbox] and [_VisibleLayer.bbox] never return [None]. *)
Fixpoint Layer_bbox (psd : PSDImage) (layer : Layer)
  : result (option (BBox Z)) :=
  match layer with
  | mk_layer cls _ _ layers _ =>
      if is_group cls then combined_bbox_with (Layer_bbox psd) layers
      else if bool_decide (cls = ShapeLayerC)
           then b ← ShapeLayer_bbox psd (obj_of layer); Ok (Some b)
           else b ← VisibleLayer_bbox psd (obj_of layer); Ok (Some b)
  end.

(** [combined_bbox(layers)] *)
Definition combined_bbox (psd : PSDImage) (layers : list Layer)
  : result (option (BBox Z)) :=
  combined_bbox_with (Layer_bbox psd) layers.

(** [PSDImage.bbox] *)
Definition PSDImage_bbox (psd : PSDImage) (root : Layer)
  : result (option (BBox Z)) :=
  combined_bbox psd (layer_layers root).

(* ===================================================================== *)
(** ** Tree assembly *)
(* ===================================================================== *)

(** A node of the nested description that [group_layers] returns: a dict
    with the keys ['index'], ['kind'], ['layers'] and ['clip_layers']. *)
Inductive LayerDesc : Type :=
| mk_desc (index : nat) (kind : string)
          (layers : list LayerDesc) (clip_layers : list LayerDesc).

Definition desc_kind (d : LayerDesc) : string :=
  match d with mk_desc _ k _ _ => k end.
Definition desc_layers (d : LayerDesc) : list LayerDesc :=
  match d with mk_desc _ _ ls _ => ls end.
Definition desc_clip_layers (d : LayerDesc) : list LayerDesc :=
  match d with mk_desc _ _ _ cs => cs end.

(** [child.clip_layers.append(clip)] for each element of [clips]. *)
Definition append_clip_layers (child : Layer) (clips : list Layer) : Layer :=
  match child with
  | mk_layer c p i ls cs => mk_layer c p i ls (cs ++ clips)
  end.

(** [fill_group(group, data)] over [data['layers']], for a given
    [make_layer]; the result is the list that [group._add_layer] built. *)
Definition fill_group_with (make_layer : Obj -> LayerDesc -> M Layer)
    (group : Obj) : list LayerDesc -> M (list Layer) :=
  fix go (data_layers : list LayerDesc) : M (list Layer) :=
    match data_layers with
    | [] => mret []
    | layer :: rest =>
        child ← make_layer group layer;
        clips ← mapM_log (make_layer group) (desc_clip_layers layer);
        children ← go rest;
        mret (append_clip_layers child clips :: children)
    end.

(** [make_layer(group, layer)]. In the last branch nothing was bound to
    [child], and [return child] raises UnboundLocalError. *)
Fixpoint make_layer (psd : PSDImage) (group : Obj) (layer : LayerDesc)
  {struct layer} : M Layer :=
  match layer with
  | mk_desc index kind data_layers _ =>
      let self c := LayerObj c (Some index) group in
      if String.eqb kind "group" then
        children ← fill_group_with (make_layer psd) (self GroupC) data_layers;
        mret (mk_layer GroupC group (Some index) children [])
      else if String.eqb kind "adjustment" then
        mret (mk_layer AdjustmentLayerC group (Some index) [] [])
      else if String.eqb kind "type" then
        _ ← lift (TypeLayer_init psd (self TypeLayerC));
        mret (mk_layer TypeLayerC group (Some index) [] [])
      else if String.eqb kind "shape" then
        mret (mk_layer ShapeLayerC group (Some index) [] [])
      else if String.eqb kind "pixel" then
        mret (mk_layer PixelLayerC group (Some index) [] [])
      else if String.eqb kind "smartobject" then
        _ ← lift (SmartObjectLayer_init psd (self SmartObjectLayerC));
        mret (mk_layer SmartObjectLayerC group (Some index) [] [])
      else
        _ ← logger (critical_unknown_layer_type kind);
        raise UnboundLocalError
  end.

Definition fill_group (psd : PSDImage) (group : Obj)
    (data_layers : list LayerDesc) : M (list Layer) :=
  fill_group_with (make_layer psd) group data_layers.

(** [_RootGroup(self, None, [])] *)
Definition root_obj : Obj := LayerObj RootGroupC None PSDImageObj.

(** The tree part of [PSDImage.__init__]: [grouped] is the value of
    [group_layers(decoded_data)]; the result is [_fake_root_group]. *)
Definition PSDImage_init (psd : PSDImage) (grouped : list LayerDesc)
  : M Layer :=
  layers ← fill_group psd root_obj grouped;
  mret (mk_layer RootGroupC PSDImageObj None layers []).

(* ===================================================================== *)
(** ** The compositor *)
(* ===================================================================== *)

(** What [merge_layers] asks of code that is not part of the sources: the
    raster library (PIL and [psd_tools.user_api.pil_support]) and the table
    of names of [psd_tools.constants].
    [image_paste dest src at] is [dest] after [dest.paste(src, at)];
    [as_PIL] is [self._psd._layer_as_PIL(self._index)], the raster that
    [pil_support.extract_layer_image] gives for the record of the layer,
    which may be [None]; [draw_polygon] is [pil_support.draw_polygon];
    [BlendMode_name_of] is [BlendMode.name_of]. *)
Class Raster : Type := {
  Image : Type;
  Image_new : string -> Z * Z -> Image;
  image_size : Image -> Z * Z;
  image_mode : Image -> string;
  image_crop : Image -> Z * Z * Z * Z -> Image;
  image_paste : Image -> Image -> Z * Z -> Image;
  alpha_composite : Image -> Image -> Image;
  apply_opacity : Image -> Z -> Image;
  as_PIL : PSDImage -> Layer -> option Image;
  draw_polygon : BBox Z -> option (list (Z * Z)) -> Color -> Image;
  BlendMode_name_of : string -> string
}.

Section Compositor.
Context {R : Raster}.
Variable psd : PSDImage.
Variable respect_visibility : bool.
Variable skip_layer : Layer -> bool.

(** [if layer.bbox.width == 0 and layer.bbox.height == 0] *)
Definition bbox_is_empty (b : BBox Z) : bool :=
  (width b =? 0) && (height b =? 0).

(** Lines 746-759: the offset of the layer on the canvas, the crop of what
    hangs over the top or left edge, and the test for what would pass the
    right or bottom edge. The result is the raster to place and where. *)
Definition fit_to_bbox (bbox layer_bbox : BBox Z) (layer_image : Image)
  : M (Image * (Z * Z)) :=
  let x := x1 layer_bbox - x1 bbox in
  let y := y1 layer_bbox - y1 bbox in
  let '(w, h) := image_size layer_image in
  '(layer_image, (x, y)) ←
    (if (x <? 0) || (y <? 0) then
       let x_overflow := - Z.min x 0 in
       let y_overflow := - Z.min y 0 in
       _ ← logger (debug_cropping_overflow x_overflow y_overflow);
       mret (image_crop layer_image (x_overflow, y_overflow, w, h),
             (x + x_overflow, y + y_overflow))
     else mret (layer_image, (x, y)));
  _ ← (if (w + x >? width bbox) || (h + y >? height bbox)
       then logger debug_cropping
       else mret tt);
  mret (layer_image, (x, y)).

(** Lines 761-776: the blend of the raster onto [result]. *)
Definition blend_onto (result layer_image : Image) (at_ : Z * Z)
    (blend_mode : string) : M Image :=
  if String.eqb blend_mode BlendMode.NORMAL then
    if String.eqb (image_mode layer_image) "RGBA" then
      let tmp := Image_new "RGBA" (image_size result) in
      let tmp := image_paste tmp layer_image at_ in
      mret (alpha_composite result tmp)
    else if String.eqb (image_mode layer_image) "RGB" then
      mret (image_paste result layer_image at_)
    else
      _ ← logger (warning_mode_unsupported (image_mode layer_image));
      mret result
  else
    _ ← logger (warning_blend_mode_not_implemented
                  (BlendMode_name_of blend_mode));
    mret result.

(** Lines 744-776 for a layer that was not skipped and whose raster is
    [layer_image]. *)
Definition draw_layer (bbox layer_bbox : BBox Z) (result : Image)
    (layer : Layer) (layer_image : option Image) : M Image :=
  opacity ← lift (opacity psd (obj_of layer));
  match layer_image with
  | None => raise AttributeError
  | Some layer_image =>
      let layer_image := apply_opacity layer_image opacity in
      placed ← fit_to_bbox bbox layer_bbox layer_image;
      blend_mode ← lift (blend_mode psd (obj_of layer));
      blend_onto result placed.1 placed.2 blend_mode
  end.

(** The body of the loop of [merge_layers] for one layer; [layer_image] is
    the computation of lines 738-742, run only when no [continue] is taken
    before it. The lists are those built by [fill_group], which hold no
    [None], so the test of line 726 never fires. *)
Definition merge_step (bbox : BBox Z) (result : Image) (layer : Layer)
    (layer_image : M (option Image)) : M Image :=
  layer_bbox ← lift (Layer_bbox psd layer);
  match layer_bbox with
  | None => raise AttributeError
  | Some layer_bbox =>
      if bbox_is_empty layer_bbox then mret result
      else if skip_layer layer then mret result
      else
        visible ← lift (visible psd (obj_of layer));
        if negb visible && respect_visibility then mret result
        else
          layer_image ← layer_image;
          draw_layer bbox layer_bbox result layer layer_image
  end.

(** One turn of the loop: the canvas so far, then the step of [layer]. *)
Definition merge_loop_step (layer_image : Layer -> M (option Image))
    (bbox : BBox Z) (layer : Layer) (acc : M Image) : M Image :=
  result ← acc; merge_step bbox result layer (layer_image layer).

(** [merge_layers(layers, respect_visibility, skip_layer, bbox)] for a
    given way to obtain the raster of one layer. [foldr] visits the last
    layer first, as [for layer in reversed(layers)] does. *)
Definition merge_layers_with (layer_image : Layer -> M (option Image))
    (layers : list Layer) (bbox : option (BBox Z)) : M (option Image) :=
  bbox ← match bbox with
         | Some b => mret (Some b)
         | None => lift (combined_bbox psd layers)
         end;
  match bbox with
  | None => mret None
  | Some bbox =>
      let result := Image_new "RGBA" (width bbox, height bbox) in
      result ← foldr (merge_loop_step layer_image bbox) (mret result) layers;
      mret (Some result)
  end.

(** [ShapeLayer.as_PIL()], with [vector=False]: the shape is drawn as a
    polygon when the pixel data of the record is irrelevant and the literal
    box is empty in a direction; [and] reads [_is_sizeless()] only when the
    flag is set. *)
Definition ShapeLayer_as_PIL (layer : Layer) : M (option Image) :=
  let o := obj_of layer in
  info ← lift (_info psd o);
  as_polygon ← (if info_pixel_data_irrelevant info
                then lift (_is_sizeless psd o) else mret false);
  if as_polygon : bool then
    bbox ← lift (ShapeLayer_bbox psd o);
    anchors ← lift (anchors psd o);
    color ← _get_color psd o;
    mret (Some (draw_polygon bbox anchors color))
  else mret (as_PIL psd layer).

(** Lines 738-742: a group is merged from its own layers, with the same
    flags and no target box; any other layer is rasterised by [as_PIL()]
    of its class. *)
Fixpoint layer_image (layer : Layer) : M (option Image) :=
  match layer with
  | mk_layer cls _ _ layers _ =>
      if is_group cls then merge_layers_with layer_image layers None
      else if bool_decide (cls = ShapeLayerC) then ShapeLayer_as_PIL layer
      else mret (as_PIL psd layer)
  end.

(** [merge_layers] *)
Definition merge_layers (layers : list Layer) (bbox : option (BBox Z))
  : M (option Image) :=
  merge_layers_with layer_image layers bbox.

End Compositor.

(* ===================================================================== *)
(** ** The layers of a tree *)
(* ===================================================================== *)

(** A layer, the layers of its group and its clip layers, at every depth. *)
Fixpoint tree_layers (l : Layer) : list Layer :=
  match l with
  | mk_layer _ _ _ layers clip_layers =>
      l :: flat_map tree_layers layers ++ flat_map tree_layers clip_layers
  end.

(** The indices that a description mentions, at every depth. *)
Fixpoint desc_indices (d : LayerDesc) : list nat :=
  match d with
  | mk_desc index _ layers clip_layers =>
      index :: flat_map desc_indices layers ++ flat_map desc_indices clip_layers
  end.

(** Every index of the description denotes a layer record. *)
Definition desc_in_range (psd : PSDImage) (grouped : list LayerDesc) : Prop :=
  Forall (fun i => (i < length (layer_records psd))%nat)
         (flat_map desc_indices grouped).

(** An object whose parent chain reaches a root group through layers that
    all have a record. *)
Inductive rooted (psd : PSDImage) : Obj -> Prop :=
| rooted_root i p : rooted psd (LayerObj RootGroupC i p)
| rooted_child c i p r :
    c ≠ RootGroupC ->
    layer_records psd !! i = Some r ->
    rooted psd p ->
    rooted psd (LayerObj c (Some i) p).

(** What [make_layer] builds below a rooted group: every layer of the
    result, clip layers included, is rooted and is not a root group. *)
Definition built_rooted (psd : PSDImage) (l : Layer) : Prop :=
  Forall (fun x => rooted psd (obj_of x) /\ layer_cls x ≠ RootGroupC)
         (tree_layers l).

(** The kind tags that [make_layer] knows. *)
Definition known_kinds : list string :=
  ["group"; "adjustment"; "type"; "shape"; "pixel"; "smartobject"].

(** The identifiers of the placed layer block, in the order in which
    [_placed_layer_block] prefers them. *)
Definition placed_layer_keys : list string :=
  [TaggedBlock.SMART_OBJECT_PLACED_LAYER_DATA;
   TaggedBlock.PLACED_LAYER_DATA;
   TaggedBlock.PLACED_LAYER_OBSOLETE1;
   TaggedBlock.PLACED_LAYER_OBSOLETE2].

(** [b] is the smallest box that contains every box of the family [S]: it
    contains them, and each of its sides is a side of one of them. *)
Definition envelope_of_boxes (b : BBox Z) (S : BBox Z -> Prop) : Prop :=
  (forall k, S k ->
     x1 b <= x1 k /\ y1 b <= y1 k /\ x2 k <= x2 b /\ y2 k <= y2 b) /\
  (exists k, S k /\ x1 k = x1 b) /\
  (exists k, S k /\ y1 k = y1 b) /\
  (exists k, S k /\ x2 k = x2 b) /\
  (exists k, S k /\ y2 k = y2 b).

(** The boxes of the layers of [layers] that survive the filter of
    [combined_bbox]: not [None], positive width and height. *)
Definition surviving (psd : PSDImage) (layers : list Layer) (b : BBox Z)
  : Prop :=
  exists l, l ∈ layers /\ Layer_bbox psd l = Ok (Some b) /\
            0 < width b /\ 0 < height b.

(** [layer.bbox] has a value, a box or [None], for every layer of the
    list. *)
Definition bboxes_defined (psd : PSDImage) (layers : list Layer) : Prop :=
  Forall (fun l => exists ob, Layer_bbox psd l = Ok ob) layers.

(** The same for points. *)
Definition envelope_of_points (b : BBox Z) (pts : list (Z * Z)) : Prop :=
  (forall p, p ∈ pts ->
     x1 b <= p.1 /\ p.1 <= x2 b /\ y1 b <= p.2 /\ p.2 <= y2 b) /\
  (exists p, p ∈ pts /\ p.1 = x1 b) /\
  (exists p, p ∈ pts /\ p.2 = y1 b) /\
  (exists p, p ∈ pts /\ p.1 = x2 b) /\
  (exists p, p ∈ pts /\ p.2 = y2 b).

(** The offset at which the [i]-th run starts: the sum of the lengths of the
    runs before it. *)
Definition run_offset (sizes : list Z) (i : nat) : Z :=
  foldr Z.add 0 (take i sizes).

(* ===================================================================== *)
(** ** A symbolic raster library *)
(* ===================================================================== *)

(** Rasters as the terms of the operations that built them. This instance of
    [Raster] records what the compositor asks of the library, without fixing
    how pixels are stored or blended. *)
Inductive Picture : Type :=
| Blank (mode : string) (size : Z * Z)
| Pixels (mode : string) (size : Z * Z) (source : option nat)
| Cropped (im : Picture) (box : Z * Z * Z * Z)
| Pasted (dest src : Picture) (at_ : Z * Z)
| Composited (dest src : Picture)
| Faded (im : Picture) (opacity : Z)
| Polygon (bbox : BBox Z) (points : option (list (Z * Z))) (fill : Color).

Fixpoint picture_size (p : Picture) : Z * Z :=
  match p with
  | Blank _ s => s
  | Pixels _ s _ => s
  | Cropped _ (l, t, r, b) => (r - l, b - t)
  | Pasted dest _ _ => picture_size dest
  | Composited dest _ => picture_size dest
  | Faded im _ => picture_size im
  | Polygon b _ _ => (width b, height b)
  end.

Fixpoint picture_mode (p : Picture) : string :=
  match p with
  | Blank m _ => m
  | Pixels m _ _ => m
  | Cropped im _ => picture_mode im
  | Pasted dest _ _ => picture_mode dest
  | Composited _ _ => "RGBA"
  | Faded im _ => picture_mode im
  | Polygon _ _ _ => "RGBA"
  end.

(** The raster of a leaf layer: the pixels of its record, of the size of
    the literal box and of mode [mode_of index]; no raster when the layer
    has no record. *)
Definition picture_of_layer (mode_of : nat -> string) (psd : PSDImage)
    (layer : Layer) : option Picture :=
  match obj_of layer with
  | LayerObj _ (Some i) _ =>
      match layer_records psd !! i with
      | Some info =>
          Some (Pixels (mode_of i)
                       (width (literal_bbox info), height (literal_bbox info))
                       (Some i))
      | None => None
      end
  | _ => None
  end.

(** Names of blend modes for the samples: the attribute names of two
    values, and a placeholder for any other value. *)
Definition sample_name_of (value : string) : string :=
  if String.eqb value "norm" then "NORMAL"
  else if String.eqb value "mul " then "MULTIPLY"
  else ("<unknown:" ++ value ++ ">")%string.

Definition symbolic_raster (mode_of : nat -> string) : Raster := {|
  Image := Picture;
  Image_new := Blank;
  image_size := picture_size;
  image_mode := picture_mode;
  image_crop := Cropped;
  image_paste := Pasted;
  alpha_composite := Composited;
  apply_opacity := Faded;
  as_PIL := picture_of_layer mode_of;
  draw_polygon := Polygon;
  BlendMode_name_of := sample_name_of
|}.

(* ===================================================================== *)
(** ** Sample documents *)
(* ===================================================================== *)

Module Sample.

(** A layer record with the given box, visibility, blend mode, mask and
    tagged blocks; opacity 255. *)
Definition record (box : BBox Z) (vis : bool) (mode : string)
    (m : option MaskData) (blocks : list (string * BlockData))
  : LayerRecord :=
  mkLayerRecord "layer" vis 255 mode
                (x1 box) (y1 box) (x2 box) (y2 box) m blocks false.

Definition document (w h : Z) (records : list LayerRecord) : PSDImage :=
  mkPSDImage w h records [].

Definition never (l : Layer) : bool := false.

End Sample.

(** One pixel layer at index 0 whose record carries a mask. *)
Module MaskSample.
Import Sample.
Definition the_mask : MaskData := mkMaskData 0 0 4 4 255.
Definition psd : PSDImage :=
  document 4 4 [record (mkBBox 0 0 4 4) true BlendMode.NORMAL (Some the_mask) []].
Definition grouped : list LayerDesc := [mk_desc 0 "pixel" [] []].
Definition background : Layer := mk_layer PixelLayerC root_obj (Some 0%nat) [] [].
End MaskSample.

(** Two records; the description names the second a pixel layer and gives
    the first a kind tag that [make_layer] does not know. *)
Module UnknownKindSample.
Import Sample.
Definition psd : PSDImage :=
  document 4 4 [record (mkBBox 0 0 4 4) true BlendMode.NORMAL None [];
                record (mkBBox 0 0 4 4) true BlendMode.NORMAL None []].
Definition grouped : list LayerDesc :=
  [mk_desc 1 "pixel" [] []; mk_desc 0 "artboard" [] []].
End UnknownKindSample.

(** A visible group at index 2 that holds a hidden pixel layer (index 1)
    with a clip layer (index 0). *)
Module VisibilitySample.
Import Sample.
Definition psd : PSDImage :=
  document 4 4 [record (mkBBox 0 0 4 4) true BlendMode.NORMAL None [];
                record (mkBBox 0 0 4 4) false BlendMode.NORMAL None [];
                record (mkBBox 0 0 0 0) true BlendMode.NORMAL None []].
Definition grouped : list LayerDesc :=
  [mk_desc 2 "group" [mk_desc 1 "pixel" [] [mk_desc 0 "pixel" [] []]] []].
Definition group_obj : Obj := LayerObj GroupC (Some 2%nat) root_obj.
Definition clip : Layer := mk_layer PixelLayerC group_obj (Some 0%nat) [] [].
Definition hidden : Layer := mk_layer PixelLayerC group_obj (Some 1%nat) [] [clip].
Definition group : Layer := mk_layer GroupC root_obj (Some 2%nat) [hidden] [].
Definition root : Layer := mk_layer RootGroupC PSDImageObj None [group] [].
End VisibilitySample.

(** A group without layers next to a pixel layer. *)
Module EmptyGroupSample.
Import Sample.
Definition psd : PSDImage :=
  document 8 8 [record (mkBBox 1 2 5 7) true BlendMode.NORMAL None [];
                record (mkBBox 0 0 0 0) true BlendMode.NORMAL None []].
Definition grouped : list LayerDesc :=
  [mk_desc 1 "group" [] []; mk_desc 0 "pixel" [] []].
Definition empty_group : Layer := mk_layer GroupC root_obj (Some 1%nat) [] [].
Definition pixels : Layer := mk_layer PixelLayerC root_obj (Some 0%nat) [] [].
Definition root : Layer :=
  mk_layer RootGroupC PSDImageObj None [empty_group; pixels] [].
End EmptyGroupSample.

(** The selector codes that [anchors] keeps. *)
Definition on_curve_selectors : list (option Z) :=
  [Some 1; Some 2; Some 4; Some 5].

(** The rational that a finite float denotes. *)
Definition float_value (x : spec_float) : option Q :=
  match x with
  | S754_zero _ => Some (inject_Z 0)
  | S754_finite s m e =>
      let n := if s then Z.neg m else Z.pos m in
      Some (if 0 <=? e then inject_Z (n * 2 ^ e)
            else Qmake n (2 ^ Z.to_pos (- e)))
  | _ => None
  end.

(** [t] is the fraction [a] of the length [n], truncated: the product of
    [a] and of the float nearest to [n], as binary64 arithmetic rounds it,
    is finite, and [t] is the value of this product truncated towards
    zero. *)
Definition scaled (a : spec_float) (n : Z) (t : Z) : Prop :=
  exists f q,
    py_float_of_int n = Ok f /\
    float_value (py_float_mul a f) = Some q /\
    t = py_int q.

(** The anchor of a path record, scaled to the document and truncated:
    horizontal from the second component, vertical from the first. *)
Definition scaled_anchor (psd : PSDImage) (p : PathRecord) (pt : Z * Z)
  : Prop :=
  exists a0 a1,
    anchor p = Some (a0, a1) /\
    scaled a1 (header_width psd) pt.1 /\
    scaled a0 (header_height psd) pt.2.

(** A shape layer whose record has the box (0,0,0,0) and a vector mask with
    a square path, in a document of 10 by 10. *)
Module ShapeSample.
Import Sample.
Definition knot (s : Z) (v h : spec_float) : PathRecord :=
  mkPathRecord (Some s) (Some (v, h)).
(** The floats 0.0 and 1.0. *)
Definition zero : spec_float := S754_zero false.
Definition one : spec_float := S754_finite false 4503599627370496 (-52).
Definition path : list PathRecord :=
  [mkPathRecord (Some 6) None;
   mkPathRecord (Some 0) None;
   knot 1 zero zero;
   knot 2 zero one;
   knot 1 one one;
   knot 2 one zero].
Definition psd : PSDImage :=
  document 10 10
    [record (mkBBox 0 0 0 0) true BlendMode.NORMAL None
            [(TaggedBlock.VECTOR_MASK_SETTING1, VectorMask path)]].
Definition shape : Obj := LayerObj ShapeLayerC (Some 0%nat) root_obj.
Definition corners : list (Z * Z) := [(0, 0); (10, 0); (10, 10); (0, 10)].
End ShapeSample.

(** A shape layer with anchors at fractions that binary64 does not hold
    exactly, in a document of 10 by 20: the floats nearest to 0.7, 0.35
    and 0.1. The first is less than 7/10, and its product with 10.0 rounds
    to 7.0. *)
Module FractionSample.
Import Sample.
Definition f07 : spec_float := S754_finite false 6305039478318694 (-53).
Definition f035 : spec_float := S754_finite false 6305039478318694 (-54).
Definition f01 : spec_float := S754_finite false 7205759403792794 (-56).
Definition path : list PathRecord :=
  [ShapeSample.knot 1 f035 f07;
   ShapeSample.knot 0 ShapeSample.one ShapeSample.one;
   ShapeSample.knot 2 f07 f035;
   ShapeSample.knot 4 f01 f01].
Definition psd : PSDImage :=
  document 10 20
    [record (mkBBox 4 4 4 9) true BlendMode.NORMAL None
            [(TaggedBlock.VECTOR_MASK_SETTING2, VectorMask path)]].
Definition shape : Obj := LayerObj ShapeLayerC (Some 0%nat) root_obj.
Definition points : list (Z * Z) := [(7, 7); (3, 14); (1, 2)].
End FractionSample.

(** Smart object layers: one whose record has no placed layer block, and one
    whose placed layer block has the size of the content and nothing else. *)
Module SmartObjectSample.
Import Sample.
Definition size_only : list (string * DValue) :=
  [(PlacedLayerProperty.SIZE,
    DObj [(SzProperty.WIDTH, DVal (ANum (10 # 1)));
          (SzProperty.HEIGHT, DVal (ANum (20 # 1)))])].
Definition psd : PSDImage :=
  document 32 32
    [record (mkBBox 0 0 8 8) true BlendMode.NORMAL None
            [("lyid", OtherBlock)];
     record (mkBBox 0 0 8 8) true BlendMode.NORMAL None
            [(TaggedBlock.SMART_OBJECT_PLACED_LAYER_DATA,
              PlacedLayer size_only)]].
Definition bare : Obj := LayerObj SmartObjectLayerC (Some 0%nat) root_obj.
Definition sized : Obj := LayerObj SmartObjectLayerC (Some 1%nat) root_obj.
End SmartObjectSample.

(** What [style_spans] reads of the engine data of a type layer: the full
    text, the font set, the run lengths and the runs. *)
Definition type_layer_data (psd : PSDImage) (o : Obj) (s : string)
    (fonts : list PyVal) (sizes : list Z) (runs : list PyVal) : Prop :=
  exists e ed editor res sr,
    engine_data psd o = Ok (Some (TDEngine (PDict e))) /\
    e !! "EngineDict" = Some (PDict ed) /\
    ed !! "Editor" = Some (PDict editor) /\
    editor !! "Text" = Some (PStr s) /\
    e !! "DocumentResources" = Some (PDict res) /\
    res !! "FontSet" = Some (PList fonts) /\
    ed !! "StyleRun" = Some (PDict sr) /\
    sr !! "RunLengthArray" = Some (PList (PInt <$> sizes)) /\
    sr !! "RunArray" = Some (PList runs).

(** The style sheet data of a run. *)
Definition run_stylesheet (run : PyVal) (sd : gmap string PyVal) : Prop :=
  exists d d',
    run = PDict d /\
    d !! "StyleSheet" = Some (PDict d') /\
    d' !! "StyleSheetData" = Some (PDict sd).

(** The font of a style sheet: the element of the font set at the index
    that the style sheet gives under ["Font"], at index 0 when it gives
    none. *)
Definition stylesheet_font (fonts : list PyVal) (sd : gmap string PyVal)
    (font : PyVal) : Prop :=
  exists fi,
    (sd !! "Font" = Some (PInt fi) \/ (sd !! "Font" = None /\ fi = 0)) /\
    0 <= fi /\ fonts !! Z.to_nat fi = Some font.

Definition well_formed_run (fonts : list PyVal) (run : PyVal) : Prop :=
  exists sd font, run_stylesheet run sd /\ stylesheet_font fonts sd font.

(** The record emitted for a run whose text starts at [offset] and has
    [size] characters: the style sheet data of the run with the slice of the
    text under ["Text"] and the font under ["Font"]. *)
Definition span_of_run (s : string) (fonts : list PyVal) (run : PyVal)
    (offset size : Z) (span : gmap string PyVal) : Prop :=
  exists sd font,
    run_stylesheet run sd /\ stylesheet_font fonts sd font /\
    span !! "Text" = Some (PStr (str_slice s offset (offset + size))) /\
    span !! "Font" = Some font /\
    (forall k, (k ≠ "Text") -> (k ≠ "Font") -> span !! k = sd !! k).

(** A type layer with the text "Hello world" in two runs: the first names
    the second font, the second names none. *)
Module TypeSample.
Import Sample.
Definition font (name : string) : PyVal :=
  PDict {["Name" := PStr name]}.
Definition fonts : list PyVal := [font "Arial"; font "Courier"].
Definition run (sd : gmap string PyVal) : PyVal :=
  PDict {["StyleSheet" := PDict {["StyleSheetData" := PDict sd]}]}.
Definition runs : list PyVal :=
  [run (<["Font" := PInt 1]> {["FontSize" := PInt 12]});
   run {["FontSize" := PInt 9]}].
Definition sizes : list Z := [6; 5].
Definition engine : PyVal :=
  PDict (<["EngineDict" :=
            PDict (<["Editor" := PDict {["Text" := PStr "Hello world"]}]>
                   {["StyleRun" :=
                       PDict (<["RunLengthArray" := PList (PInt <$> sizes)]>
                              {["RunArray" := PList runs]})]})]>
         {["DocumentResources" := PDict {["FontSet" := PList fonts]}]}).
Definition psd : PSDImage :=
  document 64 16
    [record (mkBBox 0 0 60 12) true BlendMode.NORMAL None
            [(TaggedBlock.TYPE_TOOL_OBJECT_SETTING,
              TypeToolObjectSetting
                [(TextProperty.TXT, TDVal (AStr "Hello world"));
                 ("EngineData", TDEngine engine)])]].
Definition layer : Obj := LayerObj TypeLayerC (Some 0%nat) root_obj.
End TypeSample.

(** A layer that the loop of [merge_layers] does not skip and for which the
    opacity and the blend mode can be read: its box is [layer_bbox] and is
    not empty in both directions, [skip_layer] does not exclude it, and it
    is visible unless visibility is not respected. *)
Definition is_drawn (psd : PSDImage) (respect_visibility : bool)
    (skip_layer : Layer -> bool) (layer : Layer)
    (layer_bbox : BBox Z) (opacity_ : Z) (blend_mode_ : string) : Prop :=
  Layer_bbox psd layer = Ok (Some layer_bbox) /\
  ~ (width layer_bbox = 0 /\ height layer_bbox = 0) /\
  skip_layer layer = false /\
  (exists v, visible psd (obj_of layer) = Ok v /\
             (v = true \/ respect_visibility = false)) /\
  opacity psd (obj_of layer) = Ok opacity_ /\
  blend_mode psd (obj_of layer) = Ok blend_mode_.

(** Layers for the compositor: a layer of zero width and positive height
    with a blend mode other than normal (index 0), a layer of positive width
    and zero height (index 1), a layer that hangs over the top and left
    edges of the canvas (index 2), a layer of 4 by 4 at the origin with a
    blend mode other than normal (index 3) and a layer whose box is empty
    in both directions (index 4). *)
Module MergeSample.
Import Sample.
Definition psd : PSDImage :=
  document 10 10
    [record (mkBBox 0 0 0 5) true "mul " None [];
     record (mkBBox 0 0 5 0) true BlendMode.NORMAL None [];
     record (mkBBox (-5) (-5) 5 5) true BlendMode.NORMAL None [];
     record (mkBBox 0 0 4 4) true "mul " None [];
     record (mkBBox 3 3 3 3) true BlendMode.NORMAL None []].
Definition pixel_layer (i : nat) : Layer :=
  mk_layer PixelLayerC root_obj (Some i) [] [].
Definition thin : Layer := pixel_layer 0.
Definition flat : Layer := pixel_layer 1.
Definition overhanging : Layer := pixel_layer 2.
Definition multiplied : Layer := pixel_layer 3.
Definition empty : Layer := pixel_layer 4.
Definition canvas : BBox Z := mkBBox 0 0 10 10.
Definition rgb : Raster := symbolic_raster (fun _ => "RGB").
Definition rgba : Raster := symbolic_raster (fun _ => "RGBA").
End MergeSample.

(* ===================================================================== *)
(** ** Further notions for the properties of the module *)
(* ===================================================================== *)

(** The smallest box that contains two boxes, either of which may be
    missing. *)
Definition bbox_join (a b : option (BBox Z)) : option (BBox Z) :=
  match a, b with
  | None, x => x
  | x, None => x
  | Some p, Some q =>
      Some (mkBBox (Z.min (x1 p) (x1 q)) (Z.min (y1 p) (y1 q))
                   (Z.max (x2 p) (x2 q)) (Z.max (y2 p) (y2 q)))
  end.

(** A group that holds a pixel layer and a nested group with one more pixel
    layer, between two pixel layers. *)
Module NestedSample.
Import Sample.
Definition psd : PSDImage :=
  document 20 20
    [record (mkBBox 0 0 4 4) true BlendMode.NORMAL None [];
     record (mkBBox 2 3 9 5) true BlendMode.NORMAL None [];
     record (mkBBox 6 1 7 12) false BlendMode.NORMAL None [];
     record (mkBBox 0 0 0 0) true BlendMode.NORMAL None [];
     record (mkBBox 0 0 0 0) false BlendMode.NORMAL None [];
     record (mkBBox 10 10 11 11) true BlendMode.NORMAL None []].
Definition outer_obj : Obj := LayerObj GroupC (Some 4%nat) root_obj.
Definition inner_obj : Obj := LayerObj GroupC (Some 3%nat) outer_obj.
Definition deep : Layer := mk_layer PixelLayerC inner_obj (Some 2%nat) [] [].
Definition inner : Layer := mk_layer GroupC outer_obj (Some 3%nat) [deep] [].
Definition side : Layer := mk_layer PixelLayerC outer_obj (Some 1%nat) [] [].
Definition outer : Layer := mk_layer GroupC root_obj (Some 4%nat) [side; inner] [].
Definition top : Layer := mk_layer PixelLayerC root_obj (Some 5%nat) [] [].
Definition bottom : Layer := mk_layer PixelLayerC root_obj (Some 0%nat) [] [].
Definition grouped : list LayerDesc :=
  [mk_desc 5 "pixel" [] [];
   mk_desc 4 "group"
     [mk_desc 1 "pixel" [] []; mk_desc 3 "group" [mk_desc 2 "pixel" [] []] []]
     [];
   mk_desc 0 "pixel" [] []].
Definition root : Layer :=
  mk_layer RootGroupC PSDImageObj None [top; outer; bottom] [].
End NestedSample.

(** The layers that are not groups, reached through the [layers] of groups
    at every depth, in stack order. *)
Fixpoint leaves (l : Layer) : list Layer :=
  match l with
  | mk_layer c _ _ layers _ =>
      if is_group c then flat_map leaves layers else [l]
  end.

(** [Group.as_PIL]: [merge_layers(self.layers, respect_visibility=True)]. *)
Definition Group_as_PIL {R : Raster} (psd : PSDImage) (group : Layer)
  : M (option Image) :=
  merge_layers psd true (fun _ => false) (layer_layers group) None.

(** [PSDImage.as_PIL_merged]: the layers of the root group merged into the
    box of the header. *)
Definition PSDImage_as_PIL_merged {R : Raster} (psd : PSDImage) (root : Layer)
  : M (option Image) :=
  let bbox := mkBBox 0 0 (header_width psd) (header_height psd) in
  merge_layers psd true (fun _ => false) (layer_layers root) (Some bbox).

(** A layer at which the loop of [merge_layers] takes one of its three
    [continue]s: it has a box, and the box is empty in both directions, or
    [skip_layer] excludes the layer, or the layer is hidden and visibility
    is respected. *)
Definition is_skipped (psd : PSDImage) (respect_visibility : bool)
    (skip_layer : Layer -> bool) (layer : Layer) : Prop :=
  exists b,
    Layer_bbox psd layer = Ok (Some b) /\
    ((width b = 0 /\ height b = 0) \/
     skip_layer layer = true \/
     (visible psd (obj_of layer) = Ok false /\ respect_visibility = true)).

(** What the size of an image is after the operations of the raster
    library that [merge_layers] applies to the canvas: a new image has the
    size asked for, and pasting and compositing keep the size of the image
    pasted or composited onto. *)
Definition raster_keeps_size (R : Raster) : Prop :=
  (forall mode size, image_size (Image_new mode size) = size) /\
  (forall dest src at_, image_size (image_paste dest src at_) = image_size dest) /\
  (forall dest src, image_size (alpha_composite dest src) = image_size dest).

(** A document whose top layer is a group without layers, above a pixel
    layer, and one with three hidden layers. *)
Module SkipSample.
Import Sample.
Definition psd : PSDImage :=
  document 10 10
    [record (mkBBox 0 0 4 4) true BlendMode.NORMAL None [];
     record (mkBBox 0 0 0 0) true BlendMode.NORMAL None [];
     record (mkBBox 1 1 3 3) false BlendMode.NORMAL None [];
     record (mkBBox 2 2 8 9) false "mul " None []].
Definition pixels : Layer := mk_layer PixelLayerC root_obj (Some 0%nat) [] [].
Definition hollow : Layer := mk_layer GroupC root_obj (Some 1%nat) [] [].
Definition hidden1 : Layer := mk_layer PixelLayerC root_obj (Some 2%nat) [] [].
Definition hidden2 : Layer := mk_layer PixelLayerC root_obj (Some 3%nat) [] [].
Definition root : Layer :=
  mk_layer RootGroupC PSDImageObj None [hollow; pixels] [].
End SkipSample.

Definition layer_parent (l : Layer) : Obj :=
  match l with mk_layer _ p _ _ _ => p end.
Definition layer_index (l : Layer) : option nat :=
  match l with mk_layer _ _ i _ _ => i end.
Definition desc_index (d : LayerDesc) : nat :=
  match d with mk_desc i _ _ _ => i end.

(** The records of a description that the walk of [fill_group] reaches,
    each as its index and kind tag, in the order of the walk: a record, then
    (for a group) the records of its ['layers'], each followed by its own
    ['clip_layers']. The ['layers'] of a record that is not a group are not
    reached, nor are the ['clip_layers'] of a clip record. *)
Fixpoint desc_walk (d : LayerDesc) : list (option nat * string) :=
  match d with
  | mk_desc index kind layers _ =>
      (Some index, kind)
      :: (if String.eqb kind "group"
          then flat_map (fun x => desc_walk x
                                  ++ flat_map desc_walk (desc_clip_layers x))
                        layers
          else [])
  end.

(** The walk of a record that is an element of ['layers']. *)
Definition desc_walk_child (d : LayerDesc) : list (option nat * string) :=
  desc_walk d ++ flat_map desc_walk (desc_clip_layers d).

(** The layers of a tree, each as its index and kind. *)
Definition tree_tags (l : Layer) : list (option nat * string) :=
  map (fun x => (layer_index x, kind x)) (tree_layers l).

(** Every clip layer in the tree of [l] has the parent of the layer it is
    attached to, and has no clip layers of its own. *)
Definition clips_well_placed (l : Layer) : Prop :=
  Forall (fun x =>
            Forall (fun c => layer_parent c = layer_parent x /\
                             layer_clip_layers c = [])
                   (layer_clip_layers x))
         (tree_layers l).

(** What [make_layer(group, d)] returns when it returns. *)
Definition built_from (group : Obj) (d : LayerDesc) (l : Layer) : Prop :=
  layer_parent l = group /\
  layer_index l = Some (desc_index d) /\
  layer_clip_layers l = [] /\
  tree_tags l = desc_walk d /\
  clips_well_placed l.

(** The kind tags whose constructors do not read the document. *)
Definition plain_kinds : list string :=
  ["group"; "adjustment"; "shape"; "pixel"].

(** Every record that the walk reaches has a plain kind tag. *)
Definition visited_plain (grouped : list LayerDesc) : Prop :=
  Forall (fun t => t.2 ∈ plain_kinds) (flat_map desc_walk_child grouped).

(** A description with a clip record that itself lists a clip record, and
    a pixel record that lists ['layers']. *)
Module ClipSample.
Import Sample.
Definition psd : PSDImage := document 4 4 [].
Definition grouped : list LayerDesc :=
  [mk_desc 7 "pixel" [mk_desc 9 "pixel" [] []]
     [mk_desc 6 "shape" [] [mk_desc 5 "pixel" [] []]];
   mk_desc 4 "group" [mk_desc 3 "adjustment" [] [mk_desc 2 "pixel" [] []]] []].
Definition root : Layer :=
  mk_layer RootGroupC PSDImageObj None
    [mk_layer PixelLayerC root_obj (Some 7%nat) []
       [mk_layer ShapeLayerC root_obj (Some 6%nat) [] []];
     mk_layer GroupC root_obj (Some 4%nat)
       [mk_layer AdjustmentLayerC (LayerObj GroupC (Some 4%nat) root_obj)
          (Some 3%nat) []
          [mk_layer PixelLayerC (LayerObj GroupC (Some 4%nat) root_obj)
             (Some 2%nat) [] []]]
       []]
    [].
End ClipSample.

(** The indices of a layer and of the groups above it, up to the root
    group. *)
Fixpoint chain_indices (o : Obj) : list nat :=
  match o with
  | PSDImageObj => []
  | LayerObj RootGroupC _ _ => []
  | LayerObj _ (Some i) p => i :: chain_indices p
  | LayerObj _ None p => chain_indices p
  end.

(** The visibility flag of the record at an index; false when there is no
    such record. *)
Definition flag_visible (psd : PSDImage) (i : nat) : bool :=
  match layer_records psd !! i with
  | Some r => info_visible r
  | None => false
  end.

(** A description with a type record, for a document whose records carry
    no tagged block. *)
Module TypeRecordSample.
Import Sample.
Definition grouped : list LayerDesc :=
  [mk_desc 1 "pixel" [] []; mk_desc 0 "type" [] []].
End TypeRecordSample.

(** Smart object layers with a full placed layer block: one whose identifier
    names two linked layers, one whose identifier names none, and one whose
    transform has five entries only. *)
Module SmartLinkSample.
Import Sample.
Definition num (n : Z) : DValue := DVal (ANum (inject_Z n)).
Definition placed (id : string) (corners : list Z) : BlockData :=
  PlacedLayer
    [(PlacedLayerProperty.ID, DVal (AStr id));
     (PlacedLayerProperty.TRANSFORM, DList (num <$> corners));
     (PlacedLayerProperty.SIZE,
      DObj [(SzProperty.WIDTH, num 30); (SzProperty.HEIGHT, num 40)])].
Definition psd : PSDImage :=
  mkPSDImage 64 64
    [record (mkBBox 0 0 8 8) true BlendMode.NORMAL None
            [(TaggedBlock.SMART_OBJECT_PLACED_LAYER_DATA,
              placed "a" [1; 2; 9; 2; 9; 7; 1; 7])];
     record (mkBBox 0 0 8 8) true BlendMode.NORMAL None
            [(TaggedBlock.PLACED_LAYER_DATA,
              placed "missing" [1; 2; 9; 2; 9; 7; 1; 7])];
     record (mkBBox 0 0 8 8) true BlendMode.NORMAL None
            [(TaggedBlock.SMART_OBJECT_PLACED_LAYER_DATA,
              placed "b" [1; 2; 9; 2; 9])]]
    [mkLinkedLayer "a" "first.png";
     mkLinkedLayer "b" "other.png";
     mkLinkedLayer "a" "second.png"].
Definition short_atoms : list Atom :=
  (fun n => ANum (inject_Z n)) <$> [1; 2; 9; 2; 9].
Definition linked : Obj := LayerObj SmartObjectLayerC (Some 0%nat) root_obj.
Definition broken : Obj := LayerObj SmartObjectLayerC (Some 1%nat) root_obj.
Definition short : Obj := LayerObj SmartObjectLayerC (Some 2%nat) root_obj.
End SmartLinkSample.

(** The text of a record that [style_spans] returns: the string under
    ["Text"]; and the texts of a list of records put end to end. *)
Definition span_text (span : gmap string PyVal) : string :=
  match span !! "Text" with
  | Some (PStr t) => t
  | _ => ""
  end.
Definition spans_text (spans : list (gmap string PyVal)) : string :=
  foldr String.append "" (span_text <$> spans).

(** A run whose style sheet data is present and whose font index, the one
    given or 0, names an element of the font set: an index from [-len] to
    [-1] counts from the end of the font set. *)
Definition run_font_in_range (fonts : list PyVal) (run : PyVal) : Prop :=
  exists sd fi,
    run_stylesheet run sd /\
    (sd !! "Font" = Some (PInt fi) \/ (sd !! "Font" = None /\ fi = 0)) /\
    - Z.of_nat (length fonts) <= fi < Z.of_nat (length fonts).

(** A type layer with three runs: the first names the last font of the
    font set by the index -1, the second names none, and the third names
    the font at index 2, beyond the end of a font set of two. *)
Module FontSample.
Import Sample.
Definition runs : list PyVal :=
  [TypeSample.run {["Font" := PInt (-1)]};
   TypeSample.run {["FontSize" := PInt 9]};
   TypeSample.run {["Font" := PInt 2]}].
Definition sizes : list Z := [6; 4; 1].
Definition engine (fonts : list PyVal) : PyVal :=
  PDict (<["EngineDict" :=
            PDict (<["Editor" := PDict {["Text" := PStr "Hello world"]}]>
                   {["StyleRun" :=
                       PDict (<["RunLengthArray" := PList (PInt <$> sizes)]>
                              {["RunArray" := PList runs]})]})]>
         {["DocumentResources" := PDict {["FontSet" := PList fonts]}]}).
Definition psd (fonts : list PyVal) : PSDImage :=
  document 64 16
    [record (mkBBox 0 0 60 12) true BlendMode.NORMAL None
            [(TaggedBlock.TYPE_TOOL_OBJECT_SETTING,
              TypeToolObjectSetting
                [(TextProperty.TXT, TDVal (AStr "Hello world"));
                 ("EngineData", TDEngine (engine fonts))])]].
Definition layer : Obj := LayerObj TypeLayerC (Some 0%nat) root_obj.
End FontSample.


(* ===================================================================== *)
(** ** Printing the tree *)
(* ===================================================================== *)

(** ["%d" % n] *)
Definition py_decimal (n : Z) : string :=
  NilZero.string_of_int (Z.to_int n).

(** [PSDImage.__repr__], with [layers] the list [self.layers]. *)
Definition PSDImage_repr (psd : PSDImage) (layers : list Layer) : string :=
  ("<PSDImage: size=" ++ py_decimal (header_width psd)
   ++ "x" ++ py_decimal (header_height psd)
   ++ ", layer_count=" ++ py_decimal (Z.of_nat (length layers)) ++ ">")%string.

(** [' ' * n]: empty when [n] is not positive. *)
Fixpoint spaces (n : nat) : string :=
  match n with
  | O => ""
  | S n' => (" " ++ spaces n')%string
  end.
Definition py_spaces (n : Z) : string := spaces (Z.to_nat n).

(** One call of [print]: the text and the keyword arguments it is given. *)
Record PrintCall : Type := mkPrintCall {
  printed_text : string;
  printed_kwargs : gmap string PyVal
}.

(** How a call of [print_tree] ends: it returns, an exception of the module
    leaves it, or the nesting of calls exceeds the recursion limit of the
    interpreter (RecursionError). *)
Inductive print_outcome : Type :=
| Returned
| Failed (e : exn)
| TooDeep.

(** What a piece of [print_tree] does: the calls of [print] made, in order,
    and how it ends. *)
Definition Printed : Type := list PrintCall * print_outcome.

(** [a] and then [b]; [b] is not run when [a] does not return. *)
Definition and_then (a b : Printed) : Printed :=
  match a.2 with
  | Returned => (a.1 ++ b.1, b.2)
  | _ => a
  end.

(** [print(((' ' * indent) + prefix + "{}").format(x), **kwargs)], where
    [text] is what formatting [x] gives. *)
Definition print_line (indent : Z) (prefix : string) (text : result string)
    (kwargs : gmap string PyVal) : Printed :=
  match text with
  | Ok s => ([mkPrintCall (py_spaces indent ++ prefix ++ s)%string kwargs],
             Returned)
  | Raise e => ([], Failed e)
  end.

Section PrintTree.
(** What formatting a layer gives: [__repr__] of the layer classes reads
    the name, the mask and the effects of the layer. *)
Variable repr : Layer -> result string.
Variable psd : PSDImage.
(** [self.layers] *)
Variable self_layers : list Layer.

(** [for clip in l.clip_layers: print(... "/{}" ...)] *)
Fixpoint print_clips (indent : Z) (kwargs : gmap string PyVal)
    (clips : list Layer) : Printed :=
  match clips with
  | [] => ([], Returned)
  | clip :: rest =>
      and_then (print_line indent "/" (repr clip) kwargs)
               (print_clips indent kwargs rest)
  end.

(** The body of [for l in layers], with [rec layers indent] the call
    [self.print_tree(l.layers, indent + indent_width)]. *)
Definition print_layer (rec : list Layer -> Z -> Printed)
    (indent indent_width : Z) (kwargs : gmap string PyVal) (l : Layer)
  : Printed :=
  and_then (print_clips indent kwargs (layer_clip_layers l))
    (and_then (print_line indent "" (repr l) kwargs)
       (if is_group (layer_cls l)
        then rec (layer_layers l) (indent + indent_width)
        else ([], Returned))).

Fixpoint print_layers (rec : list Layer -> Z -> Printed)
    (indent indent_width : Z) (kwargs : gmap string PyVal)
    (layers : list Layer) : Printed :=
  match layers with
  | [] => ([], Returned)
  | l :: rest =>
      and_then (print_layer rec indent indent_width kwargs l)
               (print_layers rec indent indent_width kwargs rest)
  end.

(** [not layers]: true for [None] and for the empty list. *)
Definition layers_falsy (layers : option (list Layer)) : bool :=
  match layers with
  | None | Some [] => true
  | Some (_ :: _) => false
  end.

(** [PSDImage.print_tree(layers, indent, indent_width, **kwargs)], with at
    most [depth] nested calls: the call within the loop passes neither
    [indent_width] nor the keyword arguments on. *)
Fixpoint print_tree (depth : nat) (layers : option (list Layer))
    (indent indent_width : Z) (kwargs : gmap string PyVal) : Printed :=
  match depth with
  | O => ([], TooDeep)
  | S depth' =>
      let rec := fun ls ind => print_tree depth' (Some ls) ind 2 ∅ in
      if layers_falsy layers then
        and_then
          (print_line indent "" (Ok (PSDImage_repr psd self_layers)) kwargs)
          (print_layers rec (indent + indent_width) indent_width kwargs
                        self_layers)
      else
        print_layers rec indent indent_width kwargs (default [] layers)
  end.

(** The lines for a layer and what lies below it: its clip layers, the
    layer, and for a group the layers it holds, further in by the width
    given and, below that, by 2, and without keyword arguments. *)
Definition repr_text (l : Layer) : string :=
  match repr l with
  | Ok s => s
  | Raise _ => ""
  end.
Definition line_of (indent : Z) (prefix : string)
    (kwargs : gmap string PyVal) (l : Layer) : PrintCall :=
  mkPrintCall (py_spaces indent ++ prefix ++ repr_text l)%string kwargs.
Fixpoint listing (indent indent_width : Z) (kwargs : gmap string PyVal)
    (l : Layer) : list PrintCall :=
  match l with
  | mk_layer cls _ _ layers clips =>
      (line_of indent "/" kwargs <$> clips)
      ++ line_of indent "" kwargs l
      :: (if is_group cls
          then flat_map (listing (indent + indent_width) 2 ∅) layers
          else [])
  end.
End PrintTree.

(** A group that holds no layers, at any depth below the layer, reached
    through the layers of groups. *)
Fixpoint has_hollow_group (l : Layer) : bool :=
  match l with
  | mk_layer cls _ _ layers _ =>
      is_group cls
      && match layers with
         | [] => true
         | _ :: _ => existsb has_hollow_group layers
         end
  end.

(** How deep the groups of a layer nest: 0 for a layer that is not a
    group. *)
Fixpoint nesting (l : Layer) : nat :=
  match l with
  | mk_layer cls _ _ layers _ =>
      if is_group cls then S (foldr Nat.max 0%nat (nesting <$> layers))
      else 0%nat
  end.
Definition max_nesting (layers : list Layer) : nat :=
  foldr Nat.max 0%nat (nesting <$> layers).

(** For the samples, a layer is formatted as its kind. *)
Definition kind_repr (l : Layer) : result string := Ok (kind l).

(** Two shape layers whose pixel data is irrelevant and whose literal box is
    (0,0,0,0), with the path of [FractionSample]: the first has a solid
    colour sheet with the components 255.0, 127.5 and 0.0, the second has
    none. *)
Module PolygonSample.
Import Sample.
Definition f255 : spec_float := S754_finite false 8972014882652160 (-45).
Definition f127_5 : spec_float := S754_finite false 8972014882652160 (-46).
Definition sheet : BlockData :=
  SolidColorSheet
    [("Clr ", mkColorData "RGBC"
                [("Rd  ", f255); ("Grn ", f127_5); ("Bl  ", S754_zero false)])].
Definition shape_record (blocks : list (string * BlockData)) : LayerRecord :=
  mkLayerRecord "shape" true 200 BlendMode.NORMAL 0 0 0 0 None
    ((TaggedBlock.VECTOR_MASK_SETTING1, VectorMask FractionSample.path)
     :: blocks)
    true.
Definition psd : PSDImage :=
  document 10 20
    [shape_record [(TaggedBlock.SOLID_COLOR_SHEET_SETTING, sheet)];
     shape_record []].
Definition coloured : Layer := mk_layer ShapeLayerC root_obj (Some 0%nat) [] [].
Definition plain : Layer := mk_layer ShapeLayerC root_obj (Some 1%nat) [] [].
End PolygonSample.

(** The dyadic number [n * 2 ^ e] does not exceed the integer [W], in
    integers whatever the sign of [e]. *)
Definition dle (n e W : Z) : Prop :=
  (0 <= e -> n * 2 ^ e <= W) /\ (e < 0 -> n <= W * 2 ^ (- e)).

(** A float between 0 and 1: it denotes a rational in this range. A path
    record whose anchor lies in the unit square, and a point that lies
    within the document. *)
Definition unit_fraction (x : spec_float) : Prop :=
  exists q, float_value x = Some q /\ (0 <= q)%Q /\ (q <= 1)%Q.
Definition in_unit_square (p : PathRecord) : Prop :=
  exists v h, anchor p = Some (v, h) /\ unit_fraction v /\ unit_fraction h.
Definition inside_document (psd : PSDImage) (pt : Z * Z) : Prop :=
  0 <= pt.1 <= header_width psd /\ 0 <= pt.2 <= header_height psd.

(* ===================================================================== *)
(** * Properties *)
(* ===================================================================== *)

(** ** Computations *)

Section Computations.
Context {A B : Type}.

Lemma result_bind_Ok (a : A) (f : A -> result B) : Ok a ≫= f = f a.
Proof. reflexivity. Qed.

Lemma result_bind_Ok_inv (m : result A) (f : A -> result B) (b : B) :
  m ≫= f = Ok b -> exists a, m = Ok a /\ f a = Ok b.
Proof. destruct m as [a|e]; simpl; [eauto | discriminate]. Qed.

Lemma M_bind_unfold (m : M A) (f : A -> M B) :
  m ≫= f = match m.2 with
            | Ok a => (m.1 ++ (f a).1, (f a).2)
            | Raise e => (m.1, Raise e)
            end.
Proof. reflexivity. Qed.

Lemma M_bind_Ok (l : list LogRecord) (a : A) (f : A -> M B) :
  (l, Ok a) ≫= f = (l ++ (f a).1, (f a).2).
Proof. reflexivity. Qed.

Lemma M_bind_Raise (l : list LogRecord) (e : exn) (f : A -> M B) :
  (l, @Raise A e) ≫= f = (l, Raise e).
Proof. reflexivity. Qed.

Lemma M_bind_lift_Ok (a : A) (f : A -> M B) : lift (Ok a) ≫= f = f a.
Proof. rewrite M_bind_unfold; simpl. by destruct (f a). Qed.

Lemma M_bind_Ok_inv (m : M A) (f : A -> M B) (log : list LogRecord) (b : B) :
  m ≫= f = (log, Ok b) ->
  exists a l1 l2, m = (l1, Ok a) /\ f a = (l2, Ok b) /\ log = l1 ++ l2.
Proof.
  rewrite M_bind_unfold. destruct m as [l1 [a|e]]; simpl; [|discriminate].
  destruct (f a) as [l2 r] eqn:Hf; simpl. intros [= <- ->]. eauto 6.
Qed.
End Computations.

Lemma M_bind_ret_r {A} (m : M A) : m ≫= mret = m.
Proof.
  rewrite M_bind_unfold. destruct m as [l [a|e]]; simpl; [|done].
  by rewrite app_nil_r.
Qed.

(** ** Masks *)

(** [self._index] is false at position 0 whatever the record holds. *)
Lemma has_mask_index_0 psd c p : has_mask psd (LayerObj c (Some 0%nat) p) = Ok false.
Proof. reflexivity. Qed.

(** At any other position of an existing record, [has_mask] tells whether
    the record carries a mask. *)
Lemma has_mask_index_S psd c p n info :
  layer_records psd !! S n = Some info ->
  has_mask psd (LayerObj c (Some (S n)) p)
  = Ok (bool_decide (is_Some (info_mask_data info))).
Proof.
  intros H. simpl. rewrite H. simpl. f_equal.
  destruct (info_mask_data info); [|by rewrite bool_decide_eq_false_2; [|intros [? ?]]].
  by rewrite bool_decide_eq_true_2.
Qed.

(** C9, at the failing input: the document has one pixel layer, at index 0,
    and its record carries a mask. The tree holds the layer as a child of
    the root group, yet [has_mask] answers false and [mask] is [None]. *)
Theorem mask_at_index_zero_is_none :
  PSDImage_init MaskSample.psd MaskSample.grouped
    = ([], Ok (mk_layer RootGroupC PSDImageObj None [MaskSample.background] []))
  /\ (info_mask_data <$> layer_records MaskSample.psd !! 0%nat)
     = Some (Some MaskSample.the_mask)
  /\ has_mask MaskSample.psd (obj_of MaskSample.background) = Ok false
  /\ mask MaskSample.psd (obj_of MaskSample.background) = Ok None.
Proof. repeat split; reflexivity. Qed.

(** ** Tree assembly *)

Lemma LayerDesc_nested_ind (P : LayerDesc -> Prop) :
  (forall i k ls cs, Forall P ls -> Forall P cs -> P (mk_desc i k ls cs)) ->
  forall d, P d.
Proof.
  intros H. fix IH 1. intros [i k ls cs]. apply H.
  - induction ls as [|x xs IHxs]; constructor; [apply IH | apply IHxs].
  - induction cs as [|x xs IHxs]; constructor; [apply IH | apply IHxs].
Qed.

Lemma mapM_log_Ok_inv {A B} (f : A -> M B) xs log ys :
  mapM_log f xs = (log, Ok ys) ->
  Forall2 (fun x y => exists l, f x = (l, Ok y)) xs ys.
Proof.
  revert log ys. induction xs as [|x xs IH]; intros log ys; simpl.
  - intros [= <- <-]. constructor.
  - intros H.
    apply M_bind_Ok_inv in H as (y & l1 & l2 & Hy & H & ->).
    apply M_bind_Ok_inv in H as (ys' & l3 & l4 & Hys & H & ->).
    injection H as <- <-. constructor; eauto.
Qed.

Lemma fill_group_with_Ok_inv mk group ds log ls :
  fill_group_with mk group ds = (log, Ok ls) ->
  Forall2 (fun d l => exists child clips l1,
             mk group d = (l1, Ok child) /\
             Forall2 (fun x y => exists l2, mk group x = (l2, Ok y))
                     (desc_clip_layers d) clips /\
             l = append_clip_layers child clips) ds ls.
Proof.
  revert log ls. induction ds as [|d ds IH]; intros log ls; simpl.
  - intros [= <- <-]. constructor.
  - intros H.
    apply M_bind_Ok_inv in H as (child & l1 & l2 & Hchild & H & ->).
    apply M_bind_Ok_inv in H as (clips & l3 & l4 & Hclips & H & ->).
    apply M_bind_Ok_inv in H as (children & l5 & l6 & Hrest & H & ->).
    injection H as <- <-. constructor; [|eauto].
    exists child, clips, l1. split_and!; [done| |done].
    by eapply mapM_log_Ok_inv.
Qed.

(** A record of a kind that [make_layer] does not know is diagnosed, and
    then the unbound [child] is returned. *)
Lemma make_layer_unknown_kind psd group index kind ls cs :
  kind ∉ known_kinds ->
  make_layer psd group (mk_desc index kind ls cs)
  = ([critical_unknown_layer_type kind], Raise UnboundLocalError).
Proof.
  intros Hk. unfold known_kinds in Hk.
  assert (forall s, s ∈ known_kinds -> String.eqb kind s = false) as Hne.
  { intros s Hs. apply String.eqb_neq. intros ->. done. }
  simpl. rewrite !Hne; [done | unfold known_kinds; set_solver ..].
Qed.

(** With such a record among the layers of a group, [fill_group] does not
    return. *)
Lemma fill_group_unknown_kind psd group data d :
  d ∈ data -> desc_kind d ∉ known_kinds ->
  forall log ls, fill_group psd group data <> (log, Ok ls).
Proof.
  intros Hin Hk log ls H. unfold fill_group in H.
  apply fill_group_with_Ok_inv in H.
  apply list_elem_of_lookup in Hin as [n Hn].
  destruct (Forall2_lookup_l _ _ _ _ _ H Hn) as (l & _ & child & clips & l1 & Hmk & _).
  destruct d as [i k sub cs]. simpl in Hk.
  rewrite (make_layer_unknown_kind _ _ _ _ _ _ Hk) in Hmk. discriminate.
Qed.

(** C1, at the failing input: the second record of the description has the
    kind tag ["artboard"]. [make_layer] logs the unknown kind and then
    raises UnboundLocalError, which ends [PSDImage.__init__]: no tree is
    built, the pixel layer before the record included. *)
Theorem unknown_kind_aborts_assembly :
  ("artboard" ∉ known_kinds)
  /\ PSDImage_init UnknownKindSample.psd UnknownKindSample.grouped
     = ([critical_unknown_layer_type "artboard"], Raise UnboundLocalError).
Proof.
  split; [|reflexivity].
  refine (bool_decide_unpack _ _). vm_compute. exact I.
Qed.

(** ** Visibility along the parent chain *)

Lemma rooted_visible_global psd o :
  rooted psd o -> exists g, visible_global psd o = Ok g.
Proof.
  induction 1 as [i p | c i p r Hc Hr Hp [g IH]].
  - by exists true.
  - destruct (info_visible r) eqn:Hv.
    + exists g. destruct c; try done; simpl; rewrite Hr; simpl; by rewrite Hv.
    + exists false. destruct c; try done; simpl; rewrite Hr; simpl; by rewrite Hv.
Qed.

(** The equation of [visible_global] at a layer that is not the root group
    and whose parent chain reaches the root group. *)
Lemma rooted_visible_global_step psd c i p :
  c ≠ RootGroupC ->
  rooted psd (LayerObj c i p) ->
  exists v g,
    visible psd (LayerObj c i p) = Ok v /\
    visible_global psd p = Ok g /\
    visible_global psd (LayerObj c i p) = Ok (v && g).
Proof.
  intros Hc Hr. inversion Hr as [|c' i' p' r _ Hrec Hp]; subst; [done|].
  destruct (rooted_visible_global _ _ Hp) as [g Hg].
  exists (info_visible r), g.
  destruct c; try done; simpl; rewrite Hrec; simpl;
    (split_and!; [done | done |]); by destruct (info_visible r).
Qed.

Lemma tree_layers_append_clip_layers psd child clips :
  built_rooted psd child ->
  Forall (built_rooted psd) clips ->
  built_rooted psd (append_clip_layers child clips).
Proof.
  unfold built_rooted. destruct child as [c p i ls cs]; simpl.
  intros Hchild Hclips.
  apply Forall_cons in Hchild as [Hhd Htl].
  apply Forall_app in Htl as [Hls Hcs].
  apply Forall_cons; split; [done|].
  apply Forall_app; split; [done|].
  rewrite flat_map_app. apply Forall_app; split; [done|].
  apply Forall_flat_map. eapply Forall_impl; [exact Hclips|]. done.
Qed.

Lemma make_layer_built_rooted psd d :
  (forall group log l,
     rooted psd group ->
     Forall (fun i => (i < length (layer_records psd))%nat) (desc_indices d) ->
     make_layer psd group d = (log, Ok l) ->
     built_rooted psd l) /\
  Forall (fun clip => forall group log l,
     rooted psd group ->
     Forall (fun i => (i < length (layer_records psd))%nat) (desc_indices clip) ->
     make_layer psd group clip = (log, Ok l) ->
     built_rooted psd l) (desc_clip_layers d).
Proof.
  induction d as [index kind ls cs IHls IHcs] using LayerDesc_nested_ind.
  split; [|simpl; eapply Forall_impl; [exact IHcs|]; by intros ? [? _]].
  intros group log l Hgroup Hrange Hmk.
  simpl in Hrange. apply Forall_cons in Hrange as [Hindex Hrange].
  apply Forall_app in Hrange as [Hrange _].
  apply lookup_lt_is_Some in Hindex as [r Hr].
  assert (forall c, c ≠ RootGroupC ->
            rooted psd (LayerObj c (Some index) group)) as Hself.
  { intros c Hc. by eapply rooted_child. }
  assert (forall c, c ≠ RootGroupC ->
            built_rooted psd (mk_layer c group (Some index) [] [])) as Hleaf.
  { intros c Hc. unfold built_rooted; simpl.
    apply Forall_singleton. split; [by apply Hself | done]. }
  simpl in Hmk.
  repeat (match type of Hmk with
          | context [String.eqb kind ?s] => destruct (String.eqb kind s)
          end);
    try (apply M_bind_Ok_inv in Hmk as (? & ? & ? & ? & Hmk & _));
    try (injection Hmk as <- <-; by apply Hleaf);
    try discriminate.
  (* a group: the layers made by [fill_group] *)
  clear Hleaf.
  match goal with H : fill_group_with _ _ _ = _ |- _ => rename H into Hfill end.
  injection Hmk as _ <-.
  apply fill_group_with_Ok_inv in Hfill.
  unfold built_rooted; simpl. rewrite app_nil_r.
  apply Forall_cons; split; [split; [by apply Hself | done]|].
  apply Forall_flat_map.
  revert Hrange IHls. induction Hfill as [|d l ds ls' Hd Hfill IH];
    intros Hrange IHls; [constructor|].
  simpl in Hrange. apply Forall_app in Hrange as [Hd_range Hds_range].
  apply Forall_cons in IHls as [[IHd IHclips] IHds].
  constructor; [|by apply IH].
  destruct Hd as (child & clips & l1 & Hchild & Hclips & ->).
  apply tree_layers_append_clip_layers.
  - eapply IHd; [| |exact Hchild]; [by apply Hself | done].
  - assert (Forall (fun i => (i < length (layer_records psd))%nat)
                   (flat_map desc_indices (desc_clip_layers d))) as Hcr.
    { destruct d as [i k sub dcs]. simpl in *.
      apply Forall_cons in Hd_range as [_ Hd_range].
      by apply Forall_app in Hd_range as [_ ?]. }
    clear Hchild. revert Hcr IHclips.
    induction Hclips as [|x y xs ys (l2 & Hxy) _ IHc]; intros Hcr IHclips;
      [constructor|].
    simpl in Hcr. apply Forall_app in Hcr as [Hx Hxs].
    apply Forall_cons in IHclips as [IHx IHxs].
    constructor; [|by apply IHc].
    eapply IHx; [| |exact Hxy]; [by apply Hself | done].
Qed.

Lemma PSDImage_init_built psd grouped log root :
  PSDImage_init psd grouped = (log, Ok root) ->
  desc_in_range psd grouped ->
  exists layers,
    root = mk_layer RootGroupC PSDImageObj None layers [] /\
    Forall (built_rooted psd) layers.
Proof.
  unfold PSDImage_init, fill_group, desc_in_range. intros H Hrange.
  apply M_bind_Ok_inv in H as (layers & l1 & l2 & Hfill & H & ->).
  injection H as _ <-. exists layers. split; [done|].
  apply fill_group_with_Ok_inv in Hfill.
  revert Hrange. induction Hfill as [|d l ds ls Hd _ IH]; intros Hrange;
    [constructor|].
  simpl in Hrange. apply Forall_app in Hrange as [Hd_range Hds_range].
  constructor; [|by apply IH].
  destruct Hd as (child & clips & l1' & Hchild & Hclips & ->).
  destruct (make_layer_built_rooted psd d) as [Hmk Hmk_clips].
  apply tree_layers_append_clip_layers.
  - eapply Hmk; [| |exact Hchild]; [apply rooted_root | done].
  - assert (Forall (fun i => (i < length (layer_records psd))%nat)
                   (flat_map desc_indices (desc_clip_layers d))) as Hcr.
    { destruct d as [i k sub dcs]. simpl in *.
      apply Forall_cons in Hd_range as [_ Hd_range].
      by apply Forall_app in Hd_range as [_ ?]. }
    clear Hchild. revert Hcr Hmk_clips.
    induction Hclips as [|x y xs ys (l2' & Hxy) _ IHc]; intros Hcr Hmk_clips;
      [constructor|].
    simpl in Hcr. apply Forall_app in Hcr as [Hx Hxs].
    apply Forall_cons in Hmk_clips as [IHx IHxs].
    constructor; [|by apply IHc].
    eapply IHx; [| |exact Hxy]; [apply rooted_root | done].
Qed.

(** C5: in the tree that [PSDImage.__init__] builds from a description whose
    indices denote layer records, [visible_global] of the root group is
    true, and for every other layer [L] of the tree, clip layers included,
    [visible(L)] and [visible_global(parent(L))] have a value and
    [visible_global(L)] is their conjunction: the walk up the parent chain
    ends at the root group. *)
Theorem visible_global_in_tree psd grouped log root L :
  PSDImage_init psd grouped = (log, Ok root) ->
  desc_in_range psd grouped ->
  L ∈ tree_layers root ->
  visible_global psd (obj_of root) = Ok true /\
  (L = root \/
   exists p v g,
     parent (obj_of L) = Ok p /\
     visible psd (obj_of L) = Ok v /\
     visible_global psd p = Ok g /\
     visible_global psd (obj_of L) = Ok (v && g)).
Proof.
  intros Hinit Hrange HL.
  destruct (PSDImage_init_built _ _ _ _ Hinit Hrange) as (layers & -> & Hbuilt).
  split; [done|].
  simpl in HL. rewrite app_nil_r in HL.
  apply elem_of_cons in HL as [->|HL]; [by left | right].
  apply list_elem_of_In, in_flat_map in HL as (child & Hchild & HL).
  apply list_elem_of_In in Hchild, HL.
  rewrite Forall_forall in Hbuilt. specialize (Hbuilt _ Hchild).
  unfold built_rooted in Hbuilt. rewrite Forall_forall in Hbuilt.
  destruct (Hbuilt _ HL) as [Hrooted Hcls].
  destruct L as [c p i ls cs]. simpl in *.
  destruct (rooted_visible_global_step _ _ _ _ Hcls Hrooted) as (v & g & Hv & Hg & Hvg).
  exists p, v, g. done.
Qed.

Lemma visible_global_in_tree_witness :
  visible_global VisibilitySample.psd (obj_of VisibilitySample.root) = Ok true /\
  (VisibilitySample.clip = VisibilitySample.root \/
   exists p v g,
     parent (obj_of VisibilitySample.clip) = Ok p /\
     visible VisibilitySample.psd (obj_of VisibilitySample.clip) = Ok v /\
     visible_global VisibilitySample.psd p = Ok g /\
     visible_global VisibilitySample.psd (obj_of VisibilitySample.clip)
     = Ok (v && g)).
Proof.
  apply (visible_global_in_tree VisibilitySample.psd VisibilitySample.grouped
           [] VisibilitySample.root VisibilitySample.clip).
  - reflexivity.
  - unfold desc_in_range. simpl. repeat constructor.
  - simpl. do 3 apply list_elem_of_further. apply list_elem_of_here.
Defined.

(** In the sample the parent of the clip layer is the group, not the hidden
    layer it is clipped to: the clip layer is globally visible, the layer it
    is clipped to is not. *)
Example visible_global_sample :
  visible VisibilitySample.psd (obj_of VisibilitySample.clip) = Ok true /\
  visible_global VisibilitySample.psd (obj_of VisibilitySample.clip) = Ok true /\
  visible_global VisibilitySample.psd (obj_of VisibilitySample.hidden) = Ok false.
Proof. repeat split; reflexivity. Qed.

(** ** Bounding boxes *)

Lemma foldl_min_spec x xs :
  (forall y, y ∈ x :: xs -> foldl Z.min x xs <= y) /\ foldl Z.min x xs ∈ x :: xs.
Proof.
  revert x. induction xs as [|z zs IH]; intros x; simpl.
  - split; [|apply list_elem_of_here].
    intros y ->%list_elem_of_singleton. lia.
  - destruct (IH (Z.min x z)) as [Hle Hin]. split.
    + intros y Hy.
      assert (foldl Z.min (Z.min x z) zs <= Z.min x z) as H0
        by (apply Hle, list_elem_of_here).
      apply elem_of_cons in Hy as [->|Hy]; [lia|].
      apply elem_of_cons in Hy as [->|Hy]; [lia|].
      apply Hle. by apply list_elem_of_further.
    + apply elem_of_cons in Hin as [Heq|Hin].
      * rewrite Heq. destruct (Z.min_spec x z) as [[_ ->]|[_ ->]].
        -- apply list_elem_of_here.
        -- apply list_elem_of_further, list_elem_of_here.
      * by do 2 apply list_elem_of_further.
Qed.

Lemma foldl_max_spec x xs :
  (forall y, y ∈ x :: xs -> y <= foldl Z.max x xs) /\ foldl Z.max x xs ∈ x :: xs.
Proof.
  revert x. induction xs as [|z zs IH]; intros x; simpl.
  - split; [|apply list_elem_of_here].
    intros y ->%list_elem_of_singleton. lia.
  - destruct (IH (Z.max x z)) as [Hle Hin]. split.
    + intros y Hy.
      assert (Z.max x z <= foldl Z.max (Z.max x z) zs) as H0
        by (apply Hle, list_elem_of_here).
      apply elem_of_cons in Hy as [->|Hy]; [lia|].
      apply elem_of_cons in Hy as [->|Hy]; [lia|].
      apply Hle. by apply list_elem_of_further.
    + apply elem_of_cons in Hin as [Heq|Hin].
      * rewrite Heq. destruct (Z.max_spec x z) as [[_ ->]|[_ ->]].
        -- apply list_elem_of_further, list_elem_of_here.
        -- apply list_elem_of_here.
      * by do 2 apply list_elem_of_further.
Qed.

(** [min] and [max] of the values of [f] over a list that is not empty. *)
Lemma py_min_fmap {A} (f : A -> Z) (xs : list A) :
  xs <> [] ->
  exists m, py_min (map f xs) = Ok m /\
            (forall x, x ∈ xs -> m <= f x) /\ (exists x, x ∈ xs /\ f x = m).
Proof.
  destruct xs as [|x xs]; [done|]. intros _. simpl.
  change (map f xs) with (f <$> xs).
  destruct (foldl_min_spec (f x) (f <$> xs)) as [Hle Hin].
  eexists; split; [done|]. split.
  - intros y Hy. apply Hle. change (f y ∈ f <$> (x :: xs)).
    apply list_elem_of_fmap. eauto.
  - change (foldl Z.min (f x) (f <$> xs) ∈ f <$> (x :: xs)) in Hin.
    apply list_elem_of_fmap in Hin as (y & -> & Hy). eauto.
Qed.

Lemma py_max_fmap {A} (f : A -> Z) (xs : list A) :
  xs <> [] ->
  exists m, py_max (map f xs) = Ok m /\
            (forall x, x ∈ xs -> f x <= m) /\ (exists x, x ∈ xs /\ f x = m).
Proof.
  destruct xs as [|x xs]; [done|]. intros _. simpl.
  change (map f xs) with (f <$> xs).
  destruct (foldl_max_spec (f x) (f <$> xs)) as [Hle Hin].
  eexists; split; [done|]. split.
  - intros y Hy. apply Hle. change (f y ∈ f <$> (x :: xs)).
    apply list_elem_of_fmap. eauto.
  - change (foldl Z.max (f x) (f <$> xs) ∈ f <$> (x :: xs)) in Hin.
    apply list_elem_of_fmap in Hin as (y & -> & Hy). eauto.
Qed.

Lemma mapR_Ok_iff {A B} (f : A -> result B) xs ys :
  mapR f xs = Ok ys <-> Forall2 (fun x y => f x = Ok y) xs ys.
Proof.
  revert ys. induction xs as [|x xs IH]; intros ys; simpl.
  - split; [intros [= <-]; constructor | by inversion 1].
  - split.
    + intros H. apply result_bind_Ok_inv in H as (y & Hy & H).
      apply result_bind_Ok_inv in H as (ys' & Hys & [= <-]).
      constructor; [done | by apply IH].
    + inversion 1 as [|? y ? ys' Hy Hys]; subst.
      rewrite Hy. simpl. apply IH in Hys. by rewrite Hys.
Qed.

Lemma mapR_defined {A B} (f : A -> result B) xs :
  Forall (fun x => exists y, f x = Ok y) xs -> exists ys, mapR f xs = Ok ys.
Proof.
  induction 1 as [|x xs [y Hy] _ [ys IH]]; [by exists []|].
  exists (y :: ys). simpl. rewrite Hy. simpl. by rewrite IH.
Qed.

Lemma elem_of_kept_bboxes bs k :
  k ∈ kept_bboxes bs <-> Some k ∈ bs /\ 0 < width k /\ 0 < height k.
Proof.
  unfold kept_bboxes, bbox_positive.
  rewrite list_elem_of_filter, list_elem_of_omap, andb_true_iff, !Z.ltb_lt.
  split.
  - intros [Hpos (o & Ho & Hid)]. simpl in Hid. subst o. tauto.
  - intros (Hin & Hw & Hh). split; [done|]. by exists (Some k).
Qed.

(** The boxes kept are those of the surviving layers. *)
Lemma kept_bboxes_surviving psd layers bs k :
  mapR (Layer_bbox psd) layers = Ok bs ->
  k ∈ kept_bboxes bs <-> surviving psd layers k.
Proof.
  intros Hbs. apply mapR_Ok_iff in Hbs.
  rewrite elem_of_kept_bboxes. unfold surviving. split.
  - intros (Hin & Hw & Hh).
    apply list_elem_of_lookup in Hin as [n Hn].
    destruct (Forall2_lookup_r _ _ _ _ _ Hbs Hn) as (l & Hl & Hbox).
    exists l. split_and!; try done. apply list_elem_of_lookup. eauto.
  - intros (l & Hin & Hbox & Hw & Hh).
    apply list_elem_of_lookup in Hin as [n Hn].
    destruct (Forall2_lookup_l _ _ _ _ _ Hbs Hn) as (o & Ho & Hbox').
    rewrite Hbox in Hbox'. injection Hbox' as <-.
    split_and!; try done. apply list_elem_of_lookup. eauto.
Qed.

Lemma combined_bbox_of_spec bs :
  match kept_bboxes bs with
  | [] => combined_bbox_of bs = Ok None
  | _ :: _ =>
      exists b, combined_bbox_of bs = Ok (Some b) /\
                envelope_of_boxes b (fun k => k ∈ kept_bboxes bs)
  end.
Proof.
  unfold combined_bbox_of. destruct (kept_bboxes bs) as [|k ks] eqn:Hk; [done|].
  assert (k :: ks <> []) as Hne by done.
  destruct (py_min_fmap x1 _ Hne) as (a & -> & Ha1 & Ha2).
  destruct (py_min_fmap y1 _ Hne) as (b & -> & Hb1 & Hb2).
  destruct (py_max_fmap x2 _ Hne) as (c & -> & Hc1 & Hc2).
  destruct (py_max_fmap y2 _ Hne) as (d & -> & Hd1 & Hd2).
  eexists; split; [done|]. unfold envelope_of_boxes; simpl.
  split_and!; try done.
  intros k' Hk'. split_and!; auto.
Qed.

Lemma combined_bbox_singleton psd L :
  match Layer_bbox psd L with
  | Ok (Some b) =>
      combined_bbox psd [L]
      = Ok (if bbox_positive b then Some b else None)
  | Ok None => combined_bbox psd [L] = Ok None
  | Raise e => combined_bbox psd [L] = Raise e
  end.
Proof.
  unfold combined_bbox, combined_bbox_with. simpl.
  destruct (Layer_bbox psd L) as [[b|]|e]; simpl; try done.
  unfold combined_bbox_of, kept_bboxes. simpl.
  rewrite filter_cons. destruct (decide (bbox_positive b = true)) as [Hp|Hp].
  - rewrite Hp. simpl. by destruct b.
  - apply not_true_is_false in Hp. by rewrite Hp.
Qed.

(** C3, as amended: when [layer.bbox] has a value for every layer,
    [combined_bbox(layers)] is [None] if no layer has a box that is not
    [None] and has positive width and height, and otherwise it is the box
    whose [x1], [y1] are the least and [x2], [y2] the greatest over those
    boxes; [combined_bbox([])] is [None]; for a single layer whose box is
    not [None], the result is that box exactly when the box has positive
    width and height, and for a single layer whose box is [None] the result
    is [None] as well. *)
Theorem combined_bbox_spec psd layers :
  bboxes_defined psd layers ->
  ((forall k, ~ surviving psd layers k) -> combined_bbox psd layers = Ok None)
  /\ ((exists k, surviving psd layers k) ->
      exists b, combined_bbox psd layers = Ok (Some b) /\
                envelope_of_boxes b (surviving psd layers))
  /\ combined_bbox psd [] = Ok None
  /\ (forall L b, Layer_bbox psd L = Ok (Some b) ->
        (combined_bbox psd [L] = Ok (Some b) <-> 0 < width b /\ 0 < height b)
        /\ (~ (0 < width b /\ 0 < height b) -> combined_bbox psd [L] = Ok None))
  /\ (forall L, Layer_bbox psd L = Ok None -> combined_bbox psd [L] = Ok None).
Proof.
  intros Hdef. destruct (mapR_defined _ _ Hdef) as [bs Hbs].
  pose proof (combined_bbox_of_spec bs) as Hspec.
  assert (combined_bbox psd layers = combined_bbox_of bs) as Hcb.
  { unfold combined_bbox, combined_bbox_with. by rewrite Hbs. }
  split_and!.
  - intros Hnone. rewrite Hcb.
    destruct (kept_bboxes bs) as [|k ks] eqn:Hk; [done|].
    exfalso. apply (Hnone k). eapply kept_bboxes_surviving; [done|].
    rewrite Hk. apply list_elem_of_here.
  - intros [k Hk]. rewrite Hcb.
    apply (kept_bboxes_surviving _ _ _ _ Hbs) in Hk.
    destruct (kept_bboxes bs) as [|k0 ks] eqn:Hkept;
      [by apply elem_of_nil in Hk|].
    destruct Hspec as (b & -> & Henv). exists b. split; [done|].
    destruct Henv as (H1 & H2 & H3 & H4 & H5).
    pose proof (fun k => kept_bboxes_surviving psd layers bs k Hbs) as Hiff.
    rewrite Hkept in Hiff.
    unfold envelope_of_boxes. split_and!.
    + intros k' Hk'. apply H1. by apply Hiff.
    + destruct H2 as (k' & ? & ?). exists k'. split; [by apply Hiff | done].
    + destruct H3 as (k' & ? & ?). exists k'. split; [by apply Hiff | done].
    + destruct H4 as (k' & ? & ?). exists k'. split; [by apply Hiff | done].
    + destruct H5 as (k' & ? & ?). exists k'. split; [by apply Hiff | done].
  - reflexivity.
  - intros L b HL. pose proof (combined_bbox_singleton psd L) as Hs.
    rewrite HL in Hs. rewrite Hs. unfold bbox_positive.
    destruct (Z.ltb_spec 0 (width b)); destruct (Z.ltb_spec 0 (height b));
      simpl; (split; [split|]); intros; try done; try lia; tauto.
  - intros L HL. pose proof (combined_bbox_singleton psd L) as Hs.
    by rewrite HL in Hs.
Qed.

Lemma combined_bbox_spec_witness :
  bboxes_defined EmptyGroupSample.psd (layer_layers EmptyGroupSample.root) /\
  exists b,
    combined_bbox EmptyGroupSample.psd (layer_layers EmptyGroupSample.root)
    = Ok (Some b) /\
    envelope_of_boxes b
      (surviving EmptyGroupSample.psd (layer_layers EmptyGroupSample.root)).
Proof.
  assert (bboxes_defined EmptyGroupSample.psd
            (layer_layers EmptyGroupSample.root)) as Hdef.
  { unfold bboxes_defined. simpl.
    repeat (apply Forall_cons; split; [eexists; reflexivity|]).
    by apply Forall_nil. }
  split; [exact Hdef|].
  apply (combined_bbox_spec EmptyGroupSample.psd
           (layer_layers EmptyGroupSample.root) Hdef).
  exists (mkBBox 1 2 5 7), EmptyGroupSample.pixels. simpl.
  split_and!; [|reflexivity|reflexivity|reflexivity].
  apply list_elem_of_further, list_elem_of_here.
Defined.

(** The sample evaluates to the box of the pixel layer: the group without
    layers has no box and is left out. *)
Example combined_bbox_sample :
  Layer_bbox EmptyGroupSample.psd EmptyGroupSample.empty_group = Ok None /\
  combined_bbox EmptyGroupSample.psd (layer_layers EmptyGroupSample.root)
  = Ok (Some (mkBBox 1 2 5 7)).
Proof. split; reflexivity. Qed.

(** C3 as stated fails for a layer whose box is [None]: the group without
    layers is built by [PSDImage.__init__], [combined_bbox] of the list that
    holds only this group equals the group's own box, both [None], and yet
    that box has no positive width and height. *)
Lemma combined_bbox_singleton_null_counterexample :
  PSDImage_init EmptyGroupSample.psd EmptyGroupSample.grouped
    = ([], Ok EmptyGroupSample.root)
  /\ combined_bbox EmptyGroupSample.psd [EmptyGroupSample.empty_group]
     = Layer_bbox EmptyGroupSample.psd EmptyGroupSample.empty_group
  /\ ~ (exists b,
          Layer_bbox EmptyGroupSample.psd EmptyGroupSample.empty_group
          = Ok (Some b) /\ 0 < width b /\ 0 < height b).
Proof.
  split_and!; [reflexivity | reflexivity |].
  intros (b & Hb & _). discriminate Hb.
Qed.

(** ** Shape layers *)

Lemma on_curve_selectors_iff p :
  on_curve p = true <-> selector p ∈ on_curve_selectors.
Proof.
  unfold on_curve, on_curve_selectors. destruct (selector p) as [s|].
  - rewrite !orb_true_iff, !Z.eqb_eq, !elem_of_cons, elem_of_nil.
    split; [intros [[[->| ->]| ->]| ->]; auto 6 | ].
    intros [[= ->]|[[= ->]|[[= ->]|[[= ->]|[]]]]]; auto.
  - rewrite !elem_of_cons, elem_of_nil. split; [done|].
    intros [?|[?|[?|[?|[]]]]]; done.
Qed.

(** [int] of a finite float is the truncation of the rational that the float
    denotes. *)
Lemma py_int_of_float_value x q :
  float_value x = Some q -> py_int_of_float x = Ok (py_int q).
Proof.
  destruct x as [s|s| |s m e]; simpl; try done.
  - by intros [= <-].
  - intros [= <-]. f_equal. unfold py_int.
    destruct (Z.leb_spec 0 e) as [He|He].
    + simpl. rewrite Z.quot_1_r, Z.shiftl_mul_pow2 by done.
      destruct s; [|done]. by rewrite <- Z.mul_opp_l.
    + simpl.
      assert (Z.shiftl (Z.pos m) e = Z.pos m / 2 ^ (- e)) as ->.
      { rewrite <- (Z.opp_involutive e) at 1.
        rewrite Z.shiftl_opp_r. apply Z.shiftr_div_pow2. lia. }
      rewrite Pos2Z.inj_pow, Z2Pos.id by lia.
      assert (0 < 2 ^ (- e)) by (apply Z.pow_pos_nonneg; lia).
      destruct s.
      * change (Z.neg m) with (- Z.pos m).
        rewrite Z.quot_opp_l by lia. f_equal.
        by rewrite Z.quot_div_nonneg by lia.
      * by rewrite Z.quot_div_nonneg by lia.
Qed.

Lemma scale_fraction_scaled a n t :
  scaled a n t -> scale_fraction a n = Ok t.
Proof.
  intros (f & q & Hf & Hq & ->). unfold scale_fraction. rewrite Hf. simpl.
  by apply py_int_of_float_value.
Qed.

Lemma scale_fraction_Ok_scaled a n t :
  scale_fraction a n = Ok t -> scaled a n t.
Proof.
  unfold scale_fraction.
  destruct (py_float_of_int n) as [f|e] eqn:Hf; simpl; [|done].
  intros Ht. exists f.
  destruct (float_value (py_float_mul a f)) as [q|] eqn:Hq.
  - exists q. split_and!; [done | done |].
    rewrite (py_int_of_float_value _ _ Hq) in Ht. by injection Ht.
  - by destruct (py_float_mul a f).
Qed.

Lemma anchors_envelope_spec pts :
  pts <> [] ->
  exists b, anchors_envelope pts = Ok b /\ envelope_of_points b pts.
Proof.
  intros Hne. unfold anchors_envelope.
  destruct (py_min_fmap fst _ Hne) as (a & -> & Ha1 & Ha2).
  destruct (py_min_fmap snd _ Hne) as (b & -> & Hb1 & Hb2).
  destruct (py_max_fmap fst _ Hne) as (c & -> & Hc1 & Hc2).
  destruct (py_max_fmap snd _ Hne) as (d & -> & Hd1 & Hd2).
  eexists; split; [done|]. unfold envelope_of_points; simpl.
  split_and!; try done.
  intros p Hp. split_and!; auto.
Qed.

(** C6: for a shape layer whose literal box has zero width or zero height,
    [anchors] is the list of the path records whose selector is 1, 2, 4 or
    5, each scaled by the document width and height and truncated: the
    fraction is multiplied by the width or height as binary64 arithmetic
    does, and the product is truncated towards zero. [bbox] is (0,0,0,0)
    when there is no vector mask or fewer than two anchors, and the envelope
    of the anchors otherwise. *)
Theorem shape_bbox_from_anchors psd o info :
  _info psd o = Ok info ->
  width (literal_bbox info) = 0 \/ height (literal_bbox info) = 0 ->
  let blocks := dict_of_pairs (info_tagged_blocks info) in
  let vmsk := dict_get blocks TaggedBlock.VECTOR_MASK_SETTING1
                       (blocks !! TaggedBlock.VECTOR_MASK_SETTING2) in
  (vmsk = None ->
     anchors psd o = Ok None /\ ShapeLayer_bbox psd o = Ok (mkBBox 0 0 0 0))
  /\ (forall path pts,
        vmsk = Some (VectorMask path) ->
        Forall2 (scaled_anchor psd)
                (filter (fun p => selector p ∈ on_curve_selectors) path) pts ->
        anchors psd o = Ok (Some pts)
        /\ ((length pts < 2)%nat ->
            ShapeLayer_bbox psd o = Ok (mkBBox 0 0 0 0))
        /\ ((2 <= length pts)%nat ->
            exists b, ShapeLayer_bbox psd o = Ok b /\ envelope_of_points b pts)).
Proof.
  intros Hinfo Hdeg blocks vmsk.
  assert (_is_sizeless psd o = Ok true) as Hsizeless.
  { unfold _is_sizeless. rewrite Hinfo. simpl. f_equal.
    apply orb_true_iff. rewrite !Z.eqb_eq. done. }
  assert (_tagged_blocks psd o = Ok blocks) as Hblocks.
  { unfold _tagged_blocks. by rewrite Hinfo. }
  split.
  - intros Hnone.
    assert (anchors psd o = Ok None) as Ha.
    { unfold anchors. rewrite Hblocks. simpl. fold vmsk. by rewrite Hnone. }
    split; [done|].
    unfold ShapeLayer_bbox. rewrite Hsizeless. simpl. by rewrite Ha.
  - intros path pts Hvmsk Hpts.
    assert (anchors psd o = Ok (Some pts)) as Ha.
    { unfold anchors. rewrite Hblocks. simpl. fold vmsk. rewrite Hvmsk. simpl.
      rewrite (list_filter_iff _ (fun p => selector p ∈ on_curve_selectors))
        by apply on_curve_selectors_iff.
      assert (mapR (anchor_point psd)
                (filter (fun p => selector p ∈ on_curve_selectors) path)
              = Ok pts) as ->; [|done].
      apply mapR_Ok_iff. eapply Forall2_impl; [exact Hpts|].
      intros p [x y] (a0 & a1 & Hanchor & Hx & Hy). unfold anchor_point.
      rewrite Hanchor.
      by rewrite (scale_fraction_scaled _ _ _ Hx), (scale_fraction_scaled _ _ _ Hy). }
    split; [done|].
    unfold ShapeLayer_bbox. rewrite Hsizeless. simpl. rewrite Ha. simpl.
    split.
    + intros Hlen. apply Nat.ltb_lt in Hlen. rewrite Hlen.
      by rewrite orb_true_r.
    + intros Hlen.
      assert (pts <> []) as Hne by (intros ->; simpl in Hlen; lia).
      rewrite bool_decide_eq_false_2 by done.
      assert ((length pts <? 2)%nat = false) as -> by (apply Nat.ltb_ge; lia).
      simpl. by apply anchors_envelope_spec.
Qed.

Lemma shape_bbox_from_anchors_witness :
  anchors FractionSample.psd FractionSample.shape
  = Ok (Some FractionSample.points)
  /\ ((length FractionSample.points < 2)%nat ->
      ShapeLayer_bbox FractionSample.psd FractionSample.shape
      = Ok (mkBBox 0 0 0 0))
  /\ ((2 <= length FractionSample.points)%nat ->
      exists b, ShapeLayer_bbox FractionSample.psd FractionSample.shape = Ok b /\
                envelope_of_points b FractionSample.points).
Proof.
  eapply (shape_bbox_from_anchors FractionSample.psd FractionSample.shape
            _ eq_refl (or_introl eq_refl)).
  - reflexivity.
  - vm_compute filter.
    repeat (apply Forall2_cons_2;
            [eexists _, _; split; [reflexivity|];
             split; (eexists _, _; split_and!; vm_compute; reflexivity)|]).
    apply Forall2_nil_2.
Defined.

(** The example of the specification: literal box (0,0,0,0) and anchors
    (0,0), (10,0), (10,10), (0,10) give the box (0,0,10,10). With the
    fractions 0.7, 0.35 and 0.1 of a document of 10 by 20 the anchors are
    truncated products, and the literal box of zero width and height 5 is
    replaced by their envelope. *)
Example shape_bbox_sample :
  anchors ShapeSample.psd ShapeSample.shape
  = Ok (Some [(0, 0); (10, 0); (10, 10); (0, 10)])
  /\ ShapeLayer_bbox ShapeSample.psd ShapeSample.shape = Ok (mkBBox 0 0 10 10)
  /\ anchors FractionSample.psd FractionSample.shape
     = Ok (Some [(7, 7); (3, 14); (1, 2)])
  /\ ShapeLayer_bbox FractionSample.psd FractionSample.shape
     = Ok (mkBBox 1 2 7 14).
Proof. split_and!; vm_compute; reflexivity. Qed.

(** ** Smart object layers *)

Lemma dict_of_pairs_lookup_None {V} (pairs : list (string * V)) k :
  dict_of_pairs pairs !! k = None <-> k ∉ pairs.*1.
Proof.
  unfold dict_of_pairs. rewrite <- not_elem_of_list_to_map.
  by rewrite fmap_reverse, elem_of_reverse.
Qed.

(** The block found is the first one present, in the order of
    [placed_layer_keys]. *)
Lemma _placed_layer_block_first_present psd o info :
  _info psd o = Ok info ->
  _placed_layer_block psd o
  = Ok (head (omap (fun k => dict_of_pairs (info_tagged_blocks info) !! k)
                   placed_layer_keys)).
Proof.
  intros Hinfo. unfold _placed_layer_block, _tagged_blocks. rewrite Hinfo.
  simpl. f_equal. unfold dict_get.
  repeat (match goal with
          | |- context [dict_of_pairs ?l !! ?k] =>
              destruct (dict_of_pairs l !! k); simpl; try done
          end).
Qed.

(** C7, as amended: the placed layer block is looked up under
    SMART_OBJECT_PLACED_LAYER_DATA, PLACED_LAYER_DATA, PLACED_LAYER_OBSOLETE1
    and PLACED_LAYER_OBSOLETE2, in this order of preference, and when the
    record of a smart object layer has none of them, [unique_id()],
    [transform_bbox], [placed_layer_size] and [linked_data()] all return
    [None] and do not raise. *)
Theorem smart_object_without_placed_block psd o info :
  _info psd o = Ok info ->
  _placed_layer_block psd o
  = Ok (head (omap (fun k => dict_of_pairs (info_tagged_blocks info) !! k)
                   placed_layer_keys))
  /\ ((forall k, k ∈ placed_layer_keys -> k ∉ (info_tagged_blocks info).*1) ->
      unique_id psd o = Ok None /\
      transform_bbox psd o = Ok None /\
      placed_layer_size psd o = Ok None /\
      linked_data psd o = Ok None).
Proof.
  intros Hinfo. split; [by apply _placed_layer_block_first_present|].
  intros Habsent.
  assert (_placed_layer_block psd o = Ok None) as Hblock.
  { rewrite (_placed_layer_block_first_present _ _ _ Hinfo).
    unfold placed_layer_keys. simpl.
    rewrite !(proj2 (dict_of_pairs_lookup_None _ _));
      [done | apply Habsent; unfold placed_layer_keys ..].
    - do 3 apply list_elem_of_further. apply list_elem_of_here.
    - do 2 apply list_elem_of_further. apply list_elem_of_here.
    - apply list_elem_of_further, list_elem_of_here.
    - apply list_elem_of_here. }
  assert (unique_id psd o = Ok None) as Huid.
  { unfold unique_id, _placed. by rewrite Hblock. }
  split_and!.
  - done.
  - unfold transform_bbox. by rewrite Hblock.
  - unfold placed_layer_size. by rewrite Hblock.
  - unfold linked_data. by rewrite Huid.
Qed.

Lemma smart_object_without_placed_block_witness :
  _placed_layer_block SmartObjectSample.psd SmartObjectSample.bare = Ok None
  /\ unique_id SmartObjectSample.psd SmartObjectSample.bare = Ok None
  /\ transform_bbox SmartObjectSample.psd SmartObjectSample.bare = Ok None
  /\ placed_layer_size SmartObjectSample.psd SmartObjectSample.bare = Ok None
  /\ linked_data SmartObjectSample.psd SmartObjectSample.bare = Ok None.
Proof.
  destruct (smart_object_without_placed_block SmartObjectSample.psd
              SmartObjectSample.bare _ eq_refl) as [Hblock Hnone].
  split; [exact Hblock|].
  apply Hnone. intros k Hk.
  refine (bool_decide_unpack _ _).
  unfold placed_layer_keys in Hk.
  repeat (apply elem_of_cons in Hk as [->|Hk]; [vm_compute; exact I|]).
  by apply elem_of_nil in Hk.
Defined.

(** C7 as stated fails when the block is present and a field is absent:
    the block of this layer has the size of the content but neither an
    identifier nor a transform; [unique_id()] and [linked_data()] raise
    AttributeError and [transform_bbox] raises KeyError, while
    [placed_layer_size], whose field is present, returns the size. *)
Lemma smart_object_absent_field_counterexample :
  _placed_layer_block SmartObjectSample.psd SmartObjectSample.sized
    = Ok (Some (PlacedLayer SmartObjectSample.size_only))
  /\ dict_of_pairs SmartObjectSample.size_only !! PlacedLayerProperty.ID = None
  /\ dict_of_pairs SmartObjectSample.size_only !! PlacedLayerProperty.TRANSFORM
     = None
  /\ unique_id SmartObjectSample.psd SmartObjectSample.sized
     = Raise AttributeError
  /\ linked_data SmartObjectSample.psd SmartObjectSample.sized
     = Raise AttributeError
  /\ transform_bbox SmartObjectSample.psd SmartObjectSample.sized
     = Raise KeyError
  /\ placed_layer_size SmartObjectSample.psd SmartObjectSample.sized
     = Ok (Some (mkSize (ANum (10 # 1)) (ANum (20 # 1)))).
Proof. split_and!; reflexivity. Qed.

(** ** Type layers *)

Lemma run_offset_cons n sizes i :
  run_offset (n :: sizes) (S i) = n + run_offset sizes i.
Proof. reflexivity. Qed.

Lemma list_getitem_in_range {A} (xs : list A) i x :
  0 <= i -> xs !! Z.to_nat i = Some x -> list_getitem xs i = Ok x.
Proof.
  intros Hi Hx. unfold list_getitem. cbv zeta.
  apply lookup_lt_Some in Hx as Hlt.
  assert ((i <? 0) = false) as Hb1 by lia.
  assert ((Z.of_nat (length xs) <=? i) = false) as Hb2 by lia.
  rewrite Hb1. cbv iota. rewrite Hb1, Hb2. simpl. by rewrite Hx.
Qed.

(** One pass of the loop on a well-formed run. *)
Lemma style_spans_body_spec s fonts run n start spans0 :
  well_formed_run fonts run ->
  exists span,
    style_spans_body (PStr s) (PList fonts) run (PInt n) start spans0
    = Ok (start + n, spans0 ++ [span]) /\
    span_of_run s fonts run start n span.
Proof.
  intros (sd & font & Hsd & Hfont).
  pose proof Hsd as (d & d' & -> & Hd & Hd').
  pose proof Hfont as (fi & Hfi & Hpos & Hlook).
  exists (<["Font" := font]> (<["Text" := PStr (str_slice s start (start + n))]> sd)).
  split.
  - unfold style_spans_body. simpl. rewrite Hd. simpl. rewrite Hd'. simpl.
    rewrite lookup_insert_ne by done.
    assert (default (PInt 0) (sd !! "Font") = PInt fi) as ->.
    { destruct Hfi as [-> | [-> ->]]; done. }
    simpl. by rewrite (list_getitem_in_range _ _ _ Hpos Hlook).
  - exists sd, font. split_and!; [done | done | | |].
    + rewrite lookup_insert_ne by done. by rewrite lookup_insert_eq.
    + by rewrite lookup_insert_eq.
    + intros k Ht Hf. by rewrite !lookup_insert_ne.
Qed.

(** The loop over the pairs of [zip(runarray, runlength)]: one record per
    pair is appended, in order, and the offset advances by the length of
    each run. *)
Lemma style_spans_loop_spec s fonts runs sizes start spans0 :
  Forall (well_formed_run fonts) (take (length sizes) runs) ->
  exists spans,
    style_spans_loop (PStr s) (PList fonts)
                     (zip_pairs runs (PInt <$> sizes)) start spans0
    = Ok (spans0 ++ spans) /\
    length spans = Nat.min (length runs) (length sizes) /\
    (forall i run size,
       runs !! i = Some run -> sizes !! i = Some size ->
       exists span,
         spans !! i = Some span /\
         span_of_run s fonts run (start + run_offset sizes i) size span).
Proof.
  revert sizes start spans0.
  induction runs as [|run runs IH]; intros sizes start spans0 Hwf.
  - exists []. simpl. rewrite app_nil_r. split_and!; [done | done |].
    intros i ? ? H. by rewrite lookup_nil in H.
  - destruct sizes as [|n sizes].
    { exists []. simpl. rewrite app_nil_r. split_and!; [done | done |].
      intros i ? ? _ H. by rewrite lookup_nil in H. }
    simpl in Hwf. apply Forall_cons in Hwf as [Hrun Hwf].
    destruct (style_spans_body_spec s fonts run n start spans0 Hrun)
      as (span & Hbody & Hspan).
    destruct (IH sizes (start + n) (spans0 ++ [span]) Hwf)
      as (spans & Hloop & Hlen & Hall).
    exists (span :: spans). split_and!.
    + simpl. rewrite Hbody. simpl. etrans; [exact Hloop|].
      by rewrite <- app_assoc.
    + simpl. by rewrite Hlen.
    + intros [|i] run' size Hr Hs; simpl in Hr, Hs.
      * injection Hr as <-. injection Hs as <-. exists span. split; [done|].
        unfold run_offset. simpl. by rewrite Z.add_0_r.
      * destruct (Hall i run' size Hr Hs) as (span' & Hi & Hspan').
        exists span'. split; [done|].
        rewrite run_offset_cons.
        by replace (start + (n + run_offset sizes i))
          with (start + n + run_offset sizes i) by lia.
Qed.

(** When the bounds lie within the text, the slice is the substring that
    starts at [offset] and has [size] characters. *)
Lemma str_slice_in_range s offset size :
  0 <= offset -> 0 <= size ->
  offset + size <= Z.of_nat (String.length s) ->
  str_slice s offset (offset + size)
  = String.substring (Z.to_nat offset) (Z.to_nat size) s.
Proof.
  intros Ho Hs Hlen. unfold str_slice, slice_bound.
  assert ((offset <? 0) = false) as -> by lia.
  assert ((offset + size <? 0) = false) as -> by lia.
  cbv zeta. rewrite !Z.min_l by lia. f_equal. lia.
Qed.

(** C10: [style_spans()] walks the runs and their lengths in order with a
    running offset; it emits one record per pair of a run and a length, in
    the order of the runs, and the [i]-th record is the style sheet data of
    the [i]-th run with, under ["Text"], the slice of the full text from the
    sum of the lengths before it to that sum plus its own length, and under
    ["Font"] the element of the font set at the run's font index, or at
    index 0 when the style sheet has no font entry. *)
Theorem style_spans_walk psd o s fonts sizes runs :
  type_layer_data psd o s fonts sizes runs ->
  Forall (well_formed_run fonts) (take (length sizes) runs) ->
  exists spans,
    style_spans psd o = Ok spans /\
    length spans = Nat.min (length runs) (length sizes) /\
    (forall i run size,
       runs !! i = Some run -> sizes !! i = Some size ->
       exists span,
         spans !! i = Some span /\
         span_of_run s fonts run (run_offset sizes i) size span).
Proof.
  intros (e & ed & editor & res & sr & He & Hed & Heditor & Htext & Hres
          & Hfonts & Hsr & Hlens & Hruns) Hwf.
  destruct (style_spans_loop_spec s fonts runs sizes 0 [] Hwf)
    as (spans & Hloop & Hlen & Hall).
  exists spans. split_and!; [|done|].
  - unfold style_spans, full_text, fontset. rewrite He. simpl.
    rewrite Hed. simpl. rewrite Heditor. simpl. rewrite Htext. simpl.
    rewrite Hres. simpl. rewrite Hfonts. simpl.
    rewrite Hsr. simpl. rewrite Hlens. simpl. rewrite Hruns. simpl.
    unfold style_spans_of. simpl. exact Hloop.
  - intros i run size Hr Hs. destruct (Hall i run size Hr Hs) as (span & ? & Hspan).
    exists span. split; [done|]. by rewrite Z.add_0_l in Hspan.
Qed.

Lemma style_spans_walk_witness :
  exists spans,
    style_spans TypeSample.psd TypeSample.layer = Ok spans /\
    length spans
    = Nat.min (length TypeSample.runs) (length TypeSample.sizes) /\
    (forall i run size,
       TypeSample.runs !! i = Some run -> TypeSample.sizes !! i = Some size ->
       exists span,
         spans !! i = Some span /\
         span_of_run "Hello world" TypeSample.fonts run
                     (run_offset TypeSample.sizes i) size span).
Proof.
  apply (style_spans_walk TypeSample.psd TypeSample.layer).
  - unfold type_layer_data.
    eexists _, _, _, _, _. split_and!; [reflexivity | vm_compute; reflexivity ..].
  - simpl. apply Forall_cons; split; [|apply Forall_cons; split; [|by apply Forall_nil]].
    + eexists _, (TypeSample.font "Courier"). split.
      * eexists _, _. split_and!; [reflexivity | vm_compute; reflexivity ..].
      * exists 1. split_and!; [left; vm_compute; reflexivity | lia | reflexivity].
    + eexists _, (TypeSample.font "Arial"). split.
      * eexists _, _. split_and!; [reflexivity | vm_compute; reflexivity ..].
      * exists 0. split_and!; [right; split; [vm_compute|]; reflexivity | lia | reflexivity].
Defined.

(** The texts and fonts of the records of the sample. *)
Example style_spans_sample :
  match style_spans TypeSample.psd TypeSample.layer with
  | Ok [span1; span2] =>
      span1 !! "Text" = Some (PStr "Hello ") /\
      span1 !! "Font" = Some (TypeSample.font "Courier") /\
      span1 !! "FontSize" = Some (PInt 12) /\
      span2 !! "Text" = Some (PStr "world") /\
      span2 !! "Font" = Some (TypeSample.font "Arial") /\
      span2 !! "FontSize" = Some (PInt 9)
  | _ => False
  end.
Proof. vm_compute. repeat split. Qed.

(** ** The compositor *)

Lemma M_bind_ret_l {A B} (a : A) (f : A -> M B) : mret a ≫= f = f a.
Proof. rewrite M_bind_unfold. simpl. by destruct (f a). Qed.

Lemma M_bind_ext {A B} (m : M A) (f g : A -> M B) :
  (forall a, f a = g a) -> m ≫= f = m ≫= g.
Proof.
  intros H. rewrite !M_bind_unfold. destruct m as [l [a|e]]; simpl; [|done].
  by rewrite H.
Qed.

Lemma M_bind_outcome {A B} (m m' : M A) (f : A -> M B) :
  m.2 = m'.2 -> (m ≫= f).2 = (m' ≫= f).2.
Proof.
  rewrite !M_bind_unfold. intros <-. by destruct (m.2).
Qed.

Lemma M_bind_keeps_outcome {A} (m : M A) (f : A -> M A) :
  (forall a, (f a).2 = Ok a) -> (m ≫= f).2 = m.2.
Proof.
  intros Hf. rewrite M_bind_unfold. destruct m as [l [a|e]]; simpl; [|done].
  apply Hf.
Qed.

Lemma mapR_app {A B} (f : A -> result B) xs ys :
  mapR f (xs ++ ys)
  = (a ← mapR f xs; b ← mapR f ys; Ok (a ++ b)).
Proof.
  induction xs as [|x xs IH]; simpl.
  - by destruct (mapR f ys).
  - destruct (f x) as [y|e]; simpl; [|done]. rewrite IH.
    destruct (mapR f xs) as [a|e]; simpl; [|done].
    by destruct (mapR f ys).
Qed.

Lemma kept_bboxes_drop bs1 b bs2 :
  bbox_positive b = false ->
  kept_bboxes (bs1 ++ Some b :: bs2) = kept_bboxes (bs1 ++ bs2).
Proof.
  intros Hb. unfold kept_bboxes.
  rewrite !omap_app, !filter_app. simpl. rewrite filter_cons.
  destruct (decide (bbox_positive b = true)) as [Hp|_]; [congruence|done].
Qed.

(** A layer whose box has no positive area does not change the combined
    box of a list. *)
Lemma combined_bbox_drop psd pre layer post b :
  Layer_bbox psd layer = Ok (Some b) ->
  bbox_positive b = false ->
  combined_bbox psd (pre ++ layer :: post) = combined_bbox psd (pre ++ post).
Proof.
  intros Hl Hb. unfold combined_bbox, combined_bbox_with.
  rewrite !mapR_app. simpl. rewrite Hl. simpl.
  destruct (mapR (Layer_bbox psd) pre) as [bs1|e]; simpl; [|done].
  destruct (mapR (Layer_bbox psd) post) as [bs2|e]; simpl; [|done].
  unfold combined_bbox_of. by rewrite kept_bboxes_drop.
Qed.

Section CompositorFacts.
Context {R : Raster}.
Variable psd : PSDImage.
Variable respect_visibility : bool.
Variable skip_layer : Layer -> bool.

Lemma merge_layers_unfold layers bbox :
  merge_layers psd respect_visibility skip_layer layers bbox
  = (bbox ← match bbox with
            | Some b => mret (Some b)
            | None => lift (combined_bbox psd layers)
            end;
     match bbox with
     | None => mret None
     | Some bbox =>
         result ← foldr (merge_loop_step psd respect_visibility skip_layer
                          (layer_image psd respect_visibility skip_layer) bbox)
                        (mret (Image_new "RGBA" (width bbox, height bbox)))
                        layers;
         mret (Some result)
     end).
Proof. reflexivity. Qed.

(** A layer whose step returns the canvas it is given, without a log
    record, can be removed from the list. *)
Lemma foldr_step_skip bbox raster pre layer post init :
  (forall result,
     merge_step psd respect_visibility skip_layer bbox result layer
                (raster layer) = mret result) ->
  foldr (merge_loop_step psd respect_visibility skip_layer raster bbox) init
        (pre ++ layer :: post)
  = foldr (merge_loop_step psd respect_visibility skip_layer raster bbox) init
          (pre ++ post).
Proof.
  intros Hskip. rewrite !foldr_app. simpl. f_equal.
  unfold merge_loop_step at 1.
  rewrite (M_bind_ext _ _ mret Hskip). apply M_bind_ret_r.
Qed.

Lemma merge_loop_step_outcome bbox raster layer (m m' : M Image) :
  m.2 = m'.2 ->
  (merge_loop_step psd respect_visibility skip_layer raster bbox layer m).2
  = (merge_loop_step psd respect_visibility skip_layer raster bbox layer m').2.
Proof. unfold merge_loop_step. apply M_bind_outcome. Qed.

Lemma merge_step_empty_bbox layer b bbox result raster :
  Layer_bbox psd layer = Ok (Some b) ->
  width b = 0 -> height b = 0 ->
  merge_step psd respect_visibility skip_layer bbox result layer raster
  = mret result.
Proof.
  intros Hl Hw Hh. unfold merge_step. rewrite Hl, M_bind_lift_Ok.
  unfold bbox_is_empty. by rewrite Hw, Hh.
Qed.

(** The placement, as one equation: the offset is clamped at zero, the
    crop takes what lies right of and below the overhang up to the full
    extent of the raster, and the two tests only write to the log. *)
Lemma fit_to_bbox_eq bbox layer_bbox img :
  let x := x1 layer_bbox - x1 bbox in
  let y := y1 layer_bbox - y1 bbox in
  let w := (image_size img).1 in
  let h := (image_size img).2 in
  fit_to_bbox bbox layer_bbox img
  = ((if (x <? 0) || (y <? 0)
      then [debug_cropping_overflow (Z.max (- x) 0) (Z.max (- y) 0)]
      else [])
     ++ (if (w + Z.max x 0 >? width bbox) || (h + Z.max y 0 >? height bbox)
         then [debug_cropping] else []),
     Ok (if (x <? 0) || (y <? 0)
         then image_crop img (Z.max (- x) 0, Z.max (- y) 0, w, h)
         else img,
         (Z.max x 0, Z.max y 0))).
Proof.
  intros x y w h. unfold fit_to_bbox. fold x y.
  destruct (image_size img) as [w' h'] eqn:Hsize. subst w h. simpl.
  assert (- Z.min x 0 = Z.max (- x) 0) as -> by lia.
  assert (- Z.min y 0 = Z.max (- y) 0) as -> by lia.
  destruct ((x <? 0) || (y <? 0)) eqn:Hneg.
  - assert (x + Z.max (- x) 0 = Z.max x 0) as -> by lia.
    assert (y + Z.max (- y) 0 = Z.max y 0) as -> by lia.
    rewrite !M_bind_unfold. simpl.
    by destruct ((w' + Z.max x 0 >? width bbox)
                 || (h' + Z.max y 0 >? height bbox)).
  - apply orb_false_iff in Hneg as [Hx Hy].
    assert (Z.max x 0 = x) as -> by lia.
    assert (Z.max y 0 = y) as -> by lia.
    rewrite !M_bind_unfold. simpl.
    by destruct ((w' + x >? width bbox) || (h' + y >? height bbox)).
Qed.

(** The step of a drawn layer: the log of its raster, then the placement
    and the blend of the raster with its opacity applied. *)
Lemma merge_step_drawn bbox result layer raster lb op bm log0 img :
  is_drawn psd respect_visibility skip_layer layer lb op bm ->
  raster = (log0, Ok (Some img)) ->
  merge_step psd respect_visibility skip_layer bbox result layer raster
  = (log0, Ok tt) ≫= (fun _ =>
      placed ← fit_to_bbox bbox lb (apply_opacity img op);
      blend_onto result placed.1 placed.2 bm).
Proof.
  intros (Hl & Hne & Hskip & (v & Hv & Hvis) & Hop & Hbm) ->.
  unfold merge_step. rewrite Hl, M_bind_lift_Ok.
  assert (bbox_is_empty lb = false) as ->.
  { unfold bbox_is_empty. apply andb_false_iff.
    rewrite !Z.eqb_neq. lia. }
  rewrite Hskip, Hv, M_bind_lift_Ok.
  assert (negb v && respect_visibility = false) as ->.
  { destruct Hvis as [-> | ->]; [done | by rewrite andb_false_r]. }
  rewrite !M_bind_Ok. simpl. f_equal.
  - f_equal. unfold draw_layer. rewrite Hop, M_bind_lift_Ok.
    rewrite !M_bind_unfold. destruct (fit_to_bbox _ _ _) as [l1 [p|e]]; simpl;
      [|done].
    rewrite Hbm. simpl. by destruct (blend_onto _ _ _ _).
  - unfold draw_layer. rewrite Hop, M_bind_lift_Ok.
    rewrite !M_bind_unfold. destruct (fit_to_bbox _ _ _) as [l1 [p|e]]; simpl;
      [|done].
    rewrite Hbm. simpl. by destruct (blend_onto _ _ _ _).
Qed.

Lemma blend_onto_cases result placed at_ bm :
  (bm = BlendMode.NORMAL -> image_mode placed = "RGBA" ->
   blend_onto result placed at_ bm
   = ([], Ok (alpha_composite result
                (image_paste (Image_new "RGBA" (image_size result))
                             placed at_))))
  /\ (bm = BlendMode.NORMAL -> image_mode placed = "RGB" ->
      blend_onto result placed at_ bm
      = ([], Ok (image_paste result placed at_)))
  /\ (bm = BlendMode.NORMAL ->
      image_mode placed <> "RGBA" -> image_mode placed <> "RGB" ->
      blend_onto result placed at_ bm
      = ([warning_mode_unsupported (image_mode placed)], Ok result))
  /\ (bm <> BlendMode.NORMAL ->
      blend_onto result placed at_ bm
      = ([warning_blend_mode_not_implemented (BlendMode_name_of bm)],
         Ok result)).
Proof.
  unfold blend_onto. split_and!.
  - intros -> ->. done.
  - intros -> ->. done.
  - intros -> H1 H2. rewrite String.eqb_refl.
    apply String.eqb_neq in H1, H2. by rewrite H1, H2.
  - intros H. apply String.eqb_neq in H. by rewrite H.
Qed.

(** Removing a layer whose step gives back the canvas it receives, with
    whatever log, leaves the outcome of the loop unchanged. *)
Lemma foldr_step_outcome bbox raster pre layer post init :
  (forall result,
     (merge_step psd respect_visibility skip_layer bbox result layer
                 (raster layer)).2 = Ok result) ->
  (foldr (merge_loop_step psd respect_visibility skip_layer raster bbox) init
         (pre ++ layer :: post)).2
  = (foldr (merge_loop_step psd respect_visibility skip_layer raster bbox) init
           (pre ++ post)).2.
Proof.
  intros Hkeep. rewrite !foldr_app. simpl.
  set (m' := foldr (merge_loop_step psd respect_visibility skip_layer raster
                                    bbox) init post).
  assert ((merge_loop_step psd respect_visibility skip_layer raster bbox
                           layer m').2 = m'.2) as Hm.
  { unfold merge_loop_step. by apply M_bind_keeps_outcome. }
  revert Hm.
  generalize (merge_loop_step psd respect_visibility skip_layer raster bbox
                              layer m').
  clearbody m'. intros m Hm.
  induction pre as [|l pre IH]; simpl; [done|].
  by apply merge_loop_step_outcome.
Qed.
End CompositorFacts.

(** A layer that is visible, not excluded and whose box is not empty in
    both directions is rasterised and drawn. *)
Lemma merge_step_not_skipped {R : Raster} psd respect_visibility skip_layer
    layer b bbox result raster :
  Layer_bbox psd layer = Ok (Some b) ->
  width b <> 0 \/ height b <> 0 ->
  skip_layer layer = false ->
  visible psd (obj_of layer) = Ok true ->
  merge_step psd respect_visibility skip_layer bbox result layer raster
  = (layer_image ← raster; draw_layer psd bbox b result layer layer_image).
Proof.
  intros Hl Hne Hskip Hv. unfold merge_step. rewrite Hl, M_bind_lift_Ok.
  assert (bbox_is_empty b = false) as ->.
  { unfold bbox_is_empty. apply andb_false_iff. rewrite !Z.eqb_neq. done. }
  by rewrite Hskip, Hv, M_bind_lift_Ok.
Qed.

(** C2, as amended: a layer whose own box has zero width and zero height is
    skipped by the loop of [merge_layers]: its step returns the canvas
    unchanged and logs nothing, whatever its raster would be, and the
    result of [merge_layers] is the same as for the list without the layer,
    for every position of the layer, every flag and every target box. A
    layer whose box has zero width and another height, or zero height and
    another width, is not skipped by this test: when it is visible and not
    excluded, its raster is obtained and drawn. *)
Theorem merge_skips_empty_bbox {R : Raster} psd respect_visibility skip_layer
    pre layer post b target :
  Layer_bbox psd layer = Ok (Some b) ->
  width b = 0 -> height b = 0 ->
  (forall bbox result raster,
     merge_step psd respect_visibility skip_layer bbox result layer raster
     = ([], Ok result))
  /\ merge_layers psd respect_visibility skip_layer (pre ++ layer :: post) target
     = merge_layers psd respect_visibility skip_layer (pre ++ post) target
  /\ (forall other b' bbox result raster,
        Layer_bbox psd other = Ok (Some b') ->
        (width b' = 0 /\ height b' <> 0) \/ (width b' <> 0 /\ height b' = 0) ->
        skip_layer other = false ->
        visible psd (obj_of other) = Ok true ->
        merge_step psd respect_visibility skip_layer bbox result other raster
        = (layer_image ← raster;
           draw_layer psd bbox b' result other layer_image)).
Proof.
  intros Hl Hw Hh. split_and!.
  - intros bbox result raster. by apply merge_step_empty_bbox with b.
  - rewrite !merge_layers_unfold.
    assert (bbox_positive b = false) as Hpos.
    { unfold bbox_positive. rewrite Hw. done. }
    destruct target as [tb|].
    + rewrite !M_bind_ret_l. f_equal.
      apply foldr_step_skip. intros result.
      by apply merge_step_empty_bbox with b.
    + rewrite (combined_bbox_drop _ _ _ _ _ Hl Hpos).
      apply M_bind_ext. intros [tb|]; [|done]. f_equal.
      apply foldr_step_skip. intros result.
      by apply merge_step_empty_bbox with b.
  - intros other b' bbox result raster Ho Hone Hskip Hv.
    apply merge_step_not_skipped; [done | tauto | done | done].
Qed.

Lemma merge_skips_empty_bbox_witness :
  (forall bbox result raster,
     merge_step (R := MergeSample.rgb) MergeSample.psd true Sample.never
                bbox result MergeSample.empty raster
     = ([], Ok result))
  /\ merge_layers (R := MergeSample.rgb) MergeSample.psd true Sample.never
       ([MergeSample.overhanging] ++ MergeSample.empty :: [MergeSample.multiplied])
       (Some MergeSample.canvas)
     = merge_layers (R := MergeSample.rgb) MergeSample.psd true Sample.never
         ([MergeSample.overhanging] ++ [MergeSample.multiplied])
         (Some MergeSample.canvas).
Proof.
  destruct (merge_skips_empty_bbox (R := MergeSample.rgb) MergeSample.psd true
              Sample.never [MergeSample.overhanging] MergeSample.empty
              [MergeSample.multiplied] (mkBBox 3 3 3 3)
              (Some MergeSample.canvas) eq_refl eq_refl eq_refl)
    as (Hstep & Hmerge & _).
  exact (conj Hstep Hmerge).
Defined.

(** C2 as stated fails for a box that is empty in one direction only. The
    layer of zero width and positive height is not skipped: the loop goes on
    to its blend mode and logs that it is not implemented. The layer of
    positive width and zero height is not skipped either: its raster is
    handed to the raster library to be pasted on the canvas. Merging the
    list without either layer logs nothing and leaves the canvas blank. *)
Lemma merge_one_empty_direction_counterexample :
  Layer_bbox MergeSample.psd MergeSample.thin = Ok (Some (mkBBox 0 0 0 5))
  /\ merge_layers (R := MergeSample.rgba) MergeSample.psd true Sample.never
       [MergeSample.thin] (Some MergeSample.canvas)
     = ([warning_blend_mode_not_implemented "MULTIPLY"],
        Ok (Some (Blank "RGBA" (10, 10))))
  /\ Layer_bbox MergeSample.psd MergeSample.flat = Ok (Some (mkBBox 0 0 5 0))
  /\ merge_layers (R := MergeSample.rgb) MergeSample.psd true Sample.never
       [MergeSample.flat] (Some MergeSample.canvas)
     = ([], Ok (Some (Pasted (Blank "RGBA" (10, 10))
                             (Faded (Pixels "RGB" (5, 0) (Some 1%nat)) 255)
                             (0, 0))))
  /\ merge_layers (R := MergeSample.rgb) MergeSample.psd true Sample.never
       [] (Some MergeSample.canvas)
     = ([], Ok (Some (Blank "RGBA" (10, 10)))).
Proof. split_and!; reflexivity. Qed.

Lemma merge_step_drawn_eq {R : Raster} psd respect_visibility skip_layer
    bbox result layer raster lb op bm log0 img log1 placed at_ :
  is_drawn psd respect_visibility skip_layer layer lb op bm ->
  raster = (log0, Ok (Some img)) ->
  fit_to_bbox bbox lb (apply_opacity img op) = (log1, Ok (placed, at_)) ->
  merge_step psd respect_visibility skip_layer bbox result layer raster
  = (log0 ++ log1 ++ (blend_onto result placed at_ bm).1,
     (blend_onto result placed at_ bm).2).
Proof.
  intros Hdrawn Hraster Hfit.
  rewrite (merge_step_drawn psd respect_visibility skip_layer bbox result
             layer raster lb op bm log0 img Hdrawn Hraster).
  rewrite Hfit. by rewrite !M_bind_Ok.
Qed.

(** A log written before a computation stays in front of what the
    computation and the loop after it write. *)
Lemma M_bind_prefix {A B} (log : list LogRecord) (m : M A) (f : A -> M B) :
  (log ++ m.1, m.2) ≫= f = (log ++ (m ≫= f).1, (m ≫= f).2).
Proof.
  rewrite !M_bind_unfold. simpl. destruct m.2; simpl; [|done].
  by rewrite app_assoc.
Qed.

Section DrawnLayers.
Context {R : Raster}.
Variable psd : PSDImage.
Variable respect_visibility : bool.
Variable skip_layer : Layer -> bool.

Lemma foldr_step_prefix bbox raster log (m : M Image) layers :
  foldr (merge_loop_step psd respect_visibility skip_layer raster bbox)
        (log ++ m.1, m.2) layers
  = (log ++ (foldr (merge_loop_step psd respect_visibility skip_layer raster
                                    bbox) m layers).1,
     (foldr (merge_loop_step psd respect_visibility skip_layer raster bbox)
            m layers).2).
Proof.
  induction layers as [|l layers IH]; [done|].
  simpl. rewrite IH. unfold merge_loop_step at 1 3 4. apply M_bind_prefix.
Qed.

Lemma foldr_step_from bbox raster log canvas layers :
  foldr (merge_loop_step psd respect_visibility skip_layer raster bbox)
        (log, Ok canvas) layers
  = (log ++ (foldr (merge_loop_step psd respect_visibility skip_layer raster
                                    bbox) (mret canvas) layers).1,
     (foldr (merge_loop_step psd respect_visibility skip_layer raster bbox)
            (mret canvas) layers).2).
Proof.
  rewrite <- (foldr_step_prefix bbox raster log (mret canvas) layers).
  simpl. by rewrite app_nil_r.
Qed.

(** The loop of a call with a target box that returned. *)
Lemma merge_layers_boxed_Ok_inv layers bbox log canvas :
  merge_layers psd respect_visibility skip_layer layers (Some bbox)
  = (log, Ok (Some canvas)) ->
  foldr (merge_loop_step psd respect_visibility skip_layer
           (layer_image psd respect_visibility skip_layer) bbox)
        (mret (Image_new "RGBA" (width bbox, height bbox))) layers
  = (log, Ok canvas).
Proof.
  rewrite merge_layers_unfold, M_bind_ret_l. intros H.
  apply M_bind_Ok_inv in H as (c & l1 & l2 & Hc & [= <- <-] & ->).
  by rewrite app_nil_r.
Qed.

(** A drawn layer on top of layers that were merged into [below]: the
    layers below are merged first, then the raster of the layer is fitted
    and blended onto [below]. *)
Lemma merge_layers_cons_drawn layer lb op bm log0 img bbox post logp below
    log1 placed at_ :
  is_drawn psd respect_visibility skip_layer layer lb op bm ->
  layer_image psd respect_visibility skip_layer layer = (log0, Ok (Some img)) ->
  merge_layers psd respect_visibility skip_layer post (Some bbox)
  = (logp, Ok (Some below)) ->
  fit_to_bbox bbox lb (apply_opacity img op) = (log1, Ok (placed, at_)) ->
  forall log2 above,
    blend_onto below placed at_ bm = (log2, Ok above) ->
    foldr (merge_loop_step psd respect_visibility skip_layer
             (layer_image psd respect_visibility skip_layer) bbox)
          (mret (Image_new "RGBA" (width bbox, height bbox))) (layer :: post)
    = (logp ++ log0 ++ log1 ++ log2, Ok above).
Proof.
  intros Hdrawn Hraster Hpost Hfit log2 above Hblend.
  apply merge_layers_boxed_Ok_inv in Hpost.
  simpl. rewrite Hpost. unfold merge_loop_step. rewrite M_bind_Ok.
  rewrite (merge_step_drawn_eq psd respect_visibility skip_layer bbox below
             layer _ lb op bm log0 img log1 placed at_ Hdrawn Hraster Hfit).
  by rewrite Hblend.
Qed.

Lemma merge_layers_of_loop layers bbox log canvas :
  foldr (merge_loop_step psd respect_visibility skip_layer
           (layer_image psd respect_visibility skip_layer) bbox)
        (mret (Image_new "RGBA" (width bbox, height bbox))) layers
  = (log, Ok canvas) ->
  merge_layers psd respect_visibility skip_layer layers (Some bbox)
  = (log, Ok (Some canvas)).
Proof.
  intros H. rewrite merge_layers_unfold, M_bind_ret_l, H, M_bind_Ok. simpl.
  by rewrite app_nil_r.
Qed.

(** A layer that leaves the canvas as it was: the layers above it are
    processed as if the layer were not in the list, and what it logged
    stands between the records of the layers below and of those above. *)
Lemma merge_layers_without_effect layer post bbox logp below loglayer pre :
  merge_layers psd respect_visibility skip_layer post (Some bbox)
  = (logp, Ok (Some below)) ->
  foldr (merge_loop_step psd respect_visibility skip_layer
           (layer_image psd respect_visibility skip_layer) bbox)
        (mret (Image_new "RGBA" (width bbox, height bbox))) (layer :: post)
  = (logp ++ loglayer, Ok below) ->
  exists logpre r,
    merge_layers psd respect_visibility skip_layer (pre ++ post) (Some bbox)
    = (logp ++ logpre, r) /\
    merge_layers psd respect_visibility skip_layer (pre ++ layer :: post)
                 (Some bbox)
    = (logp ++ loglayer ++ logpre, r).
Proof.
  intros Hpost Hlayer. apply merge_layers_boxed_Ok_inv in Hpost.
  set (rest := foldr (merge_loop_step psd respect_visibility skip_layer
                        (layer_image psd respect_visibility skip_layer) bbox)
                     (mret below) pre
               ≫= (fun result => mret (Some result))).
  exists rest.1, rest.2.
  rewrite !merge_layers_unfold, !M_bind_ret_l.
  rewrite !foldr_app. rewrite Hlayer, Hpost.
  rewrite !foldr_step_from, !M_bind_prefix. fold rest.
  by rewrite <- app_assoc.
Qed.
End DrawnLayers.

(** C4: in [merge_layers], a layer that is drawn with the normal blend mode
    is placed at the difference of the top left corners of its box and of
    the box of the canvas. A negative component of this offset is clamped
    to zero, and what hangs over the top or left edge is cropped from the
    raster before it is placed, the crop reaching to the full right and
    bottom extent of the raster; when no component is negative the raster
    is placed as it is. Passing the right or bottom edge of the canvas is
    only logged: the raster placed keeps its right and bottom part. The
    raster so fitted is pasted on, or composited over, the canvas that the
    layers below left, at the clamped offset. *)
Theorem merge_crops_top_left {R : Raster} psd respect_visibility skip_layer
    layer lb op log0 img bbox post logp below :
  is_drawn psd respect_visibility skip_layer layer lb op BlendMode.NORMAL ->
  layer_image psd respect_visibility skip_layer layer = (log0, Ok (Some img)) ->
  merge_layers psd respect_visibility skip_layer post (Some bbox)
  = (logp, Ok (Some below)) ->
  let faded := apply_opacity img op in
  let x := x1 lb - x1 bbox in
  let y := y1 lb - y1 bbox in
  let w := (image_size faded).1 in
  let h := (image_size faded).2 in
  let placed :=
    if (x <? 0) || (y <? 0)
    then image_crop faded (Z.max (- x) 0, Z.max (- y) 0, w, h)
    else faded in
  let at_ := (Z.max x 0, Z.max y 0) in
  let log1 :=
    (if (x <? 0) || (y <? 0)
     then [debug_cropping_overflow (Z.max (- x) 0) (Z.max (- y) 0)]
     else [])
    ++ (if (w + Z.max x 0 >? width bbox) || (h + Z.max y 0 >? height bbox)
        then [debug_cropping] else []) in
  (image_mode placed = "RGB" ->
   merge_layers psd respect_visibility skip_layer (layer :: post) (Some bbox)
   = (logp ++ log0 ++ log1, Ok (Some (image_paste below placed at_))))
  /\ (image_mode placed = "RGBA" ->
      merge_layers psd respect_visibility skip_layer (layer :: post)
                   (Some bbox)
      = (logp ++ log0 ++ log1,
         Ok (Some (alpha_composite below
                     (image_paste (Image_new "RGBA" (image_size below))
                                  placed at_))))).
Proof.
  intros Hdrawn Hraster Hpost faded x y w h placed at_ log1.
  pose proof (fit_to_bbox_eq bbox lb faded) as Hfit.
  cbv zeta in Hfit. fold x y w h in Hfit. fold placed at_ log1 in Hfit.
  destruct (blend_onto_cases below placed at_ BlendMode.NORMAL)
    as (Hrgba & Hrgb & _ & _).
  split; intros Hmode; apply merge_layers_of_loop.
  - rewrite (merge_layers_cons_drawn psd respect_visibility skip_layer layer
               lb op _ log0 img bbox post logp below log1 placed at_
               Hdrawn Hraster Hpost Hfit _ _ (Hrgb eq_refl Hmode)).
    by rewrite app_nil_r.
  - rewrite (merge_layers_cons_drawn psd respect_visibility skip_layer layer
               lb op _ log0 img bbox post logp below log1 placed at_
               Hdrawn Hraster Hpost Hfit _ _ (Hrgba eq_refl Hmode)).
    by rewrite app_nil_r.
Qed.

(** The example of the specification: the layer at (-5,-5,5,5), alone on
    the canvas (0,0,10,10). Its raster of 10 by 10 is cropped to the box
    (5,5,10,10) and the rest is pasted at the origin of the canvas. *)
Lemma merge_crops_top_left_witness :
  merge_layers (R := MergeSample.rgb) MergeSample.psd true Sample.never
    [MergeSample.overhanging] (Some MergeSample.canvas)
  = ([] ++ [] ++ [debug_cropping_overflow 5 5] ++ [],
     Ok (Some (Pasted (Blank "RGBA" (10, 10))
                      (Cropped (Faded (Pixels "RGB" (10, 10) (Some 2%nat)) 255)
                               (5, 5, 10, 10))
                      (0, 0)))).
Proof.
  apply (merge_crops_top_left (R := MergeSample.rgb) MergeSample.psd true
           Sample.never MergeSample.overhanging (mkBBox (-5) (-5) 5 5) 255
           [] (Pixels "RGB" (10, 10) (Some 2%nat)) MergeSample.canvas []
           [] (Blank "RGBA" (10, 10))).
  - unfold is_drawn. split_and!; try reflexivity.
    + intros [Hw _]. discriminate Hw.
    + exists true. split; [reflexivity | by left].
  - reflexivity.
  - reflexivity.
  - reflexivity.
Defined.

(** The same layer with a raster that carries an alpha channel is
    composited; a layer that passes the right and bottom edges of the
    canvas is logged and pasted whole. *)
Example merge_overhanging_sample :
  Layer_bbox MergeSample.psd MergeSample.overhanging
    = Ok (Some (mkBBox (-5) (-5) 5 5))
  /\ merge_layers (R := MergeSample.rgba) MergeSample.psd true Sample.never
       [MergeSample.overhanging] (Some MergeSample.canvas)
     = ([debug_cropping_overflow 5 5],
        Ok (Some (Composited
                    (Blank "RGBA" (10, 10))
                    (Pasted (Blank "RGBA" (10, 10))
                       (Cropped
                          (Faded (Pixels "RGBA" (10, 10) (Some 2%nat)) 255)
                          (5, 5, 10, 10))
                       (0, 0)))))
  /\ merge_layers (R := MergeSample.rgb) MergeSample.psd true Sample.never
       [MergeSample.overhanging] (Some (mkBBox (-8) (-8) 0 0))
     = ([debug_cropping],
        Ok (Some (Pasted (Blank "RGBA" (8, 8))
                         (Faded (Pixels "RGB" (10, 10) (Some 2%nat)) 255)
                         (3, 3)))).
Proof. split_and!; reflexivity. Qed.

(** A shape layer whose pixel data is irrelevant and whose literal box is
    empty is drawn as the polygon of its anchors in the colour of its solid
    colour sheet, with the opacity of the layer; without such a sheet a
    warning is logged and the polygon is black. The polygon is then
    composited at the corner of the box of the anchors. *)
Example merge_polygon_sample :
  layer_image (R := MergeSample.rgb) PolygonSample.psd true Sample.never
              PolygonSample.coloured
  = ([], Ok (Some (Polygon (mkBBox 1 2 7 14) (Some [(7, 7); (3, 14); (1, 2)])
                           (ColorRGBA 255 127 0 200))))
  /\ merge_layers (R := MergeSample.rgb) PolygonSample.psd true Sample.never
       [PolygonSample.plain] (Some (mkBBox 0 0 10 20))
     = ([warning_fill_not_supported],
        Ok (Some (Composited
                    (Blank "RGBA" (10, 20))
                    (Pasted (Blank "RGBA" (10, 20))
                       (Faded (Polygon (mkBBox 1 2 7 14)
                                       (Some [(7, 7); (3, 14); (1, 2)])
                                       (ColorName "black")) 200)
                       (1, 2))))).
Proof. split; vm_compute; reflexivity. Qed.

(** C8: in [merge_layers], a layer that is drawn is blended onto the canvas
    that the layers below left, according to its blend mode and to the
    mode of its fitted raster. With the normal blend mode a raster of mode
    RGBA is pasted on a fresh transparent canvas that is alpha-composited
    over the canvas, and a raster of mode RGB is pasted on the canvas
    directly. With the normal blend mode and any other raster mode, and
    with any other blend mode, one warning is logged, with the mode of the
    raster or the name of the blend mode, the canvas stays as the layers
    below left it, and the layers above are processed as they are without
    this layer: same result, same log but for the records of this layer. *)
Theorem blend_only_normal {R : Raster} psd respect_visibility skip_layer
    layer lb op bm log0 img bbox post logp below :
  is_drawn psd respect_visibility skip_layer layer lb op bm ->
  layer_image psd respect_visibility skip_layer layer = (log0, Ok (Some img)) ->
  merge_layers psd respect_visibility skip_layer post (Some bbox)
  = (logp, Ok (Some below)) ->
  let faded := apply_opacity img op in
  let x := x1 lb - x1 bbox in
  let y := y1 lb - y1 bbox in
  let w := (image_size faded).1 in
  let h := (image_size faded).2 in
  let placed :=
    if (x <? 0) || (y <? 0)
    then image_crop faded (Z.max (- x) 0, Z.max (- y) 0, w, h)
    else faded in
  let at_ := (Z.max x 0, Z.max y 0) in
  let log1 :=
    (if (x <? 0) || (y <? 0)
     then [debug_cropping_overflow (Z.max (- x) 0) (Z.max (- y) 0)]
     else [])
    ++ (if (w + Z.max x 0 >? width bbox) || (h + Z.max y 0 >? height bbox)
        then [debug_cropping] else []) in
  let excluded (diagnosis : LogRecord) :=
    merge_layers psd respect_visibility skip_layer (layer :: post) (Some bbox)
    = (logp ++ log0 ++ log1 ++ [diagnosis], Ok (Some below))
    /\ forall pre, exists logpre r,
         merge_layers psd respect_visibility skip_layer (pre ++ post)
                      (Some bbox)
         = (logp ++ logpre, r) /\
         merge_layers psd respect_visibility skip_layer
                      (pre ++ layer :: post) (Some bbox)
         = (logp ++ (log0 ++ log1 ++ [diagnosis]) ++ logpre, r) in
  (bm = BlendMode.NORMAL -> image_mode placed = "RGBA" ->
   merge_layers psd respect_visibility skip_layer (layer :: post) (Some bbox)
   = (logp ++ log0 ++ log1,
      Ok (Some (alpha_composite below
                  (image_paste (Image_new "RGBA" (image_size below))
                               placed at_)))))
  /\ (bm = BlendMode.NORMAL -> image_mode placed = "RGB" ->
      merge_layers psd respect_visibility skip_layer (layer :: post)
                   (Some bbox)
      = (logp ++ log0 ++ log1, Ok (Some (image_paste below placed at_))))
  /\ (bm = BlendMode.NORMAL ->
      image_mode placed <> "RGBA" -> image_mode placed <> "RGB" ->
      excluded (warning_mode_unsupported (image_mode placed)))
  /\ (bm <> BlendMode.NORMAL ->
      excluded (warning_blend_mode_not_implemented (BlendMode_name_of bm))).
Proof.
  intros Hdrawn Hraster Hpost faded x y w h placed at_ log1 excluded.
  pose proof (fit_to_bbox_eq bbox lb faded) as Hfit.
  cbv zeta in Hfit. fold x y w h in Hfit. fold placed at_ log1 in Hfit.
  destruct (blend_onto_cases below placed at_ bm)
    as (Hrgba & Hrgb & Hmode & Hblend).
  pose proof (merge_layers_cons_drawn psd respect_visibility skip_layer layer
                lb op bm log0 img bbox post logp below log1 placed at_
                Hdrawn Hraster Hpost Hfit) as Hcons.
  assert (forall diagnosis,
            blend_onto below placed at_ bm = ([diagnosis], Ok below) ->
            excluded diagnosis) as Hexcluded.
  { intros diagnosis Hb. specialize (Hcons _ _ Hb). split.
    - by apply merge_layers_of_loop.
    - intros pre.
      apply (merge_layers_without_effect psd respect_visibility skip_layer
               layer post bbox logp below (log0 ++ log1 ++ [diagnosis]) pre
               Hpost).
      exact Hcons. }
  split_and!.
  - intros Hb Hm. apply merge_layers_of_loop.
    rewrite (Hcons _ _ (Hrgba Hb Hm)). by rewrite app_nil_r.
  - intros Hb Hm. apply merge_layers_of_loop.
    rewrite (Hcons _ _ (Hrgb Hb Hm)). by rewrite app_nil_r.
  - intros Hb Hm1 Hm2. apply Hexcluded. by apply Hmode.
  - intros Hb. apply Hexcluded. by apply Hblend.
Qed.

(** Two layers on the canvas: the upper one has a blend mode that is not
    implemented, the lower one hangs over the top left corner. The lower
    layer is drawn, then the upper one is diagnosed and the canvas stays as
    the lower layer left it; a layer put above the two is drawn on that
    canvas. *)
Lemma blend_only_normal_witness :
  let below :=
    Pasted (Blank "RGBA" (10, 10))
           (Cropped (Faded (Pixels "RGB" (10, 10) (Some 2%nat)) 255)
                    (5, 5, 10, 10))
           (0, 0) in
  merge_layers (R := MergeSample.rgb) MergeSample.psd true Sample.never
    [MergeSample.multiplied; MergeSample.overhanging] (Some MergeSample.canvas)
  = ([debug_cropping_overflow 5 5] ++ [] ++ ([] ++ [])
       ++ [warning_blend_mode_not_implemented "MULTIPLY"],
     Ok (Some below))
  /\ forall pre, exists logpre r,
       merge_layers (R := MergeSample.rgb) MergeSample.psd true Sample.never
         (pre ++ [MergeSample.overhanging]) (Some MergeSample.canvas)
       = ([debug_cropping_overflow 5 5] ++ logpre, r) /\
       merge_layers (R := MergeSample.rgb) MergeSample.psd true Sample.never
         (pre ++ MergeSample.multiplied :: [MergeSample.overhanging])
         (Some MergeSample.canvas)
       = ([debug_cropping_overflow 5 5]
            ++ ([] ++ ([] ++ [])
                  ++ [warning_blend_mode_not_implemented "MULTIPLY"])
            ++ logpre, r).
Proof.
  intros below.
  destruct (blend_only_normal (R := MergeSample.rgb) MergeSample.psd true
              Sample.never MergeSample.multiplied (mkBBox 0 0 4 4) 255 "mul "
              [] (Pixels "RGB" (4, 4) (Some 3%nat)) MergeSample.canvas
              [MergeSample.overhanging] [debug_cropping_overflow 5 5] below)
    as (_ & _ & _ & Hexcluded).
  - unfold is_drawn. split_and!; try reflexivity.
    + intros [Hw _]. discriminate Hw.
    + exists true. split; [reflexivity | by left].
  - reflexivity.
  - reflexivity.
  - apply Hexcluded. discriminate.
Defined.

(** The sample as [merge_layers] evaluates it, and with a third layer on
    top of the two: the canvas on which it is pasted is the one that the
    lowest layer left. *)
Example merge_unsupported_blend_sample :
  merge_layers (R := MergeSample.rgb) MergeSample.psd true Sample.never
    [MergeSample.multiplied; MergeSample.overhanging] (Some MergeSample.canvas)
  = ([debug_cropping_overflow 5 5;
      warning_blend_mode_not_implemented "MULTIPLY"],
     Ok (Some (Pasted (Blank "RGBA" (10, 10))
                      (Cropped (Faded (Pixels "RGB" (10, 10) (Some 2%nat)) 255)
                               (5, 5, 10, 10))
                      (0, 0))))
  /\ merge_layers (R := MergeSample.rgb) MergeSample.psd true Sample.never
       [MergeSample.flat; MergeSample.multiplied; MergeSample.overhanging]
       (Some MergeSample.canvas)
     = ([debug_cropping_overflow 5 5;
         warning_blend_mode_not_implemented "MULTIPLY"],
        Ok (Some (Pasted
                    (Pasted (Blank "RGBA" (10, 10))
                       (Cropped
                          (Faded (Pixels "RGB" (10, 10) (Some 2%nat)) 255)
                          (5, 5, 10, 10))
                       (0, 0))
                    (Faded (Pixels "RGB" (5, 0) (Some 1%nat)) 255)
                    (0, 0)))).
Proof. split; reflexivity. Qed.

(* ===================================================================== *)
(** * Further properties *)
(* ===================================================================== *)

(** ** Bounding boxes of lists and groups *)

Lemma bbox_eq (b b' : BBox Z) :
  x1 b = x1 b' -> y1 b = y1 b' -> x2 b = x2 b' -> y2 b = y2 b' -> b = b'.
Proof. destruct b, b'; simpl; congruence. Qed.

(** A family has at most one envelope. *)
Lemma envelope_of_boxes_unique b b' (S : BBox Z -> Prop) :
  envelope_of_boxes b S -> envelope_of_boxes b' S -> b = b'.
Proof.
  intros (H & (k1 & S1 & E1) & (k2 & S2 & E2) & (k3 & S3 & E3) & (k4 & S4 & E4))
         (H' & (j1 & T1 & F1) & (j2 & T2 & F2) & (j3 & T3 & F3) & (j4 & T4 & F4)).
  pose proof (H _ T1). pose proof (H _ T2). pose proof (H _ T3). pose proof (H _ T4).
  pose proof (H' _ S1). pose proof (H' _ S2). pose proof (H' _ S3). pose proof (H' _ S4).
  apply bbox_eq; lia.
Qed.

Lemma envelope_of_boxes_ext b (S T : BBox Z -> Prop) :
  (forall k, S k <-> T k) -> envelope_of_boxes b S -> envelope_of_boxes b T.
Proof.
  intros HST (H & (k1 & S1 & E1) & (k2 & S2 & E2) & (k3 & S3 & E3) & (k4 & S4 & E4)).
  unfold envelope_of_boxes. split_and!.
  - intros k Hk. apply H. by apply HST.
  - exists k1. split; [by apply HST | done].
  - exists k2. split; [by apply HST | done].
  - exists k3. split; [by apply HST | done].
  - exists k4. split; [by apply HST | done].
Qed.

Lemma combined_bbox_of_kept bs bs' :
  kept_bboxes bs = kept_bboxes bs' -> combined_bbox_of bs = combined_bbox_of bs'.
Proof. unfold combined_bbox_of. by intros ->. Qed.

Lemma kept_bboxes_app bs1 bs2 :
  kept_bboxes (bs1 ++ bs2) = kept_bboxes bs1 ++ kept_bboxes bs2.
Proof. unfold kept_bboxes. by rewrite omap_app, filter_app. Qed.

(** [combined_bbox_of] never raises, and a box it returns has positive width
    and height. *)
Lemma combined_bbox_of_positive bs :
  exists r, combined_bbox_of bs = Ok r /\
            forall b, r = Some b -> 0 < width b /\ 0 < height b.
Proof.
  pose proof (combined_bbox_of_spec bs) as Hspec.
  destruct (kept_bboxes bs) as [|k ks] eqn:Hk.
  - exists None. split; [done|]. discriminate.
  - destruct Hspec as (b & Hb & Henv & _). exists (Some b). split; [done|].
    intros ? [= <-].
    assert (k ∈ kept_bboxes bs) as Hin by (rewrite Hk; apply list_elem_of_here).
    rewrite <- Hk in Henv. specialize (Henv k Hin).
    apply elem_of_kept_bboxes in Hin as (_ & Hw & Hh).
    unfold width, height in *. lia.
Qed.

Lemma combined_bbox_of_app bs1 bs2 r1 r2 :
  combined_bbox_of bs1 = Ok r1 -> combined_bbox_of bs2 = Ok r2 ->
  combined_bbox_of (bs1 ++ bs2) = Ok (bbox_join r1 r2).
Proof.
  intros H1 H2.
  pose proof (combined_bbox_of_spec bs1) as S1.
  pose proof (combined_bbox_of_spec bs2) as S2.
  pose proof (combined_bbox_of_spec (bs1 ++ bs2)) as S12.
  rewrite kept_bboxes_app in S12.
  destruct (kept_bboxes bs1) as [|k1 ks1] eqn:K1.
  - rewrite H1 in S1. injection S1 as ->. simpl.
    rewrite (combined_bbox_of_kept (bs1 ++ bs2) bs2); [by destruct r2|].
    by rewrite kept_bboxes_app, K1.
  - destruct S1 as (p & Hp & Ep). rewrite H1 in Hp. injection Hp as ->.
    destruct (kept_bboxes bs2) as [|k2 ks2] eqn:K2.
    + rewrite H2 in S2. injection S2 as ->. simpl.
      rewrite (combined_bbox_of_kept (bs1 ++ bs2) bs1); [done|].
      by rewrite kept_bboxes_app, K2, app_nil_r.
    + destruct S2 as (q & Hq & Eq). rewrite H2 in Hq. injection Hq as ->.
      simpl in S12. destruct S12 as (b & -> & Eb). simpl. do 2 f_equal.
      eapply envelope_of_boxes_unique; [exact Eb|].
      destruct Ep as (P & (p1 & Pp1 & Ep1) & (p2 & Pp2 & Ep2)
                      & (p3 & Pp3 & Ep3) & (p4 & Pp4 & Ep4)).
      destruct Eq as (Q & (q1 & Qq1 & Eq1) & (q2 & Qq2 & Eq2)
                      & (q3 & Qq3 & Eq3) & (q4 & Qq4 & Eq4)).
      apply (envelope_of_boxes_ext _
               (fun k => k ∈ k1 :: ks1 \/ k ∈ k2 :: ks2)).
      { intros k.
        change (k1 :: ks1 ++ k2 :: ks2) with ((k1 :: ks1) ++ k2 :: ks2).
        by rewrite elem_of_app. }
      unfold envelope_of_boxes. cbn [x1 y1 x2 y2]. split_and!.
      * intros k [Hk|Hk].
        -- specialize (P k Hk). lia.
        -- specialize (Q k Hk). lia.
      * destruct (Z.min_spec (x1 p) (x1 q)) as [[_ ->]|[_ ->]];
          [exists p1 | exists q1]; (split; [auto | done]).
      * destruct (Z.min_spec (y1 p) (y1 q)) as [[_ ->]|[_ ->]];
          [exists p2 | exists q2]; (split; [auto | done]).
      * destruct (Z.max_spec (x2 p) (x2 q)) as [[_ ->]|[_ ->]];
          [exists q3 | exists p3]; (split; [auto | done]).
      * destruct (Z.max_spec (y2 p) (y2 q)) as [[_ ->]|[_ ->]];
          [exists q4 | exists p4]; (split; [auto | done]).
Qed.

Lemma combined_bbox_app psd l1 l2 :
  combined_bbox psd (l1 ++ l2)
  = (a ← combined_bbox psd l1; b ← combined_bbox psd l2; Ok (bbox_join a b)).
Proof.
  unfold combined_bbox, combined_bbox_with. rewrite mapR_app.
  destruct (mapR (Layer_bbox psd) l1) as [bs1|e]; simpl; [|done].
  destruct (combined_bbox_of_positive bs1) as (r1 & H1 & _).
  destruct (mapR (Layer_bbox psd) l2) as [bs2|e]; simpl.
  - destruct (combined_bbox_of_positive bs2) as (r2 & H2 & _).
    rewrite H1, H2. simpl. by apply combined_bbox_of_app.
  - by rewrite H1.
Qed.

Lemma combined_bbox_result_positive psd layers b :
  combined_bbox psd layers = Ok (Some b) -> 0 < width b /\ 0 < height b.
Proof.
  unfold combined_bbox, combined_bbox_with. intros H.
  apply result_bind_Ok_inv in H as (bs & _ & H).
  destruct (combined_bbox_of_positive bs) as (r & Hr & Hpos).
  rewrite Hr in H. injection H as ->. by apply Hpos.
Qed.

(** The box of a group, as a one-element list: the group survives the filter
    exactly when it has a box. *)
Lemma combined_bbox_group psd g :
  is_group (layer_cls g) = true ->
  combined_bbox psd [g] = combined_bbox psd (layer_layers g).
Proof.
  intros Hg. pose proof (combined_bbox_singleton psd g) as Hs.
  assert (Layer_bbox psd g = combined_bbox psd (layer_layers g)) as Hb.
  { destruct g as [c p i ls cs]. simpl in *. by rewrite Hg. }
  rewrite Hb in Hs.
  destruct (combined_bbox psd (layer_layers g)) as [[b|]|e] eqn:Hc; try done.
  rewrite Hs. destruct (combined_bbox_result_positive _ _ _ Hc) as [Hw Hh].
  unfold bbox_positive.
  by rewrite (proj2 (Z.ltb_lt 0 (width b)) Hw), (proj2 (Z.ltb_lt 0 (height b)) Hh).
Qed.

Lemma Layer_nested_ind (P : Layer -> Prop) :
  (forall c p i ls cs, Forall P ls -> Forall P cs -> P (mk_layer c p i ls cs)) ->
  forall l, P l.
Proof.
  intros H. fix IH 1. intros [c p i ls cs]. apply H.
  - induction ls as [|x xs IHxs]; constructor; [apply IH | apply IHxs].
  - induction cs as [|x xs IHxs]; constructor; [apply IH | apply IHxs].
Qed.

Lemma combined_bbox_cons psd l layers :
  combined_bbox psd (l :: layers)
  = (a ← combined_bbox psd [l]; b ← combined_bbox psd layers;
     Ok (bbox_join a b)).
Proof. apply (combined_bbox_app psd [l] layers). Qed.

Lemma combined_bbox_defined psd layers :
  bboxes_defined psd layers -> exists r, combined_bbox psd layers = Ok r.
Proof.
  intros Hdef. destruct (mapR_defined _ _ Hdef) as [bs Hbs].
  destruct (combined_bbox_of_positive bs) as (r & Hr & _).
  exists r. unfold combined_bbox, combined_bbox_with. by rewrite Hbs.
Qed.

Lemma bbox_join_swap a b c :
  bbox_join a (bbox_join b c) = bbox_join b (bbox_join a c).
Proof.
  destruct a as [[]|], b as [[]|], c as [[]|]; simpl; try done;
    f_equal; apply bbox_eq; simpl; lia.
Qed.

Lemma combined_bbox_flat_map_leaves psd layers :
  Forall (fun l => combined_bbox psd [l] = combined_bbox psd (leaves l)) layers ->
  combined_bbox psd layers = combined_bbox psd (flat_map leaves layers).
Proof.
  induction 1 as [|l ls Hl _ IH]; [done|].
  simpl. rewrite combined_bbox_cons, combined_bbox_app. by rewrite Hl, IH.
Qed.

Lemma combined_bbox_leaves psd l :
  combined_bbox psd [l] = combined_bbox psd (leaves l).
Proof.
  induction l as [c p i ls cs IHls _] using Layer_nested_ind.
  simpl. destruct (is_group c) eqn:Hc; [|done].
  rewrite combined_bbox_group by done. simpl.
  by apply combined_bbox_flat_map_leaves.
Qed.

(** X1: a box that [combined_bbox] returns has positive width and positive
    height; so has the box of a group and of the document, which are
    [combined_bbox] of their layers. *)
Theorem combined_bbox_never_degenerate psd layers b :
  combined_bbox psd layers = Ok (Some b) -> 0 < width b /\ 0 < height b.
Proof. apply combined_bbox_result_positive. Qed.

Lemma combined_bbox_never_degenerate_witness :
  0 < width (mkBBox 0 0 11 12) /\ 0 < height (mkBBox 0 0 11 12).
Proof.
  apply (combined_bbox_never_degenerate NestedSample.psd
           (layer_layers NestedSample.root)).
  reflexivity.
Defined.

(** X2: [combined_bbox] of two lists put end to end is the smallest box
    around the boxes of the two lists; it raises what the first list
    raises, else what the second raises. *)
Theorem combined_bbox_concat psd l1 l2 :
  combined_bbox psd (l1 ++ l2)
  = (a ← combined_bbox psd l1; b ← combined_bbox psd l2; Ok (bbox_join a b)).
Proof. apply combined_bbox_app. Qed.

(** X3: when [layer.bbox] has a value for every layer, [combined_bbox] does
    not depend on the order of the list. *)
Theorem combined_bbox_permutation psd layers layers' :
  layers ≡ₚ layers' ->
  bboxes_defined psd layers ->
  combined_bbox psd layers = combined_bbox psd layers'.
Proof.
  induction 1 as [|x l l' Hp IH|x y l|l l' l'' Hp1 IH1 Hp2 IH2]; intros Hdef.
  - done.
  - rewrite (combined_bbox_cons psd x l), (combined_bbox_cons psd x l').
    rewrite IH; [done|]. by apply Forall_cons in Hdef as [_ ?].
  - rewrite (combined_bbox_cons psd y (x :: l)), (combined_bbox_cons psd x l),
      (combined_bbox_cons psd x (y :: l)), (combined_bbox_cons psd y l).
    apply Forall_cons in Hdef as [Hy Hdef]. apply Forall_cons in Hdef as [Hx Hdef].
    destruct (combined_bbox_defined psd [y]) as [a ->];
      [by apply Forall_singleton|].
    destruct (combined_bbox_defined psd [x]) as [b ->];
      [by apply Forall_singleton|].
    destruct (combined_bbox_defined psd l Hdef) as [c ->].
    simpl. f_equal. apply bbox_join_swap.
  - rewrite IH1 by done. apply IH2. unfold bboxes_defined in *.
    by rewrite <- Hp1.
Qed.

Lemma combined_bbox_permutation_witness :
  combined_bbox NestedSample.psd [NestedSample.top; NestedSample.outer;
                                  NestedSample.bottom]
  = combined_bbox NestedSample.psd [NestedSample.bottom; NestedSample.top;
                                    NestedSample.outer].
Proof.
  apply combined_bbox_permutation.
  - symmetry.
    apply (Permutation_cons_append [NestedSample.top; NestedSample.outer]
             NestedSample.bottom).
  - unfold bboxes_defined.
    repeat (apply Forall_cons; split; [eexists; reflexivity|]).
    by apply Forall_nil.
Defined.

(** X4: grouping does not change the box: [combined_bbox] of a list equals
    [combined_bbox] of the layers that are not groups, found through the
    groups of the list at every depth; in particular the box of a group is
    the box of the layers below it, and raises when one of them raises. *)
Theorem combined_bbox_ignores_grouping psd layers :
  combined_bbox psd layers = combined_bbox psd (flat_map leaves layers).
Proof.
  apply combined_bbox_flat_map_leaves.
  apply Forall_forall. intros l _. apply combined_bbox_leaves.
Qed.

(** In the sample the document box is the box around the four pixel layers,
    two of which sit in nested groups. *)
Example combined_bbox_nested_sample :
  flat_map leaves (layer_layers NestedSample.root)
  = [NestedSample.top; NestedSample.side; NestedSample.deep; NestedSample.bottom]
  /\ PSDImage_bbox NestedSample.psd NestedSample.root
     = Ok (Some (mkBBox 0 0 11 12)).
Proof. split; reflexivity. Qed.

(** ** Layers that the compositor skips or cannot draw *)

Section SkippedLayers.
Context {R : Raster}.
Variable psd : PSDImage.
Variable respect_visibility : bool.
Variable skip_layer : Layer -> bool.

Lemma merge_step_skipped layer bbox result raster :
  is_skipped psd respect_visibility skip_layer layer ->
  merge_step psd respect_visibility skip_layer bbox result layer raster
  = mret result.
Proof.
  intros (b & Hb & Hwhy). unfold merge_step. rewrite Hb, M_bind_lift_Ok.
  destruct (bbox_is_empty b) eqn:He; [done|].
  destruct Hwhy as [[Hw Hh]|[Hs|[Hv ->]]].
  - unfold bbox_is_empty in He. rewrite Hw, Hh in He. done.
  - by rewrite Hs.
  - destruct (skip_layer layer); [done|]. by rewrite Hv, M_bind_lift_Ok.
Qed.

Lemma foldr_all_skipped bbox raster layers (init : M Image) :
  Forall (is_skipped psd respect_visibility skip_layer) layers ->
  foldr (merge_loop_step psd respect_visibility skip_layer raster bbox) init
        layers = init.
Proof.
  induction 1 as [|l ls Hl _ IH]; [done|].
  simpl. rewrite IH. unfold merge_loop_step.
  rewrite (M_bind_ext _ _ mret); [apply M_bind_ret_r|].
  intros result. by apply merge_step_skipped.
Qed.

Lemma is_skipped_bboxes_defined layers :
  Forall (is_skipped psd respect_visibility skip_layer) layers ->
  bboxes_defined psd layers.
Proof.
  unfold bboxes_defined. intros H. eapply Forall_impl; [exact H|].
  intros l (b & Hb & _). eauto.
Qed.

(** A step at a layer without a box raises AttributeError. *)
Lemma merge_step_no_bbox layer bbox result raster :
  Layer_bbox psd layer = Ok None ->
  merge_step psd respect_visibility skip_layer bbox result layer raster
  = ([], Raise AttributeError).
Proof. intros Hb. unfold merge_step. by rewrite Hb, M_bind_lift_Ok. Qed.

Lemma foldr_Raise bbox raster layers log e :
  foldr (merge_loop_step psd respect_visibility skip_layer raster bbox)
        (log, Raise e) layers = (log, Raise e).
Proof.
  induction layers as [|l ls IH]; [done|]. simpl. by rewrite IH.
Qed.

(** The loop over a list that holds a layer without a box: it ends with the
    exception of the layers below, or with AttributeError at this layer. *)
Lemma foldr_no_bbox bbox raster pre layer post init :
  Layer_bbox psd layer = Ok None ->
  exists log e,
    foldr (merge_loop_step psd respect_visibility skip_layer raster bbox) init
          (pre ++ layer :: post) = (log, Raise e) /\
    (forall log' c,
       foldr (merge_loop_step psd respect_visibility skip_layer raster bbox)
             init post = (log', Ok c) ->
       log = log' /\ e = AttributeError).
Proof.
  intros Hb. rewrite foldr_app. simpl.
  destruct (foldr (merge_loop_step psd respect_visibility skip_layer raster
                                   bbox) init post) as [l [c|e]] eqn:Hpost.
  - exists l, AttributeError. split.
    + unfold merge_loop_step at 2. rewrite M_bind_Ok.
      rewrite merge_step_no_bbox by done. simpl. rewrite app_nil_r.
      apply foldr_Raise.
    + by intros log' c' [= <- <-].
  - exists l, e. split; [|discriminate].
    unfold merge_loop_step at 2. rewrite M_bind_Raise. apply foldr_Raise.
Qed.
End SkippedLayers.

(** X5: when the loop skips every layer of the list (each has a box and is
    empty in both directions, excluded, or hidden while visibility is
    respected), [merge_layers] logs nothing and returns the blank canvas: of
    the size of the target box when one is given; else of the size of the
    combined box of the list, to which hidden and excluded layers still
    contribute, or [None] when there is no such box. *)
Theorem merge_all_skipped {R : Raster} psd respect_visibility skip_layer
    layers :
  Forall (is_skipped psd respect_visibility skip_layer) layers ->
  (forall b,
     merge_layers psd respect_visibility skip_layer layers (Some b)
     = ([], Ok (Some (Image_new "RGBA" (width b, height b)))))
  /\ exists r,
       combined_bbox psd layers = Ok r /\
       merge_layers psd respect_visibility skip_layer layers None
       = ([], Ok ((fun b => Image_new "RGBA" (width b, height b)) <$> r)).
Proof.
  intros Hall. split.
  - intros b. rewrite merge_layers_unfold, M_bind_ret_l.
    by rewrite foldr_all_skipped.
  - destruct (combined_bbox_defined psd layers) as [r Hr].
    { by eapply is_skipped_bboxes_defined. }
    exists r. split; [done|].
    rewrite merge_layers_unfold, Hr, M_bind_lift_Ok.
    destruct r as [b|]; [|done]. by rewrite foldr_all_skipped.
Qed.

Lemma merge_all_skipped_witness :
  (forall b,
     merge_layers (R := MergeSample.rgb) SkipSample.psd true Sample.never
                  [SkipSample.hidden1; SkipSample.hidden2] (Some b)
     = ([], Ok (Some (Blank "RGBA" (width b, height b)))))
  /\ exists r,
       combined_bbox SkipSample.psd [SkipSample.hidden1; SkipSample.hidden2]
       = Ok r /\
       merge_layers (R := MergeSample.rgb) SkipSample.psd true Sample.never
                    [SkipSample.hidden1; SkipSample.hidden2] None
       = ([], Ok ((fun b => Blank "RGBA" (width b, height b)) <$> r)).
Proof.
  apply (merge_all_skipped (R := MergeSample.rgb) SkipSample.psd true
           Sample.never [SkipSample.hidden1; SkipSample.hidden2]).
  apply Forall_cons; split; [|apply Forall_cons; split; [|by apply Forall_nil]].
  - exists (mkBBox 1 1 3 3). split; [reflexivity|]. right. right.
    split; reflexivity.
  - exists (mkBBox 2 2 8 9). split; [reflexivity|]. right. right.
    split; reflexivity.
Defined.

(** Without a target box the two hidden layers of the sample give a blank
    canvas of 7 by 8, the size of their combined box. *)
Example merge_hidden_sample :
  merge_layers (R := MergeSample.rgb) SkipSample.psd true Sample.never
               [SkipSample.hidden1; SkipSample.hidden2] None
  = ([], Ok (Some (Blank "RGBA" (7, 8)))).
Proof. reflexivity. Qed.

(** X6: with a target box, a layer that the loop skips can be taken out of
    the list at any position without changing the result or the log of
    [merge_layers]. *)
Theorem merge_drops_skipped {R : Raster} psd respect_visibility skip_layer
    pre layer post b :
  is_skipped psd respect_visibility skip_layer layer ->
  merge_layers psd respect_visibility skip_layer (pre ++ layer :: post) (Some b)
  = merge_layers psd respect_visibility skip_layer (pre ++ post) (Some b).
Proof.
  intros Hs. rewrite !merge_layers_unfold, !M_bind_ret_l. f_equal.
  apply foldr_step_skip. intros result. by apply merge_step_skipped.
Qed.

Lemma merge_drops_skipped_witness :
  merge_layers (R := MergeSample.rgb) SkipSample.psd true Sample.never
    ([SkipSample.pixels] ++ SkipSample.hidden2 :: []) (Some MergeSample.canvas)
  = merge_layers (R := MergeSample.rgb) SkipSample.psd true Sample.never
      ([SkipSample.pixels] ++ []) (Some MergeSample.canvas).
Proof.
  apply (merge_drops_skipped (R := MergeSample.rgb)).
  exists (mkBBox 2 2 8 9). split; [reflexivity|]. right. right.
  split; reflexivity.
Defined.

(** X7: a layer whose box is [None], that is a group none of whose layers
    has a box of positive width and height, makes [merge_layers] fail: with
    a target box it raises, with AttributeError when the layers below were
    merged without exception, and for no target does it return an image. *)
Theorem merge_fails_on_layer_without_bbox {R : Raster} psd respect_visibility
    skip_layer pre layer post :
  Layer_bbox psd layer = Ok None ->
  (forall b, exists log e,
     merge_layers psd respect_visibility skip_layer (pre ++ layer :: post)
                  (Some b) = (log, Raise e) /\
     (forall log' c,
        merge_layers psd respect_visibility skip_layer post (Some b)
        = (log', Ok c) ->
        log = log' /\ e = AttributeError))
  /\ (forall target log img,
        merge_layers psd respect_visibility skip_layer (pre ++ layer :: post)
                     target <> (log, Ok (Some img))).
Proof.
  intros Hb.
  assert (forall b, exists log e,
     merge_layers psd respect_visibility skip_layer (pre ++ layer :: post)
                  (Some b) = (log, Raise e) /\
     (forall log' c,
        merge_layers psd respect_visibility skip_layer post (Some b)
        = (log', Ok c) ->
        log = log' /\ e = AttributeError)) as Htarget.
  { intros b.
    destruct (foldr_no_bbox psd respect_visibility skip_layer b
                (layer_image psd respect_visibility skip_layer) pre layer post
                (mret (Image_new "RGBA" (width b, height b))) Hb)
      as (log & e & Hfold & Hpost).
    exists log, e. split.
    - rewrite merge_layers_unfold, M_bind_ret_l. by rewrite Hfold.
    - intros log' c. rewrite merge_layers_unfold, M_bind_ret_l. intros H.
      apply M_bind_Ok_inv in H as (c' & l1 & l2 & Hc' & [= <- _] & ->).
      rewrite app_nil_r. by apply (Hpost l1 c'). }
  split; [exact Htarget|].
  intros [b|] log img H.
  - destruct (Htarget b) as (log' & e & He & _). congruence.
  - rewrite merge_layers_unfold in H.
    apply M_bind_Ok_inv in H as (r & l1 & l2 & Hr & H & ->).
    destruct r as [b|]; [|by injection H].
    destruct (foldr_no_bbox psd respect_visibility skip_layer b
                (layer_image psd respect_visibility skip_layer) pre layer post
                (mret (Image_new "RGBA" (width b, height b))) Hb)
      as (log' & e & Hfold & _).
    rewrite Hfold in H. discriminate.
Qed.

Lemma merge_fails_on_layer_without_bbox_witness :
  (forall b, exists log e,
     merge_layers (R := MergeSample.rgb) SkipSample.psd true Sample.never
                  ([] ++ SkipSample.hollow :: [SkipSample.pixels]) (Some b)
     = (log, Raise e) /\
     (forall log' c,
        merge_layers (R := MergeSample.rgb) SkipSample.psd true Sample.never
                     [SkipSample.pixels] (Some b) = (log', Ok c) ->
        log = log' /\ e = AttributeError))
  /\ (forall target log img,
        merge_layers (R := MergeSample.rgb) SkipSample.psd true Sample.never
                     ([] ++ SkipSample.hollow :: [SkipSample.pixels]) target
        <> (log, Ok (Some img))).
Proof.
  apply (merge_fails_on_layer_without_bbox (R := MergeSample.rgb)).
  reflexivity.
Defined.

(** In the sample the document holds a group without layers above a pixel
    layer: [as_PIL_merged] raises AttributeError, and so does merging the
    two layers without a target box. *)
Example merge_hollow_group_sample :
  PSDImage_as_PIL_merged (R := MergeSample.rgb) SkipSample.psd SkipSample.root
  = ([], Raise AttributeError)
  /\ merge_layers (R := MergeSample.rgb) SkipSample.psd true Sample.never
                  [SkipSample.hollow; SkipSample.pixels] None
     = ([], Raise AttributeError).
Proof. split; reflexivity. Qed.

(** ** The size of the canvas *)

Section CanvasSize.
Context {R : Raster}.
Variable psd : PSDImage.
Variable respect_visibility : bool.
Variable skip_layer : Layer -> bool.
Hypothesis Hsize : raster_keeps_size R.

Lemma blend_onto_size result img at_ bm log r :
  blend_onto result img at_ bm = (log, Ok r) ->
  image_size r = image_size result.
Proof.
  destruct Hsize as (_ & Hpaste & Hcomp). unfold blend_onto.
  destruct (String.eqb bm BlendMode.NORMAL).
  - destruct (String.eqb (image_mode img) "RGBA").
    + intros [= _ <-]. apply Hcomp.
    + destruct (String.eqb (image_mode img) "RGB").
      * intros [= _ <-]. apply Hpaste.
      * rewrite M_bind_unfold. simpl. by intros [= _ <-].
  - rewrite M_bind_unfold. simpl. by intros [= _ <-].
Qed.

Lemma draw_layer_size bbox lb result layer li log r :
  draw_layer psd bbox lb result layer li = (log, Ok r) ->
  image_size r = image_size result.
Proof.
  unfold draw_layer. intros H.
  apply M_bind_Ok_inv in H as (op & l1 & l2 & _ & H & _).
  destruct li as [img|]; [|discriminate].
  apply M_bind_Ok_inv in H as (placed & l3 & l4 & _ & H & _).
  apply M_bind_Ok_inv in H as (bm & l5 & l6 & _ & H & _).
  by eapply blend_onto_size.
Qed.

Lemma merge_step_size bbox result layer raster log r :
  merge_step psd respect_visibility skip_layer bbox result layer raster
  = (log, Ok r) ->
  image_size r = image_size result.
Proof.
  unfold merge_step. intros H.
  apply M_bind_Ok_inv in H as (lb & l1 & l2 & _ & H & _).
  destruct lb as [lb|]; [|discriminate].
  destruct (bbox_is_empty lb); [by injection H as _ <-|].
  destruct (skip_layer layer); [by injection H as _ <-|].
  apply M_bind_Ok_inv in H as (v & l3 & l4 & _ & H & _).
  destruct (negb v && respect_visibility); [by injection H as _ <-|].
  apply M_bind_Ok_inv in H as (li & l5 & l6 & _ & H & _).
  by eapply draw_layer_size.
Qed.

Lemma foldr_step_size bbox raster layers c0 log c :
  foldr (merge_loop_step psd respect_visibility skip_layer raster bbox)
        (mret c0) layers = (log, Ok c) ->
  image_size c = image_size c0.
Proof.
  revert log c. induction layers as [|l ls IH]; intros log c; simpl.
  - by intros [= _ <-].
  - unfold merge_loop_step at 1. intros H.
    apply M_bind_Ok_inv in H as (a & l1 & l2 & Ha & H & _).
    rewrite (merge_step_size _ _ _ _ _ _ H). by eapply IH.
Qed.

Lemma merge_layers_boxed_size layers b log r :
  merge_layers psd respect_visibility skip_layer layers (Some b) = (log, Ok r) ->
  exists img, r = Some img /\ image_size img = (width b, height b).
Proof.
  rewrite merge_layers_unfold, M_bind_ret_l. intros H.
  apply M_bind_Ok_inv in H as (c & l1 & l2 & Hc & [= _ <-] & _).
  exists c. split; [done|].
  rewrite (foldr_step_size _ _ _ _ _ _ Hc).
  destruct Hsize as (Hnew & _). apply Hnew.
Qed.
End CanvasSize.

(** X8: with a raster library in which a new image has the size asked for
    and pasting and compositing keep the size of the image they are applied
    to, the image that [merge_layers] returns has the width and height of
    the target box when one is given, and then the result is never [None];
    without a target box it has the width and height of the combined box of
    the list, and the result is [None] exactly when there is no such box. *)
Theorem merge_canvas_size {R : Raster} psd respect_visibility skip_layer
    layers target log r :
  raster_keeps_size R ->
  merge_layers psd respect_visibility skip_layer layers target = (log, Ok r) ->
  match target with
  | Some b => exists img, r = Some img /\ image_size img = (width b, height b)
  | None =>
      match r with
      | Some img =>
          exists b, combined_bbox psd layers = Ok (Some b) /\
                    image_size img = (width b, height b)
      | None => combined_bbox psd layers = Ok None
      end
  end.
Proof.
  intros Hsize H. destruct target as [b|].
  - by eapply merge_layers_boxed_size.
  - rewrite merge_layers_unfold in H.
    destruct (combined_bbox psd layers) as [[b|]|e] eqn:Hc.
    + rewrite M_bind_lift_Ok in H.
      assert (merge_layers psd respect_visibility skip_layer layers (Some b)
              = (log, Ok r)) as H'.
      { by rewrite merge_layers_unfold, M_bind_ret_l. }
      destruct (merge_layers_boxed_size _ _ _ Hsize _ _ _ _ H')
        as (img & -> & Hs).
      exists b. done.
    + rewrite M_bind_lift_Ok in H. by injection H as _ <-.
    + discriminate.
Qed.

Lemma merge_canvas_size_witness :
  exists img,
    Some (Pasted (Blank "RGBA" (10, 10))
                 (Cropped (Faded (Pixels "RGB" (10, 10) (Some 2%nat)) 255)
                          (5, 5, 10, 10))
                 (0, 0)) = Some img /\
    image_size (Raster := MergeSample.rgb) img
    = (width MergeSample.canvas, height MergeSample.canvas).
Proof.
  apply (merge_canvas_size (R := MergeSample.rgb) MergeSample.psd true
           Sample.never [MergeSample.multiplied; MergeSample.overhanging]
           (Some MergeSample.canvas)
           [debug_cropping_overflow 5 5;
            warning_blend_mode_not_implemented "MULTIPLY"]).
  - split_and!; reflexivity.
  - reflexivity.
Defined.

(** ** What tree assembly builds *)

Lemma lift_Ok_inv {A} (r : result A) log a :
  lift r = (log, Ok a) -> log = [] /\ r = Ok a.
Proof. unfold lift. by intros [= <- ->]. Qed.

Lemma mapM_log_quiet {A B} (f : A -> M B) (P : A -> B -> Prop) xs log ys :
  Forall (fun x => forall l y, f x = (l, Ok y) -> l = [] /\ P x y) xs ->
  mapM_log f xs = (log, Ok ys) ->
  log = [] /\ Forall2 P xs ys.
Proof.
  intros Hall. revert log ys.
  induction Hall as [|x xs Hx _ IH]; intros log ys; simpl.
  - intros [= <- <-]. split; [done | constructor].
  - intros H.
    apply M_bind_Ok_inv in H as (y & l1 & l2 & Hy & H & ->).
    apply M_bind_Ok_inv in H as (ys' & l3 & l4 & Hys & H & ->).
    injection H as <- <-.
    destruct (Hx _ _ Hy) as [-> HP]. destruct (IH _ _ Hys) as [-> HPs].
    split; [done | by constructor].
Qed.

Lemma fill_group_with_quiet mk group (P : LayerDesc -> Layer -> Prop)
    ds log ls :
  Forall (fun d =>
            (forall l c, mk group d = (l, Ok c) -> l = [] /\ P d c) /\
            Forall (fun x => forall l c, mk group x = (l, Ok c) ->
                                         l = [] /\ P x c)
                   (desc_clip_layers d)) ds ->
  fill_group_with mk group ds = (log, Ok ls) ->
  log = [] /\
  Forall2 (fun d l => exists child clips,
             P d child /\ Forall2 P (desc_clip_layers d) clips /\
             l = append_clip_layers child clips) ds ls.
Proof.
  intros Hall. revert log ls.
  induction Hall as [|d ds [Hd Hclips] _ IH]; intros log ls; simpl.
  - intros [= <- <-]. split; [done | constructor].
  - intros H.
    apply M_bind_Ok_inv in H as (child & l1 & l2 & Hchild & H & ->).
    apply M_bind_Ok_inv in H as (clips & l3 & l4 & Hcs & H & ->).
    apply M_bind_Ok_inv in H as (children & l5 & l6 & Hrest & H & ->).
    injection H as <- <-.
    destruct (Hd _ _ Hchild) as [-> HP].
    destruct (mapM_log_quiet _ P _ _ _ Hclips Hcs) as [-> HPs].
    destruct (IH _ _ Hrest) as [-> Hrest'].
    split; [done|]. constructor; [|done]. by exists child, clips.
Qed.

Lemma tree_tags_append_clip_layers child clips :
  tree_tags (append_clip_layers child clips)
  = tree_tags child ++ flat_map tree_tags clips.
Proof.
  destruct child as [c p i ls cs]. unfold tree_tags. simpl.
  rewrite !map_app, flat_map_app, map_app, <- !app_assoc. do 3 f_equal.
  induction clips as [|x xs IH]; [done|]. simpl. by rewrite map_app, IH.
Qed.

Lemma flat_map_tree_tags (ls : list Layer) :
  map (fun x => (layer_index x, kind x)) (flat_map tree_layers ls)
  = flat_map tree_tags ls.
Proof.
  induction ls as [|l ls IH]; [done|]. simpl. by rewrite map_app, IH.
Qed.

Lemma clips_well_placed_append group d child cds clips :
  built_from group d child ->
  Forall2 (built_from group) cds clips ->
  clips_well_placed (append_clip_layers child clips).
Proof.
  intros (Hp & _ & Hcs & _ & Hwp) Hclips. unfold clips_well_placed in *.
  destruct child as [c p i ls cs]. simpl in *. subst cs p.
  apply Forall_cons in Hwp as [_ Hwp]. rewrite app_nil_r in Hwp.
  apply Forall_cons; split; [|apply Forall_app; split; [done|]].
  - simpl. clear Hwp. induction Hclips as [|x y xs ys Hx _ IH]; [done|].
    constructor; [|done]. destruct Hx as (? & _ & ? & _). done.
  - apply Forall_flat_map.
    clear Hwp. induction Hclips as [|x y xs ys Hx _ IH]; [done|].
    constructor; [|done]. by destruct Hx as (_ & _ & _ & _ & ?).
Qed.

Lemma built_from_children group ds ls :
  Forall2 (fun d l => exists child clips,
             built_from group d child /\
             Forall2 (built_from group) (desc_clip_layers d) clips /\
             l = append_clip_layers child clips) ds ls ->
  flat_map tree_tags ls = flat_map desc_walk_child ds /\
  Forall clips_well_placed ls.
Proof.
  induction 1 as [|d l ds ls (child & clips & Hchild & Hclips & ->) _ [IH1 IH2]];
    [done|].
  split.
  - simpl. rewrite IH1, tree_tags_append_clip_layers. f_equal.
    unfold desc_walk_child. destruct Hchild as (_ & _ & _ & -> & _). f_equal.
    clear -Hclips. induction Hclips as [|x y xs ys Hx _ IH]; [done|].
    simpl. rewrite IH. by destruct Hx as (_ & _ & _ & -> & _).
  - constructor; [|done]. by eapply clips_well_placed_append.
Qed.

Lemma make_layer_built psd d :
  (forall group log l,
     make_layer psd group d = (log, Ok l) -> log = [] /\ built_from group d l)
  /\ Forall (fun x => forall group log l,
               make_layer psd group x = (log, Ok l) ->
               log = [] /\ built_from group x l) (desc_clip_layers d).
Proof.
  induction d as [index tag ls cs IHls IHcs] using LayerDesc_nested_ind.
  split; [|simpl; eapply Forall_impl; [exact IHcs|]; by intros ? [? _]].
  intros group log l Hmk.
  assert (forall c, kind_of c = tag -> String.eqb tag "group" = false ->
            built_from group (mk_desc index tag ls cs)
                       (mk_layer c group (Some index) [] [])) as Hleaf.
  { intros c Hc Hg. unfold built_from, tree_tags, clips_well_placed, kind. simpl.
    rewrite Hg, Hc. split_and!; try done. by repeat constructor. }
  simpl in Hmk.
  destruct (String.eqb tag "group") eqn:Egroup.
  { apply String.eqb_eq in Egroup as ->.
    apply M_bind_Ok_inv in Hmk as (children & l1 & l2 & Hfill & Hmk & ->).
    injection Hmk as <- <-.
    apply (fill_group_with_quiet _ _
             (built_from (LayerObj GroupC (Some index) group))) in Hfill.
    - destruct Hfill as [-> Hchildren].
      apply built_from_children in Hchildren as [Htags Hwp].
      split; [done|]. unfold built_from, tree_tags, clips_well_placed, kind.
      simpl.
      rewrite app_nil_r. split_and!; try done.
      + f_equal. by rewrite flat_map_tree_tags.
      + apply Forall_cons; split; [done|]. by apply Forall_flat_map.
    - eapply Forall_impl; [exact IHls|]. intros x [Hx Hxs]. split.
      + intros. by apply Hx.
      + eapply Forall_impl; [exact Hxs|]. intros y Hy ? ? ?. by apply Hy. }
  destruct (String.eqb tag "adjustment") eqn:E1.
  { apply String.eqb_eq in E1. injection Hmk as <- <-. split; [done|].
    by apply Hleaf. }
  destruct (String.eqb tag "type") eqn:E2.
  { apply String.eqb_eq in E2.
    apply M_bind_Ok_inv in Hmk as (? & l1 & l2 & [-> _]%lift_Ok_inv & Hmk & ->).
    injection Hmk as <- <-. split; [done|]. by apply Hleaf. }
  destruct (String.eqb tag "shape") eqn:E3.
  { apply String.eqb_eq in E3. injection Hmk as <- <-. split; [done|].
    by apply Hleaf. }
  destruct (String.eqb tag "pixel") eqn:E4.
  { apply String.eqb_eq in E4. injection Hmk as <- <-. split; [done|].
    by apply Hleaf. }
  destruct (String.eqb tag "smartobject") eqn:E5.
  { apply String.eqb_eq in E5.
    apply M_bind_Ok_inv in Hmk as (? & l1 & l2 & [-> _]%lift_Ok_inv & Hmk & ->).
    injection Hmk as <- <-. split; [done|]. by apply Hleaf. }
  apply M_bind_Ok_inv in Hmk as (? & ? & ? & _ & Hmk & _). discriminate.
Qed.

Lemma PSDImage_init_shape psd grouped log root :
  PSDImage_init psd grouped = (log, Ok root) ->
  log = [] /\
  exists layers,
    root = mk_layer RootGroupC PSDImageObj None layers [] /\
    Forall2 (fun d l => exists child clips,
               built_from root_obj d child /\
               Forall2 (built_from root_obj) (desc_clip_layers d) clips /\
               l = append_clip_layers child clips) grouped layers.
Proof.
  unfold PSDImage_init, fill_group. intros H.
  apply M_bind_Ok_inv in H as (layers & l1 & l2 & Hfill & H & ->).
  injection H as <- <-.
  apply (fill_group_with_quiet _ _ (built_from root_obj)) in Hfill.
  - destruct Hfill as [-> Hlayers]. split; [done|]. by exists layers.
  - apply Forall_forall. intros d _.
    destruct (make_layer_built psd d) as [Hd Hcs]. split.
    + intros. by apply Hd.
    + eapply Forall_impl; [exact Hcs|]. intros y Hy ? ? ?. by apply Hy.
Qed.

(** X9: when [PSDImage.__init__] returns, it has logged nothing, and the
    layers of the tree, read from the root down with the layers of each
    group before its clip layers, are the records that the walk of the
    description reaches, in the same order, each with its index and with
    the kind of its tag; every record reached gives exactly one layer. *)
Theorem assembly_keeps_records psd grouped log root :
  PSDImage_init psd grouped = (log, Ok root) ->
  log = [] /\
  tree_tags root = (None, "group") :: flat_map desc_walk_child grouped.
Proof.
  intros H. apply PSDImage_init_shape in H as (-> & layers & -> & Hlayers).
  split; [done|].
  apply built_from_children in Hlayers as [Htags _].
  unfold tree_tags. simpl. rewrite app_nil_r. f_equal.
  by rewrite flat_map_tree_tags.
Qed.

Lemma assembly_keeps_records_witness :
  [] = @nil LogRecord /\
  tree_tags ClipSample.root
  = (None, "group") :: flat_map desc_walk_child ClipSample.grouped.
Proof.
  apply (assembly_keeps_records ClipSample.psd ClipSample.grouped []
           ClipSample.root).
  reflexivity.
Defined.

(** In the sample the clip record of the clip record (index 5) and the
    ['layers'] of the pixel record (index 9) give no layer. *)
Example assembly_sample :
  PSDImage_init ClipSample.psd ClipSample.grouped = ([], Ok ClipSample.root)
  /\ tree_tags ClipSample.root
     = [(None, "group"); (Some 7%nat, "pixel"); (Some 6%nat, "shape");
        (Some 4%nat, "group"); (Some 3%nat, "adjustment");
        (Some 2%nat, "pixel")].
Proof. split; reflexivity. Qed.

(** X10: in the tree that [PSDImage.__init__] returns, a clip layer has as
    parent the group that holds the layer it is attached to, not that
    layer, and a clip layer has no clip layers of its own. *)
Theorem assembly_places_clip_layers psd grouped log root :
  PSDImage_init psd grouped = (log, Ok root) ->
  forall x c,
    x ∈ tree_layers root -> c ∈ layer_clip_layers x ->
    layer_parent c = layer_parent x /\ layer_clip_layers c = [].
Proof.
  intros H x c Hx Hc.
  apply PSDImage_init_shape in H as (_ & layers & -> & Hlayers).
  apply built_from_children in Hlayers as [_ Hwp].
  simpl in Hx. rewrite app_nil_r in Hx.
  apply elem_of_cons in Hx as [->|Hx]; [by apply elem_of_nil in Hc|].
  apply list_elem_of_In, in_flat_map in Hx as (l & Hl & Hx).
  apply list_elem_of_In in Hl, Hx.
  rewrite Forall_forall in Hwp. specialize (Hwp _ Hl).
  unfold clips_well_placed in Hwp. rewrite Forall_forall in Hwp.
  specialize (Hwp _ Hx). rewrite Forall_forall in Hwp. by apply Hwp.
Qed.

Lemma assembly_places_clip_layers_witness :
  layer_parent VisibilitySample.clip = layer_parent VisibilitySample.hidden
  /\ layer_clip_layers VisibilitySample.clip = [].
Proof.
  apply (assembly_places_clip_layers VisibilitySample.psd
           VisibilitySample.grouped [] VisibilitySample.root eq_refl
           VisibilitySample.hidden VisibilitySample.clip).
  - simpl. do 2 apply list_elem_of_further. apply list_elem_of_here.
  - apply list_elem_of_here.
Defined.

Lemma mapM_log_total {A B} (f : A -> M B) xs :
  Forall (fun x => exists y, f x = ([], Ok y)) xs ->
  exists ys, mapM_log f xs = ([], Ok ys).
Proof.
  induction 1 as [|x xs [y Hy] _ [ys IH]]; [by exists []|].
  exists (y :: ys). simpl. by rewrite Hy, M_bind_Ok, IH.
Qed.

Lemma fill_group_with_total mk group ds :
  Forall (fun d => (exists c, mk group d = ([], Ok c)) /\
                   Forall (fun x => exists c, mk group x = ([], Ok c))
                          (desc_clip_layers d)) ds ->
  exists ls, fill_group_with mk group ds = ([], Ok ls).
Proof.
  induction 1 as [|d ds [[c Hc] Hclips] _ [ls IH]]; [by exists []|].
  destruct (mapM_log_total _ _ Hclips) as [clips Hcs].
  exists (append_clip_layers c clips :: ls). simpl.
  by rewrite Hc, M_bind_Ok, Hcs, M_bind_Ok, IH.
Qed.

Lemma make_layer_plain psd d :
  (forall group, Forall (fun t => t.2 ∈ plain_kinds) (desc_walk d) ->
                 exists l, make_layer psd group d = ([], Ok l))
  /\ Forall (fun x => forall group,
               Forall (fun t => t.2 ∈ plain_kinds) (desc_walk x) ->
               exists l, make_layer psd group x = ([], Ok l))
            (desc_clip_layers d).
Proof.
  induction d as [index kind ls cs IHls IHcs] using LayerDesc_nested_ind.
  split; [|simpl; eapply Forall_impl; [exact IHcs|]; by intros ? [? _]].
  intros group Hplain. simpl in Hplain.
  apply Forall_cons in Hplain as [Hkind Hplain]. simpl in Hkind.
  unfold plain_kinds in Hkind.
  apply elem_of_cons in Hkind as [->|Hkind].
  { simpl in *.
    destruct (fill_group_with_total (make_layer psd)
                (LayerObj GroupC (Some index) group) ls) as [children Hfill].
    - clear -IHls Hplain. induction IHls as [|x xs [Hx Hxs] _ IH]; [done|].
      simpl in Hplain. apply Forall_app in Hplain as [Hhere Hrest].
      apply Forall_app in Hhere as [Hself Hclips].
      constructor; [|by apply IH]. split; [by apply Hx|].
      clear -Hxs Hclips.
      induction Hxs as [|y ys Hy _ IH]; [done|].
      simpl in Hclips. apply Forall_app in Hclips as [? ?].
      constructor; [by apply Hy | by apply IH].
    - eexists. by rewrite Hfill, M_bind_Ok. }
  apply elem_of_cons in Hkind as [->|Hkind]; [by eexists|].
  apply elem_of_cons in Hkind as [->|Hkind]; [by eexists|].
  apply elem_of_cons in Hkind as [->|Hkind]; [by eexists|].
  by apply elem_of_nil in Hkind.
Qed.

(** X11: when every record that the walk reaches is a group, an adjustment,
    a shape or a pixel record, [PSDImage.__init__] builds the tree and logs
    nothing, whatever the document holds: the constructors of these classes
    do not read the layer records, so that an index without a record is not
    noticed while the tree is built. *)
Theorem assembly_of_plain_kinds psd grouped :
  visited_plain grouped ->
  exists root, PSDImage_init psd grouped = ([], Ok root).
Proof.
  unfold visited_plain, PSDImage_init, fill_group. intros Hplain.
  destruct (fill_group_with_total (make_layer psd) root_obj grouped)
    as [layers Hfill].
  - induction grouped as [|d ds IH]; [done|].
    simpl in Hplain. apply Forall_app in Hplain as [Hhere Hrest].
    apply Forall_app in Hhere as [Hself Hclips].
    destruct (make_layer_plain psd d) as [Hd Hcs].
    constructor; [|by apply IH]. split; [by apply Hd|].
    clear -Hcs Hclips.
    induction Hcs as [|y ys Hy _ IH]; [done|].
    simpl in Hclips. apply Forall_app in Hclips as [? ?].
    constructor; [by apply Hy | by apply IH].
  - eexists. by rewrite Hfill, M_bind_Ok.
Qed.

Lemma assembly_of_plain_kinds_witness :
  exists root,
    PSDImage_init ClipSample.psd ClipSample.grouped = ([], Ok root).
Proof.
  apply assembly_of_plain_kinds. unfold visited_plain. simpl.
  repeat (apply Forall_cons; split;
          [refine (bool_decide_unpack _ _); vm_compute; exact I|]).
  by apply Forall_nil.
Defined.

(** The document of the sample has no layer record at all: the tree is
    built, and the first use of a record raises IndexError. *)
Example assembly_ignores_indices_sample :
  layer_records ClipSample.psd = []
  /\ PSDImage_init ClipSample.psd ClipSample.grouped = ([], Ok ClipSample.root)
  /\ visible ClipSample.psd (LayerObj PixelLayerC (Some 7%nat) root_obj)
     = Raise IndexError
  /\ PSDImage_bbox ClipSample.psd ClipSample.root = Raise IndexError.
Proof. split_and!; reflexivity. Qed.

Lemma make_layer_type_without_block psd group index ls cs :
  (forall r, layer_records psd !! index = Some r ->
             TaggedBlock.TYPE_TOOL_OBJECT_SETTING ∉ (info_tagged_blocks r).*1) ->
  make_layer psd group (mk_desc index "type" ls cs)
  = ([], Raise (match layer_records psd !! index with
                | Some _ => AttributeError
                | None => IndexError
                end)).
Proof.
  intros Hno. simpl. unfold TypeLayer_init, text_data, _type_info,
    _tagged_blocks. simpl.
  destruct (layer_records psd !! index) as [r|] eqn:Hr; simpl; [|done].
  by rewrite (proj2 (dict_of_pairs_lookup_None _ _) (Hno r eq_refl)).
Qed.

(** X12: a record of kind ['type'] needs a record with a type tool block:
    when its index has no layer record, or the record has no such block,
    [make_layer] raises (IndexError, AttributeError) without a log record,
    and with such a record among the top level records
    [PSDImage.__init__] does not return. *)
Theorem type_record_needs_type_tool_block psd grouped d :
  d ∈ grouped ->
  desc_kind d = "type" ->
  (forall r, layer_records psd !! desc_index d = Some r ->
             TaggedBlock.TYPE_TOOL_OBJECT_SETTING ∉ (info_tagged_blocks r).*1) ->
  (forall group,
     make_layer psd group d
     = ([], Raise (match layer_records psd !! desc_index d with
                   | Some _ => AttributeError
                   | None => IndexError
                   end)))
  /\ (forall log root, PSDImage_init psd grouped <> (log, Ok root)).
Proof.
  intros Hin Hkind Hno. destruct d as [index tag ls cs].
  simpl in Hkind, Hno. subst tag.
  split; [intros group; by apply make_layer_type_without_block|].
  intros log root H. unfold PSDImage_init, fill_group in H.
  apply M_bind_Ok_inv in H as (layers & l1 & l2 & Hfill & _ & _).
  apply fill_group_with_Ok_inv in Hfill.
  apply list_elem_of_lookup in Hin as [n Hn].
  destruct (Forall2_lookup_l _ _ _ _ _ Hfill Hn)
    as (l & _ & child & clips & l3 & Hmk & _).
  rewrite (make_layer_type_without_block psd root_obj index ls cs Hno) in Hmk.
  discriminate.
Qed.

Lemma type_record_needs_type_tool_block_witness :
  (forall group,
     make_layer UnknownKindSample.psd group (mk_desc 0 "type" [] [])
     = ([], Raise AttributeError))
  /\ (forall log root,
        PSDImage_init UnknownKindSample.psd TypeRecordSample.grouped
        <> (log, Ok root)).
Proof.
  apply (type_record_needs_type_tool_block UnknownKindSample.psd
           TypeRecordSample.grouped (mk_desc 0 "type" [] [])).
  - apply list_elem_of_further, list_elem_of_here.
  - reflexivity.
  - intros r [= <-]. simpl. apply not_elem_of_nil.
Defined.

(** ** Visibility and masks *)

Lemma rooted_visible_global_chain psd o :
  rooted psd o ->
  visible_global psd o = Ok (forallb (flag_visible psd) (chain_indices o)).
Proof.
  induction 1 as [i p | c i p r Hc Hr Hp IH]; [done|].
  destruct c; try done; simpl; unfold flag_visible at 1;
    rewrite Hr; simpl; rewrite IH; by destruct (info_visible r).
Qed.

(** X13: in the tree that [PSDImage.__init__] builds from a description
    whose indices denote layer records, a layer is globally visible exactly
    when its own record and the records of all the groups above it, up to
    the root group, are flagged visible. A clip layer counts the groups
    above the layer it is attached to, not that layer. *)
Theorem visible_global_is_chain_conjunction psd grouped log root L :
  PSDImage_init psd grouped = (log, Ok root) ->
  desc_in_range psd grouped ->
  L ∈ tree_layers root ->
  visible_global psd (obj_of L)
  = Ok (forallb (flag_visible psd) (chain_indices (obj_of L))).
Proof.
  intros Hinit Hrange HL.
  destruct (PSDImage_init_built _ _ _ _ Hinit Hrange) as (layers & -> & Hbuilt).
  simpl in HL. rewrite app_nil_r in HL.
  apply elem_of_cons in HL as [->|HL]; [done|].
  apply list_elem_of_In, in_flat_map in HL as (child & Hchild & HL).
  apply list_elem_of_In in Hchild, HL.
  rewrite Forall_forall in Hbuilt. specialize (Hbuilt _ Hchild).
  unfold built_rooted in Hbuilt. rewrite Forall_forall in Hbuilt.
  destruct (Hbuilt _ HL) as [Hrooted _].
  by apply rooted_visible_global_chain.
Qed.

Lemma visible_global_is_chain_conjunction_witness :
  visible_global NestedSample.psd (obj_of NestedSample.deep)
  = Ok (forallb (flag_visible NestedSample.psd)
                (chain_indices (obj_of NestedSample.deep))).
Proof.
  apply (visible_global_is_chain_conjunction NestedSample.psd
           NestedSample.grouped [] NestedSample.root NestedSample.deep).
  - reflexivity.
  - unfold desc_in_range. simpl. repeat constructor.
  - simpl. do 5 apply list_elem_of_further. apply list_elem_of_here.
Defined.

(** In the sample the pixel layer in the nested group is hidden by its own
    flag and by the outer group's; the visible layer beside the nested
    group is hidden by the outer group alone. *)
Example visible_global_nested_sample :
  chain_indices (obj_of NestedSample.deep) = [2; 3; 4]%nat
  /\ visible_global NestedSample.psd (obj_of NestedSample.deep) = Ok false
  /\ visible NestedSample.psd (obj_of NestedSample.side) = Ok true
  /\ visible_global NestedSample.psd (obj_of NestedSample.side) = Ok false.
Proof. split_and!; reflexivity. Qed.

(** ** Smart objects and the registry of embedded data *)

(** The registry holds, under each identifier, the last of the linked
    layers that carry it. *)
Lemma embedded_lookup_last (ll : list LinkedLayer) k :
  dict_of_pairs
    (map (fun linked => (linked_unique_id linked, mkEmbedded linked)) ll) !! k
  = mkEmbedded <$> last (filter (fun x => linked_unique_id x = k) ll).
Proof.
  induction ll as [|x ll IH] using rev_ind; [done|].
  unfold dict_of_pairs in *. rewrite map_app. simpl.
  rewrite reverse_app. simpl. rewrite filter_app, filter_cons, filter_nil.
  destruct (decide (linked_unique_id x = k)) as [->|Hne].
  - rewrite lookup_insert_eq. by rewrite last_snoc.
  - rewrite lookup_insert_ne by done. by rewrite app_nil_r.
Qed.

(** X14: [linked_data()] of a smart object layer whose identifier is the
    string [s] is the entry of the registry under [s]: the embedded data of
    the last linked layer of the document that carries this identifier, and
    [None], not an exception, when no linked layer carries it or when [s]
    is empty. *)
Theorem linked_data_is_last_linked_layer psd o s :
  unique_id psd o = Ok (Some (AStr s)) ->
  linked_data psd o
  = Ok (if bool_decide (s = "") then None
        else mkEmbedded
               <$> last (filter (fun x => linked_unique_id x = s)
                                (linked_layers psd))).
Proof.
  intros Hid. unfold linked_data. rewrite Hid. simpl.
  destruct (bool_decide (s = "")); [done|]. simpl. f_equal.
  apply embedded_lookup_last.
Qed.

Lemma linked_data_is_last_linked_layer_witness :
  linked_data SmartLinkSample.psd SmartLinkSample.linked
  = Ok (if bool_decide ("a" = "") then None
        else mkEmbedded
               <$> last (filter (fun x => linked_unique_id x = "a")
                                (linked_layers SmartLinkSample.psd))).
Proof.
  apply linked_data_is_last_linked_layer. reflexivity.
Defined.

(** In the sample the identifier "a" is carried by two linked layers and
    the later one is found; the identifier "missing" is carried by none. *)
Example linked_data_sample :
  linked_data SmartLinkSample.psd SmartLinkSample.linked
  = Ok (Some (mkEmbedded (mkLinkedLayer "a" "second.png")))
  /\ unique_id SmartLinkSample.psd SmartLinkSample.broken
     = Ok (Some (AStr "missing"))
  /\ linked_data SmartLinkSample.psd SmartLinkSample.broken = Ok None.
Proof. split_and!; vm_compute; reflexivity. Qed.

(** X15: [transform_bbox] reads the entries 0, 1, 4 and 5 of the transform
    list of the placed layer block. With no entry it returns [None]; with
    six entries or more it returns the box of those four, whatever the
    length; with one to five entries it raises IndexError. *)
Theorem transform_bbox_reads_four_entries psd o items atoms :
  _placed_layer_block psd o = Ok (Some (PlacedLayer items)) ->
  items <> [] ->
  dict_of_pairs items !! PlacedLayerProperty.TRANSFORM
  = Some (DList (DVal <$> atoms)) ->
  (atoms = [] -> transform_bbox psd o = Ok None)
  /\ ((0 < length atoms < 6)%nat -> transform_bbox psd o = Raise IndexError)
  /\ (forall a0 a1 a2 a3 a4 a5 rest,
        atoms = a0 :: a1 :: a2 :: a3 :: a4 :: a5 :: rest ->
        transform_bbox psd o = Ok (Some (mkBBox a0 a1 a4 a5))).
Proof.
  intros Hblock Hne Htr.
  assert (transform_bbox psd o
          = match map Some (DVal <$> atoms) with
            | [] => Ok None
            | _ :: _ =>
                a ← transform_value (map Some (DVal <$> atoms)) 0;
                b ← transform_value (map Some (DVal <$> atoms)) 1;
                c ← transform_value (map Some (DVal <$> atoms)) 4;
                d ← transform_value (map Some (DVal <$> atoms)) 5;
                Ok (Some (mkBBox a b c d))
            end) as ->.
  { unfold transform_bbox. rewrite Hblock. simpl.
    destruct items as [|it items]; [done|]. simpl.
    unfold PlacedLayerData_transform. by rewrite Htr. }
  split_and!.
  - by intros ->.
  - intros [Hpos Hlt].
    destruct atoms as [|a0 [|a1 [|a2 [|a3 [|a4 [|a5 rest]]]]]];
      simpl in Hpos, Hlt; try lia; reflexivity.
  - intros a0 a1 a2 a3 a4 a5 rest ->.
    cbn [fmap list_fmap map].
    unfold transform_value.
    rewrite (list_getitem_in_range _ 0 (Some (DVal a0))) by done.
    rewrite (list_getitem_in_range _ 1 (Some (DVal a1))) by done.
    rewrite (list_getitem_in_range _ 4 (Some (DVal a4))) by done.
    rewrite (list_getitem_in_range _ 5 (Some (DVal a5))) by done.
    reflexivity.
Qed.

Lemma transform_bbox_reads_four_entries_witness :
  (SmartLinkSample.short_atoms = [] ->
   transform_bbox SmartLinkSample.psd SmartLinkSample.short = Ok None)
  /\ ((0 < length (SmartLinkSample.short_atoms) < 6)%nat ->
      transform_bbox SmartLinkSample.psd SmartLinkSample.short
      = Raise IndexError)
  /\ (forall a0 a1 a2 a3 a4 a5 rest,
        SmartLinkSample.short_atoms
        = a0 :: a1 :: a2 :: a3 :: a4 :: a5 :: rest ->
        transform_bbox SmartLinkSample.psd SmartLinkSample.short
        = Ok (Some (mkBBox a0 a1 a4 a5))).
Proof.
  eapply (transform_bbox_reads_four_entries SmartLinkSample.psd
            SmartLinkSample.short).
  - reflexivity.
  - discriminate.
  - vm_compute. reflexivity.
Defined.

(** In the sample the transform of eight entries gives the corners (1,2)
    and (9,7); the transform cut to five entries raises. *)
Example transform_bbox_sample :
  transform_bbox SmartLinkSample.psd SmartLinkSample.linked
  = Ok (Some (mkBBox (ANum (inject_Z 1)) (ANum (inject_Z 2))
                     (ANum (inject_Z 9)) (ANum (inject_Z 7))))
  /\ transform_bbox SmartLinkSample.psd SmartLinkSample.short
     = Raise IndexError
  /\ placed_layer_size SmartLinkSample.psd SmartLinkSample.linked
     = Ok (Some (mkSize (ANum (inject_Z 30)) (ANum (inject_Z 40)))).
Proof. split_and!; vm_compute; reflexivity. Qed.

(** ** The image of a group *)

Lemma Group_bbox_unfold psd group :
  is_group (layer_cls group) = true ->
  Layer_bbox psd group = combined_bbox psd (layer_layers group).
Proof. intros Hg. destruct group as [c p i ls cs]. simpl in *. by rewrite Hg. Qed.

(** X16: [Group.as_PIL] agrees with [Group.bbox]: with a raster library
    that keeps sizes, the image returned has the width and height of the
    box of the group, and [None] is returned exactly when the box of the
    group is [None]. *)
Theorem group_image_matches_bbox {R : Raster} psd group log r :
  raster_keeps_size R ->
  is_group (layer_cls group) = true ->
  Group_as_PIL psd group = (log, Ok r) ->
  match r with
  | Some img =>
      exists b, Layer_bbox psd group = Ok (Some b) /\
                image_size img = (width b, height b)
  | None => Layer_bbox psd group = Ok None
  end.
Proof.
  intros Hsize Hg H. rewrite (Group_bbox_unfold psd group Hg).
  unfold Group_as_PIL in H. rewrite merge_layers_unfold in H.
  destruct (combined_bbox psd (layer_layers group)) as [[b|]|e] eqn:Hc.
  - rewrite M_bind_lift_Ok in H.
    assert (merge_layers psd true (fun _ => false) (layer_layers group) (Some b)
            = (log, Ok r)) as H'.
    { by rewrite merge_layers_unfold, M_bind_ret_l. }
    destruct (merge_layers_boxed_size _ _ _ Hsize _ _ _ _ H')
      as (img & -> & Hs).
    by exists b.
  - rewrite M_bind_lift_Ok in H. by injection H as _ <-.
  - discriminate.
Qed.

Lemma group_image_matches_bbox_witness :
  exists b, Layer_bbox NestedSample.psd NestedSample.outer = Ok (Some b) /\
            image_size (Raster := MergeSample.rgb)
              (Pasted
                 (Composited (Blank "RGBA" (7, 11))
                    (Pasted (Blank "RGBA" (7, 11))
                       (Faded (Blank "RGBA" (1, 11)) 255) (4, 0)))
                 (Faded (Pixels "RGB" (7, 2) (Some 1%nat)) 255) (0, 2))
            = (width b, height b).
Proof.
  apply (group_image_matches_bbox (R := MergeSample.rgb) NestedSample.psd
           NestedSample.outer [] (Some _)).
  - split_and!; reflexivity.
  - reflexivity.
  - reflexivity.
Defined.

(** ** The text that the style runs cover *)

Lemma substring_app s : forall i n m,
  (String.substring i n s ++ String.substring (i + n) m s)%string
  = String.substring i (n + m) s.
Proof.
  induction s as [|c s IH]; intros i n m.
  - destruct i, n, m; reflexivity.
  - destruct i as [|i]; [destruct n as [|n]|]; simpl.
    + reflexivity.
    + change (String c (String.substring 0 n s
                        ++ String.substring (0 + n) m s)%string
              = String c (String.substring 0 (n + m) s)).
      f_equal. apply IH.
    + apply IH.
Qed.

Lemma substring_empty s i : String.substring i 0 s = "".
Proof. revert i. induction s as [|c s IH]; intros [|i]; simpl; auto. Qed.

(** Two slices of a string that meet give, put end to end, the slice from
    the start of the first to the end of the second. *)
Lemma str_slice_app s a b c :
  0 <= a -> a <= b -> b <= c ->
  (str_slice s a b ++ str_slice s b c)%string = str_slice s a c.
Proof.
  intros Ha Hb Hc. unfold str_slice, slice_bound. cbv zeta.
  assert ((a <? 0) = false) as -> by lia.
  assert ((b <? 0) = false) as -> by lia.
  assert ((c <? 0) = false) as -> by lia.
  set (len := Z.of_nat (String.length s)).
  replace (Z.to_nat (Z.min b len))
    with (Z.to_nat (Z.min a len) + Z.to_nat (Z.min b len - Z.min a len))%nat
    by lia.
  rewrite substring_app. f_equal. lia.
Qed.

Lemma str_slice_empty s a : str_slice s a a = "".
Proof.
  unfold str_slice. cbv zeta. rewrite Z.sub_diag. apply substring_empty.
Qed.

Lemma run_offset_nonneg sizes i :
  Forall (fun n => 0 <= n) sizes -> 0 <= run_offset sizes i.
Proof.
  unfold run_offset. intros H. revert i.
  induction H as [|n sizes Hn _ IH]; intros [|i]; simpl; try lia.
  specialize (IH i). lia.
Qed.

Lemma spans_text_cons span spans :
  spans_text (span :: spans) = (span_text span ++ spans_text spans)%string.
Proof. reflexivity. Qed.

(** The loop over the pairs: the texts of the records it appends are, put
    end to end, the slice of the text from the start offset over the
    lengths of the runs paired. *)
Lemma style_spans_loop_text s fonts runs sizes start spans0 :
  0 <= start ->
  Forall (well_formed_run fonts) (take (length sizes) runs) ->
  Forall (fun n => 0 <= n) sizes ->
  exists spans,
    style_spans_loop (PStr s) (PList fonts)
                     (zip_pairs runs (PInt <$> sizes)) start spans0
    = Ok (spans0 ++ spans) /\
    spans_text spans
    = str_slice s start (start + run_offset sizes (length runs)).
Proof.
  revert sizes start spans0.
  induction runs as [|run runs IH]; intros sizes start spans0 Hstart Hwf Hpos.
  - exists []. simpl. rewrite app_nil_r. split; [done|].
    unfold run_offset. simpl. by rewrite Z.add_0_r, str_slice_empty.
  - destruct sizes as [|n sizes].
    { exists []. simpl. rewrite app_nil_r. split; [done|].
      unfold run_offset. simpl. by rewrite Z.add_0_r, str_slice_empty. }
    simpl in Hwf. apply Forall_cons in Hwf as [Hrun Hwf].
    apply Forall_cons in Hpos as [Hn Hpos].
    destruct (style_spans_body_spec s fonts run n start spans0 Hrun)
      as (span & Hbody & (sd & font & _ & _ & Htext & _)).
    destruct (IH sizes (start + n) (spans0 ++ [span])) as (spans & Hloop & Ht);
      [lia | done | done |].
    exists (span :: spans). split.
    + simpl. rewrite Hbody. simpl. etrans; [exact Hloop|].
      by rewrite <- app_assoc.
    + rewrite spans_text_cons, Ht. unfold span_text. rewrite Htext.
      pose proof (run_offset_nonneg sizes (length runs) Hpos).
      simpl length. rewrite run_offset_cons.
      replace (start + (n + run_offset sizes (length runs)))
        with (start + n + run_offset sizes (length runs)) by lia.
      apply str_slice_app; lia.
Qed.

(** X17: on a type layer whose paired runs are well formed and whose run
    lengths are not negative, the texts of the records that [style_spans()]
    returns are, put end to end, the slice of the full text from 0 to the
    sum of the lengths paired with a run: the runs cover the text from its
    start without gap or overlap, and when the lengths paired add up to the
    length of the text, the records spell the full text. *)
Theorem style_spans_cover_text psd o s fonts sizes runs :
  type_layer_data psd o s fonts sizes runs ->
  Forall (well_formed_run fonts) (take (length sizes) runs) ->
  Forall (fun n => 0 <= n) sizes ->
  exists spans,
    style_spans psd o = Ok spans /\
    spans_text spans = str_slice s 0 (run_offset sizes (length runs)) /\
    (run_offset sizes (length runs) = Z.of_nat (String.length s) ->
     spans_text spans = s).
Proof.
  intros (e & ed & editor & res & sr & He & Hed & Heditor & Htext & Hres
          & Hfonts & Hsr & Hlens & Hruns) Hwf Hpos.
  destruct (style_spans_loop_text s fonts runs sizes 0 [] (Z.le_refl 0) Hwf Hpos)
    as (spans & Hloop & Ht).
  rewrite Z.add_0_l in Ht.
  exists spans. split_and!; [|done|].
  - unfold style_spans, full_text, fontset. rewrite He. simpl.
    rewrite Hed. simpl. rewrite Heditor. simpl. rewrite Htext. simpl.
    rewrite Hres. simpl. rewrite Hfonts. simpl.
    rewrite Hsr. simpl. rewrite Hlens. simpl. rewrite Hruns. simpl.
    unfold style_spans_of. simpl. exact Hloop.
  - intros Hsum. rewrite Ht, Hsum.
    unfold str_slice, slice_bound. cbv zeta.
    assert ((Z.of_nat (String.length s) <? 0) = false) as -> by lia.
    simpl. rewrite Z.min_id, Z.min_l, Z.sub_0_r, Nat2Z.id by lia.
    clear. induction s as [|c s IH]; simpl; [done|].
    f_equal. exact IH.
Qed.

Lemma style_spans_cover_text_witness :
  exists spans,
    style_spans TypeSample.psd TypeSample.layer = Ok spans /\
    spans_text spans
    = str_slice "Hello world" 0
        (run_offset TypeSample.sizes (length TypeSample.runs)) /\
    (run_offset TypeSample.sizes (length TypeSample.runs)
     = Z.of_nat (String.length "Hello world") ->
     spans_text spans = "Hello world").
Proof.
  apply (style_spans_cover_text TypeSample.psd TypeSample.layer _
           TypeSample.fonts).
  - pose (sr := <["RunLengthArray" := PList (PInt <$> TypeSample.sizes)]>
                  ({["RunArray" := PList TypeSample.runs]} : gmap string PyVal)).
    pose (editor := {["Text" := PStr "Hello world"]} : gmap string PyVal).
    pose (ed := <["Editor" := PDict editor]>
                  ({["StyleRun" := PDict sr]} : gmap string PyVal)).
    pose (res := {["FontSet" := PList TypeSample.fonts]} : gmap string PyVal).
    exists (<["EngineDict" := PDict ed]> {["DocumentResources" := PDict res]}),
           ed, editor, res, sr.
    split_and!; vm_compute; reflexivity.
  - simpl. apply Forall_cons; split; [|apply Forall_cons; split; [|by apply Forall_nil]].
    + exists (<["Font" := PInt 1]> {["FontSize" := PInt 12]}),
             (TypeSample.font "Courier").
      split.
      * exists {["StyleSheet" :=
                   PDict {["StyleSheetData" :=
                             PDict (<["Font" := PInt 1]>
                                      {["FontSize" := PInt 12]})]}]},
               {["StyleSheetData" :=
                   PDict (<["Font" := PInt 1]> {["FontSize" := PInt 12]})]}.
        split_and!; vm_compute; reflexivity.
      * exists 1. split_and!; [left; vm_compute; reflexivity | lia | reflexivity].
    + exists {["FontSize" := PInt 9]}, (TypeSample.font "Arial"). split.
      * exists {["StyleSheet" :=
                   PDict {["StyleSheetData" := PDict {["FontSize" := PInt 9]}]}]},
               {["StyleSheetData" := PDict {["FontSize" := PInt 9]}]}.
        split_and!; vm_compute; reflexivity.
      * exists 0. split_and!; [right; split; [vm_compute|]; reflexivity | lia | reflexivity].
  - unfold TypeSample.sizes.
    repeat (apply Forall_cons; split; [lia|]). by apply Forall_nil.
Defined.

(** ** Runs that name a font outside the font set *)

Lemma list_getitem_out_of_range {A} (xs : list A) i :
  i < - Z.of_nat (length xs) \/ Z.of_nat (length xs) <= i ->
  list_getitem xs i = Raise IndexError.
Proof.
  intros H. unfold list_getitem. cbv zeta.
  destruct (Z.ltb_spec i 0) as [Hneg|Hpos].
  - assert ((i + Z.of_nat (length xs) <? 0) = true) as -> by lia. done.
  - assert ((Z.of_nat (length xs) <=? i) = true) as -> by lia.
    by rewrite orb_true_r.
Qed.

(** One pass of the loop on a run whose font index is out of range. *)
Lemma style_spans_body_bad_font s fonts run sd fi n start spans0 :
  run_stylesheet run sd ->
  sd !! "Font" = Some (PInt fi) \/ (sd !! "Font" = None /\ fi = 0) ->
  fi < - Z.of_nat (length fonts) \/ Z.of_nat (length fonts) <= fi ->
  style_spans_body (PStr s) (PList fonts) run (PInt n) start spans0
  = Raise IndexError.
Proof.
  intros (d & d' & -> & Hd & Hd') Hfi Hout.
  unfold style_spans_body. simpl. rewrite Hd. simpl. rewrite Hd'. simpl.
  rewrite lookup_insert_ne by done.
  assert (default (PInt 0) (sd !! "Font") = PInt fi) as ->.
  { destruct Hfi as [-> | [-> ->]]; done. }
  simpl. by rewrite list_getitem_out_of_range.
Qed.

Lemma list_getitem_within {A} (xs : list A) i :
  - Z.of_nat (length xs) <= i < Z.of_nat (length xs) ->
  exists x, list_getitem xs i = Ok x.
Proof.
  intros H. unfold list_getitem. cbv zeta.
  destruct (Z.ltb_spec i 0) as [Hneg|Hpos].
  - assert ((i + Z.of_nat (length xs) <? 0) = false) as -> by lia.
    assert ((Z.of_nat (length xs) <=? i + Z.of_nat (length xs)) = false)
      as -> by lia.
    simpl.
    destruct (lookup_lt_is_Some_2 xs (Z.to_nat (i + Z.of_nat (length xs))))
      as [x ->]; [lia | by exists x].
  - assert ((Z.of_nat (length xs) <=? i) = false) as -> by lia.
    rewrite orb_false_r.
    assert ((i <? 0) = false) as -> by lia.
    destruct (lookup_lt_is_Some_2 xs (Z.to_nat i)) as [x ->];
      [lia | by exists x].
Qed.

(** One pass of the loop on a run whose font index is within the font
    set. *)
Lemma style_spans_body_in_range s fonts run n start spans0 :
  run_font_in_range fonts run ->
  exists span,
    style_spans_body (PStr s) (PList fonts) run (PInt n) start spans0
    = Ok (start + n, spans0 ++ [span]).
Proof.
  intros (sd & fi & (d & d' & -> & Hd & Hd') & Hfi & Hin).
  unfold style_spans_body. simpl. rewrite Hd. simpl. rewrite Hd'. simpl.
  rewrite lookup_insert_ne by done.
  assert (default (PInt 0) (sd !! "Font") = PInt fi) as ->.
  { destruct Hfi as [-> | [-> ->]]; done. }
  simpl. destruct (list_getitem_within fonts fi Hin) as [font ->].
  simpl. by eexists.
Qed.

Lemma style_spans_loop_bad_font s fonts run sd fi :
  run_stylesheet run sd ->
  sd !! "Font" = Some (PInt fi) \/ (sd !! "Font" = None /\ fi = 0) ->
  fi < - Z.of_nat (length fonts) \/ Z.of_nat (length fonts) <= fi ->
  forall i runs sizes start spans0,
    runs !! i = Some run ->
    (i < length sizes)%nat ->
    Forall (run_font_in_range fonts) (take i runs) ->
    style_spans_loop (PStr s) (PList fonts)
                     (zip_pairs runs (PInt <$> sizes)) start spans0
    = Raise IndexError.
Proof.
  intros Hsd Hfi Hout.
  induction i as [|i IH]; intros runs sizes start spans0 Hrun Hlt Hwf;
    destruct runs as [|r runs]; try done;
    destruct sizes as [|n sizes]; simpl in Hlt; try lia; simpl in Hrun.
  - injection Hrun as ->. simpl.
    by rewrite (style_spans_body_bad_font s fonts run sd fi n start spans0).
  - simpl in Hwf. apply Forall_cons in Hwf as [Hr Hwf].
    destruct (style_spans_body_in_range s fonts r n start spans0 Hr)
      as (span & Hbody).
    simpl. rewrite Hbody. simpl. apply IH; [done | lia | done].
Qed.

(** X18: [style_spans()] raises IndexError at the first run, among the runs
    paired with a length, whose font index lies outside the font set, that
    is at or beyond its length or below minus its length; the runs before
    it may name their font by any index within the font set, also by one
    from [-len] to [-1], which counts from the end. A run whose style sheet
    names no font asks for the font at index 0, so with an empty font set
    every run raises. *)
Theorem style_spans_font_out_of_range psd o s fonts sizes runs i run sd fi :
  type_layer_data psd o s fonts sizes runs ->
  runs !! i = Some run ->
  (i < length sizes)%nat ->
  Forall (run_font_in_range fonts) (take i runs) ->
  run_stylesheet run sd ->
  sd !! "Font" = Some (PInt fi) \/ (sd !! "Font" = None /\ fi = 0) ->
  fi < - Z.of_nat (length fonts) \/ Z.of_nat (length fonts) <= fi ->
  style_spans psd o = Raise IndexError.
Proof.
  intros (e & ed & editor & res & sr & He & Hed & Heditor & Htext & Hres
          & Hfonts & Hsr & Hlens & Hruns) Hrun Hlt Hwf Hsd Hfi Hout.
  unfold style_spans, full_text, fontset. rewrite He. simpl.
  rewrite Hed. simpl. rewrite Heditor. simpl. rewrite Htext. simpl.
  rewrite Hres. simpl. rewrite Hfonts. simpl.
  rewrite Hsr. simpl. rewrite Hlens. simpl. rewrite Hruns. simpl.
  unfold style_spans_of. simpl.
  by apply (style_spans_loop_bad_font s fonts run sd fi Hsd Hfi Hout i).
Qed.

Lemma style_spans_font_out_of_range_witness :
  style_spans (FontSample.psd TypeSample.fonts) FontSample.layer
  = Raise IndexError.
Proof.
  apply (style_spans_font_out_of_range (FontSample.psd TypeSample.fonts)
           FontSample.layer "Hello world" TypeSample.fonts FontSample.sizes
           FontSample.runs 2%nat (TypeSample.run {["Font" := PInt 2]})
           {["Font" := PInt 2]} 2).
  - pose (sr := <["RunLengthArray" := PList (PInt <$> FontSample.sizes)]>
                  ({["RunArray" := PList FontSample.runs]} : gmap string PyVal)).
    pose (editor := {["Text" := PStr "Hello world"]} : gmap string PyVal).
    pose (ed := <["Editor" := PDict editor]>
                  ({["StyleRun" := PDict sr]} : gmap string PyVal)).
    pose (res := {["FontSet" := PList TypeSample.fonts]} : gmap string PyVal).
    exists (<["EngineDict" := PDict ed]> {["DocumentResources" := PDict res]}),
           ed, editor, res, sr.
    split_and!; vm_compute; reflexivity.
  - reflexivity.
  - simpl. lia.
  - simpl. apply Forall_cons; split; [|apply Forall_cons; split; [|by apply Forall_nil]].
    + exists {["Font" := PInt (-1)]}, (-1). split_and!.
      * exists {["StyleSheet" :=
                   PDict {["StyleSheetData" := PDict {["Font" := PInt (-1)]}]}]},
               {["StyleSheetData" := PDict {["Font" := PInt (-1)]}]}.
        split_and!; vm_compute; reflexivity.
      * left. vm_compute. reflexivity.
      * simpl. lia.
      * simpl. lia.
    + exists {["FontSize" := PInt 9]}, 0. split_and!.
      * exists {["StyleSheet" :=
                   PDict {["StyleSheetData" := PDict {["FontSize" := PInt 9]}]}]},
               {["StyleSheetData" := PDict {["FontSize" := PInt 9]}]}.
        split_and!; vm_compute; reflexivity.
      * right. split; [vm_compute|]; reflexivity.
      * simpl. lia.
      * simpl. lia.
  - exists {["StyleSheet" :=
               PDict {["StyleSheetData" := PDict {["Font" := PInt 2]}]}]},
           {["StyleSheetData" := PDict {["Font" := PInt 2]}]}.
    split_and!; vm_compute; reflexivity.
  - left. vm_compute. reflexivity.
  - right. simpl. lia.
Defined.

(** With the sample's two fonts the first run takes the last font and the
    third run raises; with an empty font set the first run raises, and
    with a third font nothing raises. *)
Example style_spans_font_sample :
  style_spans (FontSample.psd []) FontSample.layer = Raise IndexError
  /\ (spans ← style_spans
                (FontSample.psd (TypeSample.fonts ++ [TypeSample.font "Mono"]))
                FontSample.layer;
      Ok (spans_text spans, (fun span => span !! "Font") <$> spans))
     = Ok ("Hello world",
           [Some (TypeSample.font "Mono"); Some (TypeSample.font "Arial");
            Some (TypeSample.font "Mono")]).
Proof. split; vm_compute; reflexivity. Qed.

(** ** Printing the tree *)

Lemma and_then_Returned a b :
  (and_then a b).2 = Returned -> a.2 = Returned /\ b.2 = Returned.
Proof.
  unfold and_then. destruct a as [out [|e|]]; simpl; intros H; done.
Qed.

Lemma and_then_Failed a b e :
  (and_then a b).2 = Failed e -> a.2 = Failed e \/ b.2 = Failed e.
Proof.
  unfold and_then. destruct a as [out [|e'|]]; simpl; intros H; auto.
Qed.

Lemma and_then_Returned_eq out1 out2 o :
  and_then (out1, Returned) (out2, o) = (out1 ++ out2, o).
Proof. reflexivity. Qed.

Lemma max_nesting_cons l rest :
  max_nesting (l :: rest) = Nat.max (nesting l) (max_nesting rest).
Proof. reflexivity. Qed.

Lemma nesting_unfold cls p i cs clips :
  nesting (mk_layer cls p i cs clips)
  = if is_group cls then S (max_nesting cs) else 0%nat.
Proof. reflexivity. Qed.

Section PrintTreeFacts.
Variable repr : Layer -> result string.
Variable psd : PSDImage.
Variable self_layers : list Layer.

(** The loop does not return when it reaches a group without layers and
    the nested call does not return from an empty list. *)
Lemma print_layers_stuck rec indent indent_width kwargs layers :
  (forall ls ind,
     ls = [] \/ existsb has_hollow_group ls = true ->
     (rec ls ind).2 <> Returned) ->
  existsb has_hollow_group layers = true ->
  (print_layers repr rec indent indent_width kwargs layers).2 <> Returned.
Proof.
  intros Hrec. induction layers as [|l rest IH]; [done|].
  simpl. intros Hex H. apply and_then_Returned in H as [Hl Hrest].
  apply orb_true_iff in Hex as [Hh|Hex]; [|by apply IH].
  clear IH Hrest. unfold print_layer in Hl.
  apply and_then_Returned in Hl as [_ Hl].
  apply and_then_Returned in Hl as [_ Hl].
  destruct l as [cls p i ls cs]. simpl in Hh, Hl.
  apply andb_true_iff in Hh as [Hg Hh]. rewrite Hg in Hl.
  apply (Hrec ls (indent + indent_width)); [|done].
  destruct ls; [by left | by right].
Qed.

Lemma print_tree_stuck :
  existsb has_hollow_group self_layers = true ->
  forall depth layers indent indent_width kwargs,
    layers_falsy layers = true \/
    (exists ls, layers = Some ls /\ existsb has_hollow_group ls = true) ->
    (print_tree repr psd self_layers depth layers indent indent_width kwargs).2
    <> Returned.
Proof.
  intros Htop. induction depth as [|depth IH];
    intros layers indent indent_width kwargs Hl; [done|].
  assert (forall ls ind,
            ls = [] \/ existsb has_hollow_group ls = true ->
            (print_tree repr psd self_layers depth (Some ls) ind 2 ∅).2
            <> Returned) as Hrec.
  { intros ls ind [->|Hex]; apply IH; [by left | right; by exists ls]. }
  simpl. destruct (layers_falsy layers) eqn:Hf.
  - intros H. apply and_then_Returned in H as [_ H].
    by apply (print_layers_stuck _ _ _ _ _ Hrec Htop) in H.
  - destruct Hl as [?|(ls & -> & Hex)]; [done|]. simpl.
    by apply print_layers_stuck.
Qed.

Section TotalRepr.
Hypothesis Hrepr : forall l, exists s, repr l = Ok s.

Lemma print_clips_listing indent kwargs clips :
  print_clips repr indent kwargs clips
  = (line_of repr indent "/" kwargs <$> clips, Returned).
Proof.
  induction clips as [|c clips IH]; [done|].
  simpl. rewrite IH. unfold line_of, repr_text.
  by destruct (Hrepr c) as [s ->].
Qed.

Lemma print_layers_no_exception rec indent indent_width kwargs layers e :
  (forall ls ind, (rec ls ind).2 <> Failed e) ->
  (print_layers repr rec indent indent_width kwargs layers).2 <> Failed e.
Proof.
  intros Hrec. induction layers as [|l rest IH]; [done|].
  simpl. intros H. apply and_then_Failed in H as [H|H]; [|done].
  unfold print_layer in H. rewrite print_clips_listing in H.
  apply and_then_Failed in H as [H|H]; [done|].
  destruct (Hrepr l) as [s Hs]. rewrite Hs in H.
  apply and_then_Failed in H as [H|H]; [done|].
  destruct (is_group (layer_cls l)); [by apply Hrec in H | done].
Qed.

Lemma print_tree_no_exception depth layers indent indent_width kwargs e :
  (print_tree repr psd self_layers depth layers indent indent_width kwargs).2
  <> Failed e.
Proof.
  revert layers indent indent_width kwargs.
  induction depth as [|depth IH]; intros layers indent indent_width kwargs;
    [done|].
  simpl. destruct (layers_falsy layers).
  - intros H. apply and_then_Failed in H as [H|H]; [done|].
    revert H. apply print_layers_no_exception. intros ls ind. apply IH.
  - apply print_layers_no_exception. intros ls ind. apply IH.
Qed.

(** The loop prints the listing of its layers when the nested calls print
    the listing of the layers of the groups. *)
Lemma print_layers_listing rec d indent indent_width kwargs layers :
  (forall cs ind,
     cs <> [] -> existsb has_hollow_group cs = false ->
     (max_nesting cs < d)%nat ->
     rec cs ind = (flat_map (listing repr ind 2 ∅) cs, Returned)) ->
  existsb has_hollow_group layers = false ->
  (max_nesting layers <= d)%nat ->
  print_layers repr rec indent indent_width kwargs layers
  = (flat_map (listing repr indent indent_width kwargs) layers, Returned).
Proof.
  intros Hrec. induction layers as [|l rest IH]; [done|].
  intros Hex Hn.
  change (has_hollow_group l || existsb has_hollow_group rest = false) in Hex.
  apply orb_false_iff in Hex as [Hl Hex].
  rewrite max_nesting_cons in Hn.
  cbn [print_layers flat_map]. rewrite IH by (done || lia).
  unfold print_layer. rewrite print_clips_listing.
  destruct l as [cls p i cs clips].
  destruct (Hrepr (mk_layer cls p i cs clips)) as [s Hs].
  assert (line_of repr indent "" kwargs (mk_layer cls p i cs clips)
          = mkPrintCall (py_spaces indent ++ "" ++ s)%string kwargs) as Hline.
  { unfold line_of, repr_text. by rewrite Hs. }
  rewrite Hs. rewrite nesting_unfold in Hn.
  cbn [layer_cls layer_layers layer_clip_layers listing print_line].
  rewrite Hline. clear Hline Hs.
  simpl in Hl. destruct (is_group cls) eqn:Hg.
  - rewrite Hrec.
    + by rewrite !and_then_Returned_eq.
    + intros ->. done.
    + destruct cs; [done|]. exact Hl.
    + lia.
  - by rewrite !and_then_Returned_eq.
Qed.

Lemma print_tree_nested_listing depth :
  forall cs indent indent_width kwargs,
    cs <> [] -> existsb has_hollow_group cs = false ->
    (max_nesting cs < depth)%nat ->
    print_tree repr psd self_layers depth (Some cs) indent indent_width kwargs
    = (flat_map (listing repr indent indent_width kwargs) cs, Returned).
Proof.
  induction depth as [|depth IH]; intros cs indent indent_width kwargs Hne Hex Hn;
    [lia|].
  destruct cs as [|c cs]; [done|].
  cbn [print_tree layers_falsy default].
  apply (print_layers_listing _ depth); [|done|lia].
  intros cs' ind. apply IH.
Qed.
End TotalRepr.

(** X20: when a group that holds no layers is reached from the layers of
    the document through the layers of groups, [print_tree()] does not
    return, whatever the recursion limit: the call made for the empty group
    takes the empty list for "no list given" and starts again from the
    layers of the document. When formatting the layers raises nothing, the
    call ends by exceeding the recursion limit. *)
Theorem print_tree_restarts_at_empty_group depth indent indent_width kwargs :
  existsb has_hollow_group self_layers = true ->
  (print_tree repr psd self_layers depth None indent indent_width kwargs).2
  <> Returned
  /\ ((forall l, exists s, repr l = Ok s) ->
      (print_tree repr psd self_layers depth None indent indent_width kwargs).2
      = TooDeep).
Proof.
  intros Htop.
  pose proof (print_tree_stuck Htop depth None indent indent_width kwargs
                (or_introl eq_refl)) as Hstuck.
  split; [done|]. intros Hrepr.
  pose proof (print_tree_no_exception Hrepr depth None indent indent_width
                kwargs) as Hno.
  destruct (print_tree repr psd self_layers depth None indent indent_width
              kwargs).2 as [|e|]; [done | by destruct (Hno e) | done].
Qed.

(** X21: when no group without layers is reached and formatting the layers
    raises nothing, [print_tree()] returns once the recursion limit exceeds
    the nesting of the groups, and it has printed the line of the document
    and then, for each layer in order, the lines of its clip layers with a
    slash and the line of the layer, followed for a group by the lines of
    its layers. The layers of the document are indented by the width given
    and printed with the keyword arguments given. The layers of a group of
    the document are indented by the width given once more, and every
    level below them by 2 more, whatever the width given; all the lines
    below the layers of the document are printed without keyword
    arguments. *)
Theorem print_tree_listing depth indent indent_width kwargs :
  (forall l, exists s, repr l = Ok s) ->
  existsb has_hollow_group self_layers = false ->
  (max_nesting self_layers < depth)%nat ->
  print_tree repr psd self_layers depth None indent indent_width kwargs
  = (mkPrintCall (py_spaces indent ++ PSDImage_repr psd self_layers)%string
                 kwargs
     :: flat_map (listing repr (indent + indent_width) indent_width kwargs)
                 self_layers,
     Returned).
Proof.
  intros Hrepr Hex Hn. destruct depth as [|depth]; [lia|].
  cbn [print_tree layers_falsy].
  rewrite (print_layers_listing Hrepr _ depth); [done| |done|lia].
  intros cs ind. by apply print_tree_nested_listing.
Qed.
End PrintTreeFacts.

Lemma print_tree_restarts_at_empty_group_witness :
  (print_tree kind_repr SkipSample.psd (layer_layers SkipSample.root)
              1000 None 0 2 ∅).2 <> Returned
  /\ ((forall l, exists s, kind_repr l = Ok s) ->
      (print_tree kind_repr SkipSample.psd (layer_layers SkipSample.root)
                  1000 None 0 2 ∅).2 = TooDeep).
Proof.
  apply (print_tree_restarts_at_empty_group kind_repr SkipSample.psd
           (layer_layers SkipSample.root) 1000 0 2 ∅).
  reflexivity.
Defined.

Lemma print_tree_listing_witness :
  print_tree kind_repr NestedSample.psd (layer_layers NestedSample.root)
             3 None 0 4 {["end" := PStr ";"]}
  = (mkPrintCall
       (py_spaces 0
        ++ PSDImage_repr NestedSample.psd (layer_layers NestedSample.root))%string
       {["end" := PStr ";"]}
     :: flat_map (listing kind_repr (0 + 4) 4 {["end" := PStr ";"]})
                 (layer_layers NestedSample.root),
     Returned).
Proof.
  apply (print_tree_listing kind_repr NestedSample.psd
           (layer_layers NestedSample.root) 3 0 4 {["end" := PStr ";"]}).
  - intros l. by exists (kind l).
  - reflexivity.
  - vm_compute. lia.
Defined.

(** In the sample of three layers, the middle one a group that holds a
    layer and a group, the layers of the document are indented by the width
    given, 4, and carry the keyword arguments; the layers of the group are
    indented by 4 more, those of the group within it by 2 more, and they
    carry none. With a recursion limit of 2 the call for the inner group
    exceeds the limit. *)
Example print_tree_sample :
  print_tree kind_repr NestedSample.psd (layer_layers NestedSample.root)
             3 None 0 4 {["end" := PStr ";"]}
  = ([mkPrintCall "<PSDImage: size=20x20, layer_count=3>" {["end" := PStr ";"]};
      mkPrintCall "    pixel" {["end" := PStr ";"]};
      mkPrintCall "    group" {["end" := PStr ";"]};
      mkPrintCall "        pixel" ∅;
      mkPrintCall "        group" ∅;
      mkPrintCall "          pixel" ∅;
      mkPrintCall "    pixel" {["end" := PStr ";"]}],
     Returned)
  /\ print_tree kind_repr NestedSample.psd (layer_layers NestedSample.root)
                2 None 0 4 {["end" := PStr ";"]}
     = ([mkPrintCall "<PSDImage: size=20x20, layer_count=3>" {["end" := PStr ";"]};
         mkPrintCall "    pixel" {["end" := PStr ";"]};
         mkPrintCall "    group" {["end" := PStr ";"]};
         mkPrintCall "        pixel" ∅;
         mkPrintCall "        group" ∅],
        TooDeep).
Proof. split; vm_compute; reflexivity. Qed.

(** ** Shapes within the document *)

(** Rounding in binary64, as [SpecFloat] defines it. *)

Lemma iter_pos_nat {A} (f : A -> A) p x :
  iter_pos f p x = Nat.iter (Pos.to_nat p) f x.
Proof.
  revert x. induction p as [p IH|p IH|]; intros x; cbn [iter_pos].
  - rewrite !IH, Pos2Nat.inj_xI, Nat.iter_succ_r.
    replace (2 * Pos.to_nat p)%nat with (Pos.to_nat p + Pos.to_nat p)%nat
      by lia.
    by rewrite Nat.iter_add.
  - rewrite !IH, Pos2Nat.inj_xO.
    replace (2 * Pos.to_nat p)%nat with (Pos.to_nat p + Pos.to_nat p)%nat
      by lia.
    by rewrite Nat.iter_add.
  - done.
Qed.

Lemma shr_1_fields mrs :
  0 <= shr_m mrs ->
  shr_m (shr_1 mrs) = shr_m mrs / 2 /\
  shr_r (shr_1 mrs) = Z.odd (shr_m mrs) /\
  shr_s (shr_1 mrs) = shr_r mrs || shr_s mrs.
Proof.
  destruct mrs as [m r s]. simpl. intros Hm.
  rewrite <- Z.div2_div.
  destruct m as [|[p|p|]|p]; simpl; try done; lia.
Qed.

(** Shifting a mantissa right by [n] bits divides it by [2 ^ n]; when
    nothing is lost, the two bits that record the lost part are clear. *)
Lemma shr_iter n m :
  0 <= m ->
  let mrs := Nat.iter n shr_1 (Build_shr_record m false false) in
  shr_m mrs = m / 2 ^ Z.of_nat n /\
  (m mod 2 ^ Z.of_nat n = 0 -> shr_r mrs = false /\ shr_s mrs = false).
Proof.
  intros Hm. induction n as [|n IH]; simpl.
  - split; [by rewrite Z.div_1_r | done].
  - destruct IH as [IHm IHx].
    set (mrs := Nat.iter n shr_1 (Build_shr_record m false false)) in *.
    assert (0 <= shr_m mrs) as Hpos.
    { rewrite IHm. apply Z.div_pos; [done|]. apply Z.pow_pos_nonneg; lia. }
    destruct (shr_1_fields mrs Hpos) as (H1 & H2 & H3).
    assert (0 < 2 ^ Z.of_nat n) as Hpow by (apply Z.pow_pos_nonneg; lia).
    assert (2 ^ Z.of_nat (S n) = 2 ^ Z.of_nat n * 2) as Hs.
    { rewrite Nat2Z.inj_succ, Z.pow_succ_r by lia. lia. }
    split.
    + rewrite H1, IHm, Hs. by rewrite Z.div_div by lia.
    + intros Hmod. rewrite Hs in Hmod.
      assert (m mod 2 ^ Z.of_nat n = 0) as Hmod'.
      { apply Z.mod_divide; [lia|]. apply Z.mod_divide in Hmod; [|lia].
        destruct Hmod as [c Hc]. exists (c * 2). lia. }
      destruct (IHx Hmod') as [Hr Hsb].
      rewrite H2, H3, Hr, Hsb. split; [|done].
      rewrite IHm. apply Z.mod_divide in Hmod; [|lia].
      destruct Hmod as [c Hc]. subst m.
      replace (c * (2 ^ Z.of_nat n * 2)) with (c * 2 * 2 ^ Z.of_nat n) by lia.
      rewrite Z.div_mul by lia.
      rewrite Z.mul_comm. by rewrite Z.odd_mul, andb_false_l.
Qed.

Lemma shr_fexp_exact m e :
  0 <= m ->
  let k := Z.max 0 (fexp 53 1024 (Zdigits2 m + e) - e) in
  exists mrs,
    shr_fexp 53 1024 m e loc_Exact = (mrs, e + k) /\
    shr_m mrs = m / 2 ^ k /\
    (m mod 2 ^ k = 0 -> loc_of_shr_record mrs = loc_Exact).
Proof.
  intros Hm k. unfold shr_fexp, shr. subst k.
  destruct (fexp 53 1024 (Zdigits2 m + e) - e) as [|p|p] eqn:Hn; simpl.
  - eexists. rewrite Z.add_0_r. split; [reflexivity|]. simpl.
    by rewrite Z.div_1_r.
  - eexists. split; [reflexivity|].
    rewrite iter_pos_nat.
    destruct (shr_iter (Pos.to_nat p) m Hm) as [H1 H2].
    rewrite positive_nat_Z in H1, H2.
    replace (Z.max 0 (Z.pos p)) with (Z.pos p) by lia.
    split; [exact H1|]. intros Hmod. destruct (H2 Hmod) as [Hr Hs].
    destruct (Nat.iter _ _ _) as [m' r s]. simpl in *. by subst.
  - eexists. rewrite Z.add_0_r. split; [reflexivity|]. simpl.
    by rewrite Z.div_1_r.
Qed.

Lemma round_nearest_even_bounds m l :
  m <= round_nearest_even m l <= m + 1.
Proof.
  destruct l as [|[]]; simpl; try lia. destruct (Z.even m); lia.
Qed.

(** The result of rounding a positive mantissa [P] with exponent [E]: the
    mantissa is shifted right by [k], rounded to [m2], and shifted again by
    [n2]. *)
Lemma binary_round_aux_shape P E :
  let k := Z.max 0 (fexp 53 1024 (Zdigits2 (Z.pos P) + E) - E) in
  exists m2 n2,
    0 <= n2 /\
    Z.pos P / 2 ^ k <= m2 <= Z.pos P / 2 ^ k + 1 /\
    (Z.pos P mod 2 ^ k = 0 -> m2 = Z.pos P / 2 ^ k) /\
    binary_round_aux 53 1024 false (Z.pos P) E loc_Exact
    = match m2 / 2 ^ n2 with
      | Z0 => S754_zero false
      | Z.pos m =>
          if E + k + n2 <=? 971 then S754_finite false m (E + k + n2)
          else S754_infinity false
      | Z.neg _ => S754_nan
      end.
Proof.
  intros k. unfold binary_round_aux.
  destruct (shr_fexp_exact (Z.pos P) E) as (mrs & -> & Hm & Hx); [lia|].
  fold k in Hm, Hx |- *.
  set (m2 := round_nearest_even (shr_m mrs) (loc_of_shr_record mrs)).
  assert (0 < 2 ^ k) as Hpow by (apply Z.pow_pos_nonneg; lia).
  assert (0 <= Z.pos P / 2 ^ k) as Hq by (apply Z.div_pos; lia).
  pose proof (round_nearest_even_bounds (shr_m mrs) (loc_of_shr_record mrs))
    as Hb. fold m2 in Hb. rewrite Hm in Hb.
  destruct (shr_fexp_exact m2 (E + k)) as (mrs2 & -> & Hm2 & _); [lia|].
  exists m2, (Z.max 0 (fexp 53 1024 (Zdigits2 m2 + (E + k)) - (E + k))).
  split_and!; [lia | lia | lia | |].
  - intros Hmod. unfold m2. rewrite (Hx Hmod). simpl. exact Hm.
  - rewrite Hm2. rewrite Z.add_assoc. reflexivity.
Qed.

Lemma pow2_pos e : 0 <= e -> 0 < 2 ^ e.
Proof. intros. apply Z.pow_pos_nonneg; lia. Qed.

Lemma dle_mul_fraction ma ea mw ew W :
  0 < ma -> ea <= 0 -> ma <= 2 ^ (- ea) -> 0 <= mw -> 0 <= W ->
  dle mw ew W -> dle (ma * mw) (ea + ew) W.
Proof.
  intros Hma Hea Hle Hmw HW [H1 H2]. split; intros He.
  - assert (2 ^ ew = 2 ^ (- ea) * 2 ^ (ea + ew)) as Hp.
    { rewrite <- Z.pow_add_r by lia. f_equal. lia. }
    assert (0 < 2 ^ (ea + ew)) by (apply pow2_pos; lia).
    assert (0 < 2 ^ (- ea)) by (apply pow2_pos; lia).
    specialize (H1 ltac:(lia)). rewrite Hp in H1. nia.
  - assert (0 < 2 ^ (- (ea + ew))) by (apply pow2_pos; lia).
    assert (0 < 2 ^ (- ea)) by (apply pow2_pos; lia).
    destruct (Z.le_gt_cases 0 ew) as [Hew|Hew].
    + assert (2 ^ (- ea) = 2 ^ ew * 2 ^ (- (ea + ew))) as Hp.
      { rewrite <- Z.pow_add_r by lia. f_equal. lia. }
      specialize (H1 Hew). pose proof (pow2_pos ew Hew). nia.
    + assert (2 ^ (- (ea + ew)) = 2 ^ (- ea) * 2 ^ (- ew)) as Hp.
      { rewrite <- Z.pow_add_r by lia. f_equal. lia. }
      specialize (H2 Hew).
      assert (0 < 2 ^ (- ew)) by (apply pow2_pos; lia). nia.
Qed.

Lemma dle_shr n e k W :
  dle n e W -> 0 <= n -> 0 <= k -> dle (n / 2 ^ k) (e + k) W.
Proof.
  intros [H1 H2] Hn Hk.
  pose proof (pow2_pos k Hk) as Hpk.
  pose proof (Z.mul_div_le n (2 ^ k) Hpk) as Hq.
  assert (0 <= n / 2 ^ k) as Hq0 by (apply Z.div_pos; lia).
  split; intros He.
  - revert Hq Hq0. generalize (n / 2 ^ k) as q. intros q Hq Hq0.
    destruct (Z.le_gt_cases 0 e) as [He0|He0].
    + rewrite Z.pow_add_r by lia. specialize (H1 He0).
      pose proof (pow2_pos e He0). nia.
    + assert (2 ^ k = 2 ^ (- e) * 2 ^ (e + k)) as Hp.
      { rewrite <- Z.pow_add_r by lia. f_equal. lia. }
      specialize (H2 He0).
      assert (0 < 2 ^ (- e)) as HA by (apply pow2_pos; lia).
      pose proof (pow2_pos (e + k) He). rewrite Hp in Hq.
      apply (Z.mul_le_mono_pos_r _ _ (2 ^ (- e))); [done|]. lia.
  - assert (e < 0) as He0 by lia. specialize (H2 He0).
    assert (2 ^ (- e) = 2 ^ (- (e + k)) * 2 ^ k) as Hp.
    { rewrite <- Z.pow_add_r by lia. f_equal. lia. }
    rewrite Hp in H2. apply Z.div_le_upper_bound; [done|]. lia.
Qed.

Lemma dle_truncate n e W :
  dle n e W -> 0 <= n -> 0 <= Z.shiftl n e <= W.
Proof.
  intros [H1 H2] Hn. split; [by apply Z.shiftl_nonneg|].
  destruct (Z.le_gt_cases 0 e) as [He|He].
  - rewrite Z.shiftl_mul_pow2 by done. auto.
  - rewrite <- (Z.opp_involutive e) at 1.
    rewrite Z.shiftl_opp_r, Z.shiftr_div_pow2 by lia.
    assert (0 < 2 ^ (- e)) by (apply pow2_pos; lia).
    apply Z.div_le_upper_bound; [lia|]. specialize (H2 He). lia.
Qed.

Lemma dle_round_up P E k W :
  dle P E W -> 0 <= P -> 0 < k -> P mod 2 ^ k <> 0 -> E + k <= 0 ->
  dle (P / 2 ^ k + 1) (E + k) W.
Proof.
  intros [_ H2] HP Hk Hmod He.
  specialize (H2 ltac:(lia)).
  assert (2 ^ (- E) = 2 ^ (- (E + k)) * 2 ^ k) as Hp.
  { rewrite <- Z.pow_add_r by lia. f_equal. lia. }
  assert (0 < 2 ^ k) as Hpk by (apply pow2_pos; lia).
  rewrite Hp in H2.
  assert (P / 2 ^ k < W * 2 ^ (- (E + k))) as Hlt.
  { apply Z.div_lt_upper_bound; [lia|].
    destruct (Z.eq_dec P (W * 2 ^ (- (E + k)) * 2 ^ k)) as [->|Hne]; [|lia].
    rewrite Z.mod_mul in Hmod by lia. done. }
  split; intros He'.
  - assert (E + k = 0) as H0 by lia. rewrite H0 in *. simpl in *. lia.
  - lia.
Qed.

Lemma dle_large_is_power P E d W :
  dle P E W -> W <= 2 ^ 53 -> 2 ^ (d - 1) <= P -> 0 < d - 53 ->
  0 < d + E - 53 ->
  P mod 2 ^ (d - 53) = 0.
Proof.
  intros [H1 H2] HW Hd Hk He.
  assert (P = 2 ^ (d - 1)) as ->.
  { destruct (Z.le_gt_cases 0 E) as [HE|HE].
    - specialize (H1 HE). pose proof (pow2_pos E HE).
      assert (2 ^ (d - 1) * 2 ^ E <= 2 ^ 53) as Hle by nia.
      rewrite <- Z.pow_add_r in Hle by lia.
      apply Z.pow_le_mono_r_iff in Hle; [|lia|lia].
      assert (d - 1 + E = 53) as Heq by lia.
      assert (2 ^ (d - 1) * 2 ^ E = 2 ^ 53) as Hpow.
      { rewrite <- Z.pow_add_r by lia. by rewrite Heq. }
      nia.
    - specialize (H2 HE).
      assert (0 < 2 ^ (- E)) by (apply pow2_pos; lia).
      assert (2 ^ (d - 1) <= 2 ^ 53 * 2 ^ (- E)) as Hle by nia.
      rewrite <- Z.pow_add_r in Hle by lia.
      apply Z.pow_le_mono_r_iff in Hle; [|lia|lia].
      assert (d - 1 = 53 + - E) as Heq by lia.
      assert (2 ^ 53 * 2 ^ (- E) = 2 ^ (d - 1)) as Hpow.
      { rewrite <- Z.pow_add_r by lia. by rewrite Heq. }
      nia. }
  replace (d - 1) with (d - 1 - (d - 53) + (d - 53)) by lia.
  rewrite Z.pow_add_r by lia. apply Z.mod_mul.
  assert (0 < 2 ^ (d - 53)) by (apply pow2_pos; lia). lia.
Qed.

Lemma digits2_pos_le p : 2 ^ (Z.pos (digits2_pos p) - 1) <= Z.pos p.
Proof.
  induction p as [p IH|p IH|]; simpl digits2_pos.
  - rewrite Pos2Z.inj_succ.
    replace (Z.succ (Z.pos (digits2_pos p)) - 1)
      with (Z.succ (Z.pos (digits2_pos p) - 1)) by lia.
    rewrite Z.pow_succ_r by lia. lia.
  - rewrite Pos2Z.inj_succ.
    replace (Z.succ (Z.pos (digits2_pos p)) - 1)
      with (Z.succ (Z.pos (digits2_pos p) - 1)) by lia.
    rewrite Z.pow_succ_r by lia. lia.
  - done.
Qed.

(** Rounding a positive number that does not exceed the integer [W], itself
    at most [2 ^ 53], gives zero or a finite positive float that does not
    exceed [W]: it does not overflow and it does not round past [W]. *)
Lemma round_within P E W :
  dle (Z.pos P) E W -> 0 <= W <= 2 ^ 53 ->
  match binary_round_aux 53 1024 false (Z.pos P) E loc_Exact with
  | S754_zero s => s = false
  | S754_finite s m e => s = false /\ dle (Z.pos m) e W
  | _ => False
  end.
Proof.
  intros Hd HW.
  destruct (binary_round_aux_shape P E) as (m2 & n2 & Hn2 & Hb & Hx & ->).
  set (k := Z.max 0 (fexp 53 1024 (Zdigits2 (Z.pos P) + E) - E)) in *.
  assert (0 < 2 ^ k) as Hpk by (apply pow2_pos; lia).
  assert (0 <= Z.pos P / 2 ^ k) as Hq by (apply Z.div_pos; lia).
  assert (dle m2 (E + k) W) as Hd2.
  { destruct (Z.eq_dec m2 (Z.pos P / 2 ^ k)) as [->|Hne].
    { apply dle_shr; [done | lia | lia]. }
    assert (m2 = Z.pos P / 2 ^ k + 1) as -> by lia.
    assert (Z.pos P mod 2 ^ k <> 0) as Hmod by (intros H; apply Hne; auto).
    assert (0 < k) as Hk.
    { destruct (Z.eq_dec k 0) as [H0|H0]; [|lia].
      rewrite H0 in Hmod. simpl in Hmod. by rewrite Z.mod_1_r in Hmod. }
    destruct (Z.le_gt_cases (E + k) 0) as [He|He].
    { apply dle_round_up; [done | lia | done | done | done]. }
    exfalso. apply Hmod.
    assert (k = Z.pos (digits2_pos P) - 53) as Hkeq.
    { subst k. unfold fexp, emin, Zdigits2 in *. lia. }
    rewrite Hkeq.
    apply (dle_large_is_power _ E _ W);
      [done | lia | apply digits2_pos_le | lia | lia]. }
  assert (dle (m2 / 2 ^ n2) (E + k + n2) W) as Hd3.
  { apply dle_shr; [done | lia | done]. }
  assert (0 <= m2 / 2 ^ n2) as Hq3.
  { apply Z.div_pos; [lia | by apply pow2_pos]. }
  destruct (m2 / 2 ^ n2) as [|m|m] eqn:Hm3; [done| |lia].
  assert (E + k + n2 <= 53) as He.
  { destruct (Z.le_gt_cases 0 (E + k + n2)) as [H0|H0]; [|lia].
    destruct Hd3 as [H1 _]. specialize (H1 H0).
    pose proof (pow2_pos _ H0).
    assert (2 ^ (E + k + n2) <= 2 ^ 53) as Hle by nia.
    apply Z.pow_le_mono_r_iff in Hle; lia. }
  assert ((E + k + n2 <=? 971) = true) as -> by lia.
  done.
Qed.

Lemma pos_iter_xO p d : Z.pos (Pos.iter xO p d) = Z.pos p * 2 ^ Z.pos d.
Proof.
  induction d as [|d IH] using Pos.peano_ind.
  - simpl. lia.
  - rewrite Pos.iter_succ, Pos2Z.inj_xO, IH, Pos2Z.inj_succ.
    rewrite Z.pow_succ_r by lia. lia.
Qed.

(** The float nearest to an integer from 0 to [2 ^ 53] does not exceed the
    integer. *)
Lemma py_float_of_int_within W :
  0 <= W <= 2 ^ 53 ->
  exists f,
    py_float_of_int W = Ok f /\
    match f with
    | S754_zero _ => True
    | S754_finite s m e => s = false /\ dle (Z.pos m) e W
    | _ => False
    end.
Proof.
  intros HW. unfold py_float_of_int.
  destruct W as [|p|p]; [by eexists | | lia].
  unfold binary_normalize, binary_round.
  destruct (shl_align p 0 (fexp 53 1024 (Z.pos (digits2_pos p) + 0)))
    as [mz ez] eqn:Hal.
  assert (dle (Z.pos mz) ez (Z.pos p)) as Hd.
  { unfold shl_align in Hal.
    destruct (fexp 53 1024 (Z.pos (digits2_pos p) + 0) - 0) as [|d|d] eqn:Hs;
      injection Hal as <- <-.
    - split; intros _; simpl; lia.
    - split; intros _; simpl; lia.
    - assert (fexp 53 1024 (Z.pos (digits2_pos p) + 0) = Z.neg d) as -> by lia.
      split; [lia|]. intros _. rewrite pos_iter_xO.
      change (- Z.neg d) with (Z.pos d). lia. }
  pose proof (round_within mz ez (Z.pos p) Hd HW) as Hr.
  destruct (binary_round_aux 53 1024 false (Z.pos mz) ez loc_Exact)
    as [s|s| |s m e]; try done; by eexists.
Qed.

Lemma unit_fraction_finite s m e :
  unit_fraction (S754_finite s m e) ->
  s = false /\ e <= 0 /\ Z.pos m <= 2 ^ (- e).
Proof.
  intros (q & [= <-] & H0 & H1). revert H0 H1.
  destruct (Z.leb_spec 0 e) as [He|He]; unfold Qle; simpl.
  - rewrite !Z.mul_1_r. intros H0 H1.
    assert (0 < 2 ^ e) by (by apply pow2_pos).
    destruct s; [nia|]. split; [done|].
    assert (e = 0) as ->.
    { destruct (Z.eq_dec e 0) as [|Hne]; [done|].
      assert (2 ^ 1 <= 2 ^ e) by (apply Z.pow_le_mono_r; lia).
      simpl in *. nia. }
    simpl in *. lia.
  - rewrite !Z.mul_1_r, Z.mul_1_l. intros H0 H1.
    destruct s; [lia|]. split_and!; [done | lia |].
    rewrite Pos2Z.inj_pow, Z2Pos.id in H1 by lia. done.
Qed.

(** A fraction of a length, as the module computes it, lies between 0 and
    the length. *)
Lemma scale_fraction_within a W :
  unit_fraction a -> 0 <= W <= 2 ^ 53 ->
  exists t, scale_fraction a W = Ok t /\ 0 <= t <= W.
Proof.
  intros Ha HW. unfold scale_fraction.
  destruct (py_float_of_int_within W HW) as (f & -> & Hf). simpl.
  destruct a as [sa|sa| |sa ma ea];
    try (destruct Ha as (q & Hq & _); discriminate Hq).
  - destruct f as [s|s| |s m e]; try done; exists 0; simpl; split; (done || lia).
  - apply unit_fraction_finite in Ha as (-> & Hea & Hma).
    destruct f as [s|s| |s m e]; try done; [exists 0; simpl; split; (done || lia)|].
    destruct Hf as [-> Hd]. unfold py_float_mul, SFmul. simpl xorb.
    assert (dle (Z.pos (ma * m)) (ea + e) W) as Hprod.
    { rewrite Pos2Z.inj_mul. apply dle_mul_fraction; (done || lia). }
    pose proof (round_within (ma * m) (ea + e) W Hprod HW) as Hr.
    destruct (binary_round_aux 53 1024 false (Z.pos (ma * m)) (ea + e) loc_Exact)
      as [s|s| |s m' e']; try done.
    + exists 0. simpl. split; (done || lia).
    + destruct Hr as [-> Hd']. simpl. eexists. split; [reflexivity|].
      apply dle_truncate; [done | lia].
Qed.

Lemma anchor_points_inside psd l :
  0 <= header_width psd <= 2 ^ 53 -> 0 <= header_height psd <= 2 ^ 53 ->
  Forall in_unit_square l ->
  exists pts,
    mapR (anchor_point psd) l = Ok pts /\ Forall (inside_document psd) pts.
Proof.
  intros Hw Hh Hall.
  induction Hall as [|p l (v & h & Ha & Hv & Hh') _ (pts & IH & Hpts)].
  - exists []. split; [done | by apply Forall_nil].
  - destruct (scale_fraction_within h _ Hh' Hw) as (x & Hx & Hxb).
    destruct (scale_fraction_within v _ Hv Hh) as (y & Hy & Hyb).
    exists ((x, y) :: pts). split.
    + change (mapR (anchor_point psd) (p :: l))
        with (pt ← anchor_point psd p;
              ys ← mapR (anchor_point psd) l; Ok (pt :: ys)).
      rewrite IH. unfold anchor_point. rewrite Ha, Hx. simpl. by rewrite Hy.
    + apply Forall_cons. split; [|done]. by split.
Qed.

Lemma on_curve_filter_unit_square path :
  Forall (fun p => on_curve p = true -> in_unit_square p) path ->
  Forall in_unit_square (filter (fun p => on_curve p = true) path).
Proof.
  induction 1 as [|p path Hp _ IH]; [by apply Forall_nil|].
  rewrite filter_cons. destruct (decide (on_curve p = true)); [|done].
  apply Forall_cons. auto.
Qed.

(** X19: a shape layer whose literal box has zero width or zero height and
    whose on-curve knots have anchors in the unit square, in a document
    whose width and height are not negative and at most [2 ^ 53], so that
    a float holds them exactly: every point of [anchors] lies within the
    document, and [bbox] is a box with [x1 <= x2] and [y1 <= y2] that lies
    within the rectangle of the document. The products are rounded as
    binary64 arithmetic rounds them; rounding never carries a product past
    the width or the height. *)
Theorem shape_box_inside_document psd o info path :
  _info psd o = Ok info ->
  width (literal_bbox info) = 0 \/ height (literal_bbox info) = 0 ->
  dict_get (dict_of_pairs (info_tagged_blocks info))
           TaggedBlock.VECTOR_MASK_SETTING1
           (dict_of_pairs (info_tagged_blocks info)
              !! TaggedBlock.VECTOR_MASK_SETTING2)
  = Some (VectorMask path) ->
  Forall (fun p => on_curve p = true -> in_unit_square p) path ->
  0 <= header_width psd <= 2 ^ 53 -> 0 <= header_height psd <= 2 ^ 53 ->
  exists pts b,
    anchors psd o = Ok (Some pts) /\
    Forall (inside_document psd) pts /\
    ShapeLayer_bbox psd o = Ok b /\
    0 <= x1 b <= x2 b /\ x2 b <= header_width psd /\
    0 <= y1 b <= y2 b /\ y2 b <= header_height psd.
Proof.
  intros Hinfo Hsz Hvm Hpath Hw Hh.
  destruct (anchor_points_inside psd _ Hw Hh (on_curve_filter_unit_square _ Hpath))
    as (pts & Hmap & Hpts).
  assert (anchors psd o = Ok (Some pts)) as Han.
  { unfold anchors, _tagged_blocks. rewrite Hinfo. simpl. rewrite Hvm. simpl.
    by rewrite Hmap. }
  assert (_is_sizeless psd o = Ok true) as Hsl.
  { unfold _is_sizeless. rewrite Hinfo. simpl. f_equal.
    apply orb_true_iff. rewrite !Z.eqb_eq. exact Hsz. }
  unfold ShapeLayer_bbox. rewrite Hsl. simpl. rewrite Han. simpl.
  destruct (bool_decide (pts = []) || (length pts <? 2)%nat) eqn:Hfew.
  - exists pts, (mkBBox 0 0 0 0). simpl. split_and!; done || lia.
  - apply orb_false_iff in Hfew as [Hne _].
    apply bool_decide_eq_false in Hne.
    destruct (anchors_envelope_spec pts Hne)
      as (b & Hb & Hall & (p1 & Hp1 & Hx1) & (p2 & Hp2 & Hy1)
          & (p3 & Hp3 & Hx2) & (p4 & Hp4 & Hy2)).
    exists pts, b.
    pose proof (proj1 (Forall_forall _ _) Hpts) as Hin.
    unfold inside_document in Hin.
    pose proof (Hin _ Hp1). pose proof (Hin _ Hp2).
    pose proof (Hin _ Hp3). pose proof (Hin _ Hp4).
    pose proof (Hall _ Hp1). pose proof (Hall _ Hp2).
    split_and!; try done; lia.
Qed.

Lemma shape_box_inside_document_witness :
  exists pts b,
    anchors FractionSample.psd FractionSample.shape = Ok (Some pts) /\
    Forall (inside_document FractionSample.psd) pts /\
    ShapeLayer_bbox FractionSample.psd FractionSample.shape = Ok b /\
    0 <= x1 b <= x2 b /\ x2 b <= header_width FractionSample.psd /\
    0 <= y1 b <= y2 b /\ y2 b <= header_height FractionSample.psd.
Proof.
  eapply (shape_box_inside_document FractionSample.psd FractionSample.shape _
            FractionSample.path).
  - reflexivity.
  - left. reflexivity.
  - reflexivity.
  - unfold FractionSample.path.
    repeat (apply Forall_cons; split;
            [intros _; eexists _, _; split; [reflexivity|];
             split; (eexists; split; [reflexivity|];
                     split; unfold Qle; simpl; lia)|]).
    by apply Forall_nil.
  - simpl. lia.
  - simpl. lia.
Defined.

(** Beyond [2 ^ 53] the width itself is rounded when it is converted to a
    float: the fraction 1.0 of the width [2 ^ 53 + 3] is [2 ^ 53 + 4]. *)
Example scale_fraction_of_large_width :
  scale_fraction ShapeSample.one (2 ^ 53 + 3) = Ok (2 ^ 53 + 4)
  /\ scale_fraction FractionSample.f07 10 = Ok 7
  /\ scale_fraction FractionSample.f035 10 = Ok 3.
Proof. split_and!; vm_compute; reflexivity. Qed.
